(** * Case-Localiza: the fraud-data cleaning pipeline of [src/data_treatment.py]

    A shallow embedding of the pandas program and the properties its
    specification states about it.

    Modelling conventions.
    - A cell of a DataFrame is a string, a number or the missing marker
      ([NaN], [None], [NaT]).  Numbers are exact rationals in canonical form
      ([Qc]): the rounding of float64 is not modelled, and neither are its
      two infinities, so that every number is finite.  An instant of a
      datetime column is represented by its epoch seconds.
    - A table is as [read_csv] makes one: a column in which no cell is a
      string is a column of numbers, and a column without cells, or with a
      string in it, is a column of objects.
    - A row is a finite map from column names to cells; a DataFrame is its
      list of column names and its list of rows, in order.
    - Strings are sequences of 8-bit characters; [len] and [lower] are those
      of ASCII text.
    - What pandas itself computes from the text of a cell (parsing a number,
      printing a number, parsing an instant) is a parameter of the
      development: [str_to_num], [num_to_str], [str_to_epoch].
    - Python exceptions are values of [exn]; a computation that may raise has
      type [result A].  DataFrames are objects in a store, referenced by
      location, so that in-place writes and rebinding are told apart.
    - Console output is not modelled, except where computing the text that is
      printed can raise. *)

From Stdlib Require Import Ascii String QArith Qcanon.
From stdpp Require Import gmap strings list fin_maps numbers sorting pretty.

Local Open Scope string_scope.
Local Open Scope nat_scope.

Set Default Proof Using "Type".

(** ** Cells, rows and frames *)

Inductive cell :=
  | CStr (s : string)
  | CNum (q : Qc)
  | CNaN.

Global Instance cell_eq_dec : EqDecision cell.
Proof. solve_decision. Defined.

Global Instance cell_inhabited : Inhabited cell := populate CNaN.

Abbreviation row := (gmap string cell).

Record DataFrame := mkDataFrame {
  columns : list string;
  rows : list row
}.

Global Instance DataFrame_eq_dec : EqDecision DataFrame.
Proof. solve_decision. Defined.

(** [c in df.columns] *)
Definition has_col (c : string) (df : DataFrame) : bool :=
  bool_decide (c ∈ columns df).

(** [df[c]] read at one row. *)
Definition at_col (c : string) (r : row) : cell := default CNaN (r !! c).

(** [df[c] = f(row)], row by row: the whole column is replaced. *)
Definition assign_col (c : string) (f : row → cell) (df : DataFrame) : DataFrame :=
  mkDataFrame (columns df) ((λ r, <[c := f r]> r) <$> rows df).

(** [df.loc[mask, c] = v] *)
Definition loc_assign (mask : row → bool) (c : string) (v : cell)
    (rs : list row) : list row :=
  (λ r, if mask r then <[c := v]> r else r) <$> rs.

(** [df[mask]] *)
Definition boolean_index (mask : row → bool) (df : DataFrame) : DataFrame :=
  mkDataFrame (columns df) (filter (λ r, mask r = true) (rows df)).

(** [mask.sum()] *)
Definition mask_sum (mask : row → bool) (rs : list row) : nat :=
  length (filter (λ r, mask r = true) rs).

(** ** Exceptions *)

Inductive exn :=
  | FileNotFoundError
  | KeyError (k : string)
  | TypeError
  | AttributeError
  | ZeroDivisionError
  | OtherError (msg : string).

Inductive result (A : Type) :=
  | Ok (a : A)
  | Raise (e : exn).
Arguments Ok {A} a.
Arguments Raise {A} e.

Global Instance exn_eq_dec : EqDecision exn.
Proof. solve_decision. Defined.

Global Instance result_eq_dec {A} `{EqDecision A} : EqDecision (result A).
Proof. solve_decision. Defined.

Global Instance result_ret : MRet result := λ A a, Ok a.
Global Instance result_bind : MBind result := λ A B f m,
  match m with Ok a => f a | Raise e => Raise e end.
Global Instance result_fmap : FMap result := λ A B f m,
  match m with Ok a => Ok (f a) | Raise e => Raise e end.

(** ** Series operations on one cell *)

(** [Series.isna()] *)
Definition isna (c : cell) : bool :=
  match c with CNaN => true | _ => false end.

(** [Series.isin(values)] for a list of string literals. *)
Definition isin (values : list string) (c : cell) : bool :=
  match c with
  | CStr s => bool_decide (s ∈ values)
  | _ => false
  end.

(** [Series.str.len() == n]; the accessor gives NaN on a cell that is not a
    string, and the comparison of NaN is False. *)
Definition str_len_eq (n : nat) (c : cell) : bool :=
  match c with
  | CStr s => bool_decide (String.length s = n)
  | _ => false
  end.

(** [Series.str.startswith(p)]; NaN on a cell that is not a string, which
    the conjunction of the masks takes as False. *)
Definition str_startswith (p : string) (c : cell) : bool :=
  match c with
  | CStr s => String.prefix p s
  | _ => false
  end.

Definition is_str (c : cell) : bool :=
  match c with CStr _ => true | _ => false end.

(** Taking [Series.str]: pandas refuses the accessor, with AttributeError,
    on a column that is not of strings, which here is a column that has
    cells and no string among them.  On a column without cells, and on a
    column that holds a string, the methods answer cell by cell. *)
Definition str_accessor (column : list cell) : result unit :=
  match column with
  | [] => Ok ()
  | _ => if existsb is_str column then Ok () else Raise AttributeError
  end.

Definition ascii_lower (a : ascii) : ascii :=
  let n := nat_of_ascii a in
  if (65 <=? n) && (n <=? 90) then ascii_of_nat (n + 32) else a.

(** [str.lower()] *)
Fixpoint lower (s : string) : string :=
  match s with
  | EmptyString => EmptyString
  | String a s' => String (ascii_lower a) (lower s')
  end.

(** [==] between two cells: NaN is equal to nothing. *)
Definition cell_eqb (a b : cell) : bool :=
  match a, b with
  | CNaN, _ | _, CNaN => false
  | _, _ => bool_decide (a = b)
  end.

(** ** Medians *)

Definition numbers_of (cs : list cell) : list Qc :=
  omap (λ c, match c with CNum q => Some q | _ => None end) cs.

Definition two : Qc := Q2Qc (2 # 1).

(** [Series.median()] skips missing entries: the middle value of the sorted
    sample, the mean of the two middle values for an even size, NaN for an
    empty sample. *)
Definition median (cs : list cell) : cell :=
  let s := merge_sort Qcle (numbers_of cs) in
  let n := length s in
  if n =? 0 then CNaN
  else if Nat.even n
       then CNum ((nth (n / 2 - 1) s 0%Qc + nth (n / 2) s 0%Qc) / two)%Qc
       else CNum (nth (n / 2) s 0%Qc).

(** ** The store of DataFrame objects *)

Definition loc := nat.

Definition M (A : Type) : Type :=
  gmap loc DataFrame → result A * gmap loc DataFrame.

Global Instance M_ret : MRet M := λ A a σ, (Ok a, σ).
Global Instance M_bind : MBind M := λ A B f m σ,
  match m σ with
  | (Ok a, σ') => f a σ'
  | (Raise e, σ') => (Raise e, σ')
  end.

Definition m_raise {A} (e : exn) : M A := λ σ, (Raise e, σ).

(** Reading the object a variable refers to. *)
Definition df_get (l : loc) : M DataFrame := λ σ,
  match σ !! l with
  | Some df => (Ok df, σ)
  | None => (Raise (OtherError "NameError"), σ)
  end.

Definition df_put (l : loc) (df : DataFrame) : M unit := λ σ,
  (Ok (), <[l := df]> σ).

(** A new object: the result of [df.copy()], [df[mask]], [drop_duplicates()]. *)
Definition df_new (df : DataFrame) : M loc := λ σ,
  let l := fresh (dom σ) in (Ok l, <[l := df]> σ).

(** [df.copy()] *)
Definition df_copy (l : loc) : M loc :=
  df ← df_get l; df_new df.

(** Writes to the columns of the object at [l]: [df[c] = ...] and
    [df.loc[mask, c] = ...].  A stage that raises leaves the object as it
    found it. *)
Definition df_update (l : loc) (stage : DataFrame → result DataFrame) : M unit :=
  df ← df_get l;
  match stage df with
  | Ok df' => df_put l df'
  | Raise e => m_raise e
  end.

(** A computation that reads the object at [l] and may raise. *)
Definition df_check (l : loc) (check : DataFrame → result unit) : M unit :=
  df ← df_get l;
  match check df with
  | Ok _ => mret ()
  | Raise e => m_raise e
  end.

(** [if cond: df_clean = f(df_clean)]: the variable is bound to a new object. *)
Definition df_rebind_if (cond : DataFrame → bool) (f : DataFrame → DataFrame)
    (l : loc) : M loc :=
  df ← df_get l;
  if cond df then df_new (f df) else mret l.

(** ** A reader and a printer of decimal literals

    An instance of the parameters of the development, for the worked
    examples: it reads [-12.5] and the like and prints whole numbers the way
    Python prints a float. *)

Definition digit_of (a : ascii) : option Z :=
  let n := nat_of_ascii a in
  if (48 <=? n) && (n <=? 57) then Some (Z.of_nat (n - 48)) else None.

Fixpoint scan_decimal (s : string) (num : Z) (scale : positive)
    (seen_dot seen_digit : bool) : option Q :=
  match s with
  | EmptyString => if seen_digit then Some (num # scale) else None
  | String a s' =>
      if bool_decide (a = "."%char) then
        if seen_dot then None else scan_decimal s' num scale true seen_digit
      else
        match digit_of a with
        | Some d =>
            scan_decimal s' (10 * num + d)%Z
              (if seen_dot then (10 * scale)%positive else scale) seen_dot true
        | None => None
        end
  end.

Definition decimal_literal (s : string) : option Qc :=
  match s with
  | String "-" s' => (λ q, Q2Qc (- q)) <$> scan_decimal s' 0 1 false false
  | _ => Q2Qc <$> scan_decimal s 0 1 false false
  end.

Definition show_number (q : Qc) : string :=
  if bool_decide (Qden q = 1%positive) then pretty (Qnum q) +:+ ".0"
  else pretty (Qnum q) +:+ "/" +:+ pretty (Zpos (Qden q)).

Section Pipeline.

(** What pandas reads from, and prints to, the text of a cell. *)
Variable str_to_num : string → option Qc.
Variable num_to_str : Qc → string.
Variable str_to_epoch : string → option Qc.

(** [pd.to_numeric(..., errors='coerce')] *)
Definition to_numeric (c : cell) : cell :=
  match c with
  | CStr s => match str_to_num s with Some q => CNum q | None => CNaN end
  | CNum q => CNum q
  | CNaN => CNaN
  end.

(** [Series.astype(str)] *)
Definition astype_str (c : cell) : string :=
  match c with
  | CStr s => s
  | CNum q => num_to_str q
  | CNaN => "nan"
  end.

(** ** Stage 1: addresses (lines 140-151) *)

Definition address_mask (r : row) : bool :=
  str_len_eq 42 (at_col "sending_address" r)
  && str_len_eq 42 (at_col "receiving_address" r)
  && str_startswith "0x" (at_col "sending_address" r)
  && str_startswith "0x" (at_col "receiving_address" r).

Definition address_present (df : DataFrame) : bool :=
  has_col "sending_address" df && has_col "receiving_address" df.

(** [invalid_addresses > 0] *)
Definition address_rebinds (df : DataFrame) : bool :=
  address_present df && (0 <? mask_sum (λ r, negb (address_mask r)) (rows df)).

(** Lines 143-146 take the accessor of each address column before anything
    is compared. *)
Definition address_checks (df : DataFrame) : result unit :=
  if address_present df then
    str_accessor (at_col "sending_address" <$> rows df);;
    str_accessor (at_col "receiving_address" <$> rows df)
  else Ok ().

(** [if invalid_addresses > 0: df_clean = df_clean[address_mask]] *)
Definition address_filter (df : DataFrame) : DataFrame :=
  if address_rebinds df then boolean_index address_mask df else df.

Definition address_stage (df : DataFrame) : result DataFrame :=
  address_checks df;; Ok (address_filter df).

(** ** Stage 2: ip_prefix (lines 153-162) *)

Definition invalid_ip_values : list string :=
  ["0.0"; "0"; "nan"; "NaN"; "None"; "none"].

Definition ip_stage (df : DataFrame) : DataFrame :=
  if has_col "ip_prefix" df then
    let df1 := assign_col "ip_prefix" (λ r, CStr (astype_str (at_col "ip_prefix" r))) df in
    let invalid_ips r := isin invalid_ip_values (at_col "ip_prefix" r) in
    if 0 <? mask_sum invalid_ips (rows df1)
    then mkDataFrame (columns df1)
           (loc_assign invalid_ips "ip_prefix" (CStr "INVALID_IP") (rows df1))
    else df1
  else df.

(** ** Stages 3 and 4: risk_score and amount (lines 164-240) *)

Definition risk_missing_values : list string :=
  ["none"; "None"; "NULL"; "null"; ""].

(** The index of [df.groupby('location_region')]: the distinct regions, a
    missing region forming no group. *)
Definition region_keys (rs : list row) : list cell :=
  remove_dups (filter (λ k, isna k = false) (at_col "location_region" <$> rs)).

(** [df.groupby('location_region')[c].median()] *)
Definition groupby_median (c : string) (rs : list row) : list (cell * cell) :=
  (λ k, (k, median (at_col c <$>
                      filter (λ r, at_col "location_region" r = k) rs)))
  <$> region_keys rs.

(** One turn of [for regiao, mediana_regiao in medianas_por_regiao.items()]. *)
Definition fill_region (c : string) (rs : list row) (item : cell * cell) : list row :=
  let mask r := cell_eqb (at_col "location_region" r) item.1 && isna (at_col c r) in
  if 0 <? mask_sum mask rs then loc_assign mask c item.2 rs else rs.

(** [df[c] = df[c].fillna(v)] *)
Definition fillna (c : string) (v : cell) (df : DataFrame) : DataFrame :=
  assign_col c (λ r, if isna (at_col c r) then v else at_col c r) df.

(** The text shared by lines 178-202 and 214-238: the medians per region,
    the loop that fills each region, then the global median for what is
    still missing.  [groupby] raises when the table has no region column. *)
Definition impute_by_region (c : string) (df : DataFrame) : result DataFrame :=
  if has_col "location_region" df then
    let medianas_por_regiao := groupby_median c (rows df) in
    let df1 := mkDataFrame (columns df)
                 (foldl (fill_region c) (rows df) medianas_por_regiao) in
    let remaining_missing := mask_sum (λ r, isna (at_col c r)) (rows df1) in
    if 0 <? remaining_missing then
      let mediana_global := median (at_col c <$> rows df1) in
      Ok (fillna c mediana_global df1)
    else Ok df1
  else Raise (KeyError "location_region").

Definition risk_stage (df : DataFrame) : result DataFrame :=
  if has_col "risk_score" df then
    let risk_score_missing r := isin risk_missing_values (at_col "risk_score" r) in
    let missing_count := mask_sum risk_score_missing (rows df) in
    let df1 := assign_col "risk_score" (λ r, to_numeric (at_col "risk_score" r)) df in
    if 0 <? missing_count then impute_by_region "risk_score" df1 else Ok df1
  else Ok df.

Definition amount_stage (df : DataFrame) : result DataFrame :=
  if has_col "amount" df then
    let df1 := assign_col "amount" (λ r, to_numeric (at_col "amount" r)) df in
    let amount_missing := mask_sum (λ r, isna (at_col "amount" r)) (rows df1) in
    if 0 <? amount_missing then impute_by_region "amount" df1 else Ok df1
  else Ok df.

(** ** Stage 5: timestamp (lines 242-255) *)

(** The instants a nanosecond-resolution Timestamp can hold, in seconds. *)
Definition ns_bound : Qc := Q2Qc (9223372036854775807 # 1000000000).

Definition in_ns_bounds (q : Qc) : bool :=
  bool_decide (- ns_bound ≤ q)%Qc && bool_decide (q ≤ ns_bound)%Qc.

(** [pd.to_datetime(..., unit='s', errors='coerce')]: what cannot be read,
    or does not fit, becomes NaT, as [errors='coerce'] asks.  (On a column
    of floats pandas 2.2 raises OverflowError for a value beyond the range
    of a 64-bit integer; what is proved of this stage concerns tables the
    cleaning returned, and columns already converted.) *)
Definition to_datetime (c : cell) : cell :=
  match c with
  | CStr s =>
      match str_to_epoch s with
      | Some q => if in_ns_bounds q then CNum q else CNaN
      | None => CNaN
      end
  | CNum q => if in_ns_bounds q then CNum q else CNaN
  | CNaN => CNaN
  end.

(** The counts of future and ancient instants are only printed. *)
Definition timestamp_stage (df : DataFrame) : DataFrame :=
  if has_col "timestamp" df
  then assign_col "timestamp" (λ r, to_datetime (at_col "timestamp" r)) df
  else df.

(** ** Stage 6: location_region (lines 257-272) *)

Definition invalid_regions : list string := ["0"; "nan"; "none"; ""].

Definition region_invalid (r : row) : bool :=
  isin invalid_regions (at_col "location_region" r).

(** [df['location_region'] = df['location_region'].astype(str).str.lower()] *)
Definition region_lower (df : DataFrame) : DataFrame :=
  if has_col "location_region" df
  then assign_col "location_region"
         (λ r, CStr (lower (astype_str (at_col "location_region" r)))) df
  else df.

(** [invalid_count > 0] *)
Definition region_rebinds (df : DataFrame) : bool :=
  has_col "location_region" df && (0 <? mask_sum region_invalid (rows df)).

Definition region_filter (df : DataFrame) : DataFrame :=
  boolean_index (λ r, negb (region_invalid r)) df.

(** ** Stage 7: duplicates (lines 274-281) *)

(** [DataFrame.duplicated()] marks a row equal, on every column, to a row
    seen before it. *)
Fixpoint drop_seen (seen : list row) (rs : list row) : list row :=
  match rs with
  | [] => []
  | r :: rs' =>
      if bool_decide (r ∈ seen) then drop_seen seen rs'
      else r :: drop_seen (r :: seen) rs'
  end.

(** [df.drop_duplicates()] *)
Definition drop_duplicates (df : DataFrame) : DataFrame :=
  mkDataFrame (columns df) (drop_seen [] (rows df)).

(** ** enhanced_data_cleaning (lines 134-288) *)

Definition enhanced_data_cleaning (df : loc) : M loc :=
  df_clean ← df_copy df;
  t0 ← df_get df_clean;
  let initial_count := length (rows t0) in
  df_check df_clean address_checks;;
  df_clean ← df_rebind_if address_rebinds (boolean_index address_mask) df_clean;
  df_update df_clean (λ t, Ok (ip_stage t));;
  df_update df_clean risk_stage;;
  df_update df_clean amount_stage;;
  df_update df_clean (λ t, Ok (timestamp_stage t));;
  df_update df_clean (λ t, Ok (region_lower t));;
  df_clean ← df_rebind_if region_rebinds region_filter df_clean;
  t ← df_get df_clean;
  df_clean ← df_new (drop_duplicates t);
  t ← df_get df_clean;
  let final_count := length (rows t) in
  (* the retention rate printed last is final_count / initial_count * 100 *)
  if initial_count =? 0 then m_raise ZeroDivisionError else mret df_clean.

(** The frame [enhanced_data_cleaning] returns for a caller holding [df]. *)
Definition clean (df : DataFrame) : result DataFrame :=
  match enhanced_data_cleaning 0 {[0 := df]} with
  | (Ok l, σ) =>
      match σ !! l with
      | Some t => Ok t
      | None => Raise (OtherError "NameError")
      end
  | (Raise e, _) => Raise e
  end.

(** ** validate_data_quality, part 4 (lines 105-130) *)

Inductive range_issue :=
  | OutOfRange (n : nat)
  | ConversionError.  (* the text "Erro na conversão" *)

Global Instance range_issue_eq_dec : EqDecision range_issue.
Proof. solve_decision. Defined.

Definition numeric_checks : list (string * (Qc * Qc)) :=
  [ ("amount", (Qc_of_Z 0, Qc_of_Z 1000000));
    ("login_frequency", (Qc_of_Z 0, Qc_of_Z 50));
    ("session_duration", (Qc_of_Z 0, Qc_of_Z 1000));
    ("risk_score", (Qc_of_Z 0, Qc_of_Z 100)) ].

(** [pd.to_numeric(df[col], errors='coerce')] on a whole column: with
    [errors='coerce'] no cell makes it raise. *)
Definition to_numeric_series (cs : list cell) : result (list cell) :=
  Ok (to_numeric <$> cs).

(** [series < k] and [series > k] on a numeric series: False on NaN. *)
Definition num_lt (k : Qc) (c : cell) : bool :=
  match c with CNum q => bool_decide (q < k)%Qc | _ => false end.
Definition num_gt (k : Qc) (c : cell) : bool :=
  match c with CNum q => bool_decide (k < q)%Qc | _ => false end.

(** The body of the loop, for one column that is present: the value stored
    in [range_issues[col]], if any. *)
Definition range_check (min_val max_val : Qc) (column : list cell) : option range_issue :=
  match to_numeric_series column with
  | Ok series =>
      let out_of_range :=
        length (filter (λ c, num_lt min_val c || num_gt max_val c = true) series) in
      if 0 <? out_of_range then Some (OutOfRange out_of_range) else None
  | Raise _ => Some ConversionError
  end.

Definition range_issues (df : DataFrame) : gmap string range_issue :=
  foldl (λ (acc : gmap string range_issue) (chk : string * (Qc * Qc)),
           if has_col chk.1 df then
             match range_check chk.2.1 chk.2.2 (at_col chk.1 <$> rows df) with
             | Some issue => <[chk.1 := issue]> acc
             | None => acc
             end
           else acc)
        ∅ numeric_checks.

(** [validation_issues.get('out_of_range_values')] *)
Definition out_of_range_values (df : DataFrame) : option (gmap string range_issue) :=
  let issues := range_issues df in
  if bool_decide (issues = ∅) then None else Some issues.

(** ** post_processing_checks (lines 290-345) *)

(** [series > k] and [series < k] on a column that was not converted: the
    comparison of a string with a number raises. *)
Definition cmp_gt (k : Qc) (c : cell) : result bool :=
  match c with
  | CNum q => Ok (bool_decide (k < q)%Qc)
  | CNaN => Ok false
  | CStr _ => Raise TypeError
  end.

Definition cmp_lt (k : Qc) (c : cell) : result bool :=
  match c with
  | CNum q => Ok (bool_decide (q < k)%Qc)
  | CNaN => Ok false
  | CStr _ => Raise TypeError
  end.

(** [df[mask]] for a mask whose computation can raise. *)
Fixpoint select (mask : row → result bool) (rs : list row) : result (list row) :=
  match rs with
  | [] => Ok []
  | r :: rs' =>
      b ← mask r;
      sel ← select mask rs';
      Ok (if b : bool then r :: sel else sel)
  end.

Record tally := mkTally { checks_passed : nat; total_checks : nat }.

Global Instance tally_eq_dec : EqDecision tally.
Proof. solve_decision. Defined.

(** [total_checks += 1], and [checks_passed += 1] in the else branch of
    [if len(flagged) > 0]. *)
Definition tick (flagged : nat) (c : tally) : tally :=
  mkTally (if 0 <? flagged then checks_passed c else checks_passed c + 1)
          (total_checks c + 1).

(** Python parses [a & b | c & d] as [(a & b) | (c & d)]. *)
Definition mismatch_mask (r : row) : result bool :=
  high ← cmp_gt (Qc_of_Z 75) (at_col "risk_score" r);
  low ← cmp_lt (Qc_of_Z 25) (at_col "risk_score" r);
  Ok (high && cell_eqb (at_col "anomaly" r) (CStr "low_risk")
      || low && cell_eqb (at_col "anomaly" r) (CStr "high_risk")).

Definition risk_anomaly_check (df : DataFrame) (c : tally) : result (list row * tally) :=
  inconsistency ← select mismatch_mask (rows df);
  Ok (inconsistency, tick (length inconsistency) c).

Definition suspicious_mask (r : row) : result bool :=
  big ← cmp_gt (Qc_of_Z 50000) (at_col "amount" r);
  Ok (big && cell_eqb (at_col "age_group" r) (CStr "new")).

Definition post_processing_checks (df : DataFrame) : result tally :=
  let c := mkTally 0 0 in
  c ← (if has_col "risk_score" df && has_col "anomaly" df
       then snd <$> risk_anomaly_check df c else Ok c);
  c ← (if has_col "amount" df && has_col "age_group" df
       then suspicious ← select suspicious_mask (rows df);
            Ok (tick (length suspicious) c)
       else Ok c);
  c ← (if has_col "amount" df
       then negative ← select (λ r, cmp_lt (Qc_of_Z 0) (at_col "amount" r)) (rows df);
            Ok (tick (length negative) c)
       else Ok c);
  c ← (if has_col "session_duration" df
       then long ← select (λ r, cmp_gt (Qc_of_Z 500) (at_col "session_duration" r)) (rows df);
            Ok (tick (length long) c)
       else Ok c);
  Ok c.

(** One of the four checks, taken by itself: it is counted when its columns
    are there, and passed when its mask flags no row. *)
Definition guarded_check (applies : bool) (mask : row → result bool)
    (rs : list row) (c : tally) : result tally :=
  if applies
  then flagged ← select mask rs; Ok (tick (length flagged) c)
  else Ok c.

(** ** Tabela 2: the top sale addresses (lines 414-436)

    The report is built from the cleaned frame, whose [timestamp] and
    [amount] columns hold numbers or missing entries only; a cell of another
    kind is read as missing. *)

Definition num_key (c : cell) : option Qc :=
  match c with CNum q => Some q | _ => None end.

(** The ascending order of [sort_values]: missing keys last. *)
Definition key_le (a b : option Qc) : Prop :=
  match a, b with
  | _, None => True
  | None, Some _ => False
  | Some x, Some y => (x ≤ y)%Qc
  end.

Global Instance key_le_dec : RelDecision key_le.
Proof. intros [x|] [y|]; simpl; apply _. Defined.

Definition ts_le (r1 r2 : row) : Prop :=
  key_le (num_key (at_col "timestamp" r1)) (num_key (at_col "timestamp" r2)).

Global Instance ts_le_dec : RelDecision ts_le.
Proof. intros r1 r2; unfold ts_le; apply _. Defined.

(** [sales_df.sort_values('timestamp', ascending=True)].  The default
    algorithm of [sort_values] leaves the order of rows of equal timestamp
    open; here they keep the order of the frame, and what is proved of the
    report holds of any ascending arrangement of the rows. *)
Definition sort_by_timestamp (rs : list row) : list row := merge_sort ts_le rs.

(** [drop_duplicates(subset=c, keep='last')] *)
Fixpoint keep_last_by (c : string) (rs : list row) : list row :=
  match rs with
  | [] => []
  | r :: rs' =>
      if bool_decide (at_col c r ∈ (at_col c <$> rs')) then keep_last_by c rs'
      else r :: keep_last_by c rs'
  end.

(** [r1]'s amount is not larger than [r2]'s, a missing amount being below
    every number. *)
Definition amount_le (r1 r2 : row) : Prop :=
  match num_key (at_col "amount" r1), num_key (at_col "amount" r2) with
  | None, _ => True
  | Some _, None => False
  | Some a, Some b => (a ≤ b)%Qc
  end.

Global Instance amount_le_dec : RelDecision amount_le.
Proof. intros r1 r2; unfold amount_le; repeat case_match; apply _. Defined.

(** The descending order of [nlargest]: a stable insertion, a row going
    before the first row that is not larger. *)
Fixpoint insert_desc (x : row) (l : list row) : list row :=
  match l with
  | [] => [x]
  | y :: l' =>
      if bool_decide (amount_le y x) then x :: y :: l'
      else y :: insert_desc x l'
  end.

Definition sort_desc (rs : list row) : list row := foldr insert_desc [] rs.

(** [df.nlargest(n, 'amount')]: the rows in descending order of amount,
    equal amounts in the order of the frame, the rows without an amount
    last, in the order of the frame. *)
Definition nlargest (n : nat) (rs : list row) : list row :=
  take n (sort_desc rs).

Definition report_columns : list string :=
  ["receiving_address"; "amount"; "timestamp"].

(** [df[['receiving_address', 'amount', 'timestamp']]] *)
Definition select_columns (cs : list string) (r : row) : row :=
  filter (λ kv, kv.1 ∈ cs) r.

Definition is_sale (r : row) : bool :=
  cell_eqb (at_col "transaction_type" r) (CStr "sale").

Definition latest_sales (df_cleaned : DataFrame) : list row :=
  keep_last_by "receiving_address"
    (sort_by_timestamp (filter (λ r, is_sale r = true) (rows df_cleaned))).

Definition tabela2 (df_cleaned : DataFrame) : option DataFrame :=
  if forallb (λ c, has_col c df_cleaned)
       ["transaction_type"; "receiving_address"; "amount"; "timestamp"]
  then
    let sales_df := filter (λ r, is_sale r = true) (rows df_cleaned) in
    if 0 <? length sales_df then
      let latest := latest_sales df_cleaned in
      if 3 <=? length latest
      then Some (mkDataFrame report_columns
                   (select_columns report_columns <$> nlargest 3 latest))
      else Some (mkDataFrame report_columns
                   (select_columns report_columns <$> latest))
    else Some (mkDataFrame report_columns [])
  else None.

(** ** run_enhanced_data_pipeline and save_df_clean (lines 347-482) *)

(** The files, by path; what [read_csv] makes of a file and [to_csv] of a
    frame; the table of regional statistics, whose mean and deviation are
    floating-point numbers; and whether the printing scans of lines 361-364
    raise. *)
Variable parse_csv : string → result DataFrame.
Variable to_csv : DataFrame → string.
Variable report1 : Type.
Variable regional_risk : DataFrame → report1.
Variable console_scans : DataFrame → result unit.

Definition read_csv (fs : gmap string string) (file_path : string) : result DataFrame :=
  match fs !! file_path with
  | Some text => parse_csv text
  | None => Raise FileNotFoundError
  end.

Definition tabela1 (df_cleaned : DataFrame) : option report1 :=
  if has_col "location_region" df_cleaned && has_col "risk_score" df_cleaned
  then Some (regional_risk df_cleaned)
  else None.

(** The [try] block. *)
Definition pipeline_body (fs : gmap string string) (file_path : string)
    : result (DataFrame * option report1 * option DataFrame) :=
  df ← read_csv fs file_path;
  let total_records := length (rows df) in
  console_scans df;;
  df_cleaned ← clean df;
  let final_records := length (rows df_cleaned) in
  (* data_quality_score = (final_records / total_records) * 100 *)
  (if total_records =? 0 then Raise ZeroDivisionError else Ok ());;
  post_processing_checks df_cleaned;;
  Ok (df_cleaned, tabela1 df_cleaned, tabela2 df_cleaned).

Definition run_enhanced_data_pipeline (fs : gmap string string) (file_path : string)
    : option DataFrame * option report1 * option DataFrame :=
  match pipeline_body fs file_path with
  | Ok (df_cleaned, tabela1, tabela2) => (Some df_cleaned, tabela1, tabela2)
  | Raise FileNotFoundError => (None, None, None)
  | Raise _ => (None, None, None)
  end.

Definition output_path : string := "data/df_fraud_credit_cleaned.csv".

Definition save_df_clean (df_cleaned : option DataFrame) (fs : gmap string string)
    : gmap string string :=
  match df_cleaned with
  | Some df => <[output_path := to_csv df]> fs
  | None => fs
  end.

(** ** validate_data_quality, parts 1 to 3 (lines 63-103), and its result *)

(** [df.isnull().sum()], kept where the count is positive. *)
Definition missing_data (df : DataFrame) : list (string * nat) :=
  filter (λ kv, 0 < kv.2)
    ((λ c, (c, mask_sum (λ r, isna (at_col c r)) (rows df))) <$> columns df).

(** [df.duplicated()]: a row is marked when a row equal to it on every
    column comes before it. *)
Fixpoint duplicated (seen : list row) (rs : list row) : list bool :=
  match rs with
  | [] => []
  | r :: rs' => bool_decide (r ∈ seen) :: duplicated (r :: seen) rs'
  end.

(** [df.duplicated().sum()] *)
Definition duplicate_count (df : DataFrame) : nat :=
  length (filter (λ b, b = true) (duplicated [] (rows df))).

Definition expected_categories : list (string * list string) :=
  [ ("transaction_type", ["transfer"; "purchase"; "sale"; "exchange"]);
    ("location_region",
     ["North America"; "South America"; "Europe"; "Asia"; "Africa"]);
    ("purchase_pattern", ["focused"; "high_value"; "random"]);
    ("age_group", ["new"; "established"; "veteran"]);
    ("anomaly", ["low_risk"; "moderate_risk"; "high_risk"]) ].

Definition category_sentinels : list string := ["nan"; "NaN"; "None"; "none"].

(** [Series.unique()]: the distinct values, in the order they first appear. *)
Fixpoint unique_from (seen : list string) (l : list string) : list string :=
  match l with
  | [] => []
  | x :: l' =>
      if bool_decide (x ∈ seen) then unique_from seen l'
      else x :: unique_from (x :: seen) l'
  end.

(** [[val for val in unique_vals if val not in expected_vals and val not in
    ['nan', 'NaN', 'None', 'none']]] *)
Definition invalid_vals (expected_vals : list string) (column : list cell)
    : list string :=
  filter (λ val, (val ∉ expected_vals) ∧ (val ∉ category_sentinels))
    (unique_from [] (astype_str <$> column)).

Definition categorical_issues (df : DataFrame) : list (string * list string) :=
  omap (λ (entry : string * list string),
          if has_col entry.1 df then
            match invalid_vals entry.2 (at_col entry.1 <$> rows df) with
            | [] => None
            | vals => Some (entry.1, vals)
            end
          else None)
       expected_categories.

(** The dictionary the function returns: an entry is present only when
    there is something to report. *)
Record validation_issues := mkIssues {
  missing_values : option (list (string * nat));
  duplicate_rows : option nat;
  invalid_categories : option (list (string * list string));
  out_of_range : option (gmap string range_issue)
}.

Definition validate_data_quality (df : DataFrame) : validation_issues :=
  mkIssues
    (match missing_data df with [] => None | l => Some l end)
    (if 0 <? duplicate_count df then Some (duplicate_count df) else None)
    (match categorical_issues df with [] => None | l => Some l end)
    (out_of_range_values df).

(** ** The script (lines 484-492) *)

Definition source_path : string := "data/df_fraud_credit.csv".

Definition main (fs : gmap string string) : gmap string string :=
  save_df_clean (run_enhanced_data_pipeline fs source_path).1.1 fs.

(** ** What the specification says, as predicates *)

(** A well-formed address: a string of 42 characters that begins with 0x. *)
Definition valid_address (c : cell) : Prop :=
  ∃ s, c = CStr s ∧ String.length s = 42 ∧ ∃ rest, s = "0x" +:+ rest.

Definition valid_addresses (r : row) : Prop :=
  valid_address (at_col "sending_address" r)
  ∧ valid_address (at_col "receiving_address" r).

(** A column of which [.str] can be taken: it has no cell, or a string. *)
Definition string_column (c : string) (rs : list row) : Prop :=
  rs = [] ∨ ∃ r s, r ∈ rs ∧ at_col c r = CStr s.

(** What stage 2 writes in a cell: the comparison is with the six literals
    as they are spelled. *)
Definition ip_rewritten (c : cell) : cell :=
  if bool_decide (astype_str c ∈ invalid_ip_values)
  then CStr "INVALID_IP" else CStr (astype_str c).

(** The rewriting of stage 2 as the specification words it: the comparison
    ignores case, and another value is left as it is. *)
Definition ip_rewritten_ignoring_case (c : cell) : cell :=
  if bool_decide (lower (astype_str c) ∈ lower <$> invalid_ip_values)
  then CStr "INVALID_IP" else c.

Definition ip_stage_ignores_case (df : DataFrame) : Prop :=
  ∀ i r, rows df !! i = Some r →
    ∃ r', rows (ip_stage df) !! i = Some r'
          ∧ at_col "ip_prefix" r' = ip_rewritten_ignoring_case (at_col "ip_prefix" r).

(** A cell whose numeric conversion is a number outside the bounds. *)
Definition outside (min_val max_val : Qc) (c : cell) : Prop :=
  ∃ q, to_numeric c = CNum q ∧ ((q < min_val)%Qc ∨ (max_val < q)%Qc).

(** A cell whose numeric conversion fails. *)
Definition fails_conversion (c : cell) : Prop :=
  ∃ s, c = CStr s ∧ str_to_num s = None.

(** The second half of the claim on validation, as the specification words
    it: a value that fails the conversion is reported as a conversion error
    for its column. *)
Definition conversion_failures_reported (df : DataFrame) : Prop :=
  ∀ col bounds r,
    (col, bounds) ∈ numeric_checks → has_col col df = true → r ∈ rows df →
    fails_conversion (at_col col r) →
    ∃ issues, out_of_range_values df = Some issues
              ∧ issues !! col = Some ConversionError.

(** A row the mismatch check is meant to flag. *)
Definition mismatch (r : row) : Prop :=
  (∃ q, at_col "risk_score" r = CNum q ∧ (Qc_of_Z 75 < q)%Qc
        ∧ at_col "anomaly" r = CStr "low_risk")
  ∨ (∃ q, at_col "risk_score" r = CNum q ∧ (q < Qc_of_Z 25)%Qc
          ∧ at_col "anomaly" r = CStr "high_risk").

(** A cell of a converted column: a number or a missing entry. *)
Definition numeric_cell (c : cell) : Prop :=
  match c with CStr _ => False | _ => True end.



(** The stages in sequence, on the value of the table: what
    [enhanced_data_cleaning] computes, by [clean_cleaned_frame] below. *)
Definition cleaned_frame (df : DataFrame) : result DataFrame :=
  t1 ← address_stage df;
  t3 ← risk_stage (ip_stage t1);
  t4 ← amount_stage t3;
  let t6 := region_lower (timestamp_stage t4) in
  let t7 := drop_duplicates (if region_rebinds t6 then region_filter t6 else t6) in
  if length (rows df) =? 0 then Raise ZeroDivisionError else Ok t7.

(** [l] is bound to the table [t] in [σ], is not an object of [σ0], and the
    objects of [σ0] are in [σ] as they were. *)
Definition private (σ0 σ : gmap loc DataFrame) (l : loc) (t : DataFrame) : Prop :=
  σ !! l = Some t ∧ (l ∉ dom σ0) ∧ (∀ l', l' ∈ dom σ0 → σ !! l' = σ0 !! l').


(** Every row has column [c], with a cell that satisfies [P]. *)
Definition column_holds (c : string) (P : cell → Prop) (rs : list row) : Prop :=
  ∀ r, r ∈ rs → ∃ v, r !! c = Some v ∧ P v.


(** The claim on the top sale addresses as the specification words it: the
    row that takes part for an address has a timestamp, the largest of the
    sale rows of that address. *)
Definition latest_has_largest_timestamp (df : DataFrame) : Prop :=
  ∀ r r' t',
    r ∈ latest_sales df → r' ∈ rows df → is_sale r' = true →
    at_col "receiving_address" r' = at_col "receiving_address" r →
    at_col "timestamp" r' = CNum t' →
    ∃ t, at_col "timestamp" r = CNum t ∧ (t' ≤ t)%Qc.


(** Stage 3 with the column [c] in place of risk_score: what the
    specification says stage 4 is, at [c = "amount"]. *)
Definition risk_procedure_on (c : string) (df : DataFrame) : result DataFrame :=
  if has_col c df then
    let missing r := isin risk_missing_values (at_col c r) in
    let missing_count := mask_sum missing (rows df) in
    let df1 := assign_col c (λ r, to_numeric (at_col c r)) df in
    if 0 <? missing_count then impute_by_region c df1 else Ok df1
  else Ok df.


(** The two passes of the imputation, row by row: the median of the rows of
    the region, then the median of the whole column as the first pass left
    it. *)
Definition region_median (c : string) (rs : list row) (k : cell) : cell :=
  median (at_col c <$> filter (λ r, at_col "location_region" r = k) rs).

Definition first_pass (c : string) (rs : list row) (r : row) : row :=
  if isna (at_col c r) && negb (isna (at_col "location_region" r))
  then <[c := region_median c rs (at_col "location_region" r)]> r
  else r.

Definition second_pass (c : string) (rs : list row) (r : row) : row :=
  if isna (at_col c r) then <[c := median (at_col c <$> rs)]> r else r.

Definition two_passes (c : string) (rs : list row) : list row :=
  let rs1 := first_pass c rs <$> rs in
  second_pass c rs1 <$> rs1.

(** One turn of the loop, on one row. *)
Definition fill_row (c : string) (item : cell * cell) (r : row) : row :=
  if cell_eqb (at_col "location_region" r) item.1 && isna (at_col c r)
  then <[c := item.2]> r else r.


(** What the stages leave in their columns. *)
Definition address_ok (v : cell) : Prop :=
  str_len_eq 42 v && str_startswith "0x" v = true.

Definition ip_clean (v : cell) : Prop :=
  ∃ s, v = CStr s ∧ s ∉ invalid_ip_values.

Definition is_num (v : cell) : Prop := ∃ q, v = CNum q.

Definition region_clean (v : cell) : Prop :=
  ∃ s, v = CStr s ∧ lower s = s ∧ s ∉ invalid_regions.


Definition lowercase_text (v : cell) : Prop :=
  ∃ s, v = CStr s ∧ lower s = s.

(** A table as [enhanced_data_cleaning] leaves one: what each stage has
    established for the columns the table has. *)
Record cleaned (df : DataFrame) : Prop := {
  cleaned_addresses :
    address_present df = true →
    column_holds "sending_address" address_ok (rows df)
    ∧ column_holds "receiving_address" address_ok (rows df);
  cleaned_ip :
    has_col "ip_prefix" df = true → column_holds "ip_prefix" ip_clean (rows df);
  cleaned_risk :
    has_col "risk_score" df = true →
    column_holds "risk_score" numeric_cell (rows df);
  cleaned_amount :
    has_col "amount" df = true →
    column_holds "amount" is_num (rows df)
    ∨ (column_holds "amount" (λ v, v = CNaN) (rows df)
       ∧ has_col "location_region" df = true);
  cleaned_timestamp :
    has_col "timestamp" df = true →
    column_holds "timestamp" (λ v, to_datetime v = v) (rows df);
  cleaned_region :
    has_col "location_region" df = true →
    column_holds "location_region" region_clean (rows df);
  cleaned_distinct : NoDup (rows df)
}.


(** * Proofs *)

(** The solvers of stdpp take a function in the context for an implication
    to use: the parameters of the development are put aside first. *)
Ltac forget_parameters :=
  try clear console_scans; try clear regional_risk; try clear report1;
  try clear to_csv; try clear parse_csv; try clear str_to_epoch;
  try clear num_to_str; try clear str_to_num.
Ltac ns := forget_parameters; naive_solver.
Ltac ss := forget_parameters; set_solver.
Ltac tt := forget_parameters; tauto.

(** ** Lists and rows *)

Lemma filter_all {A} (P : A → Prop) `{!∀ x, Decision (P x)} (l : list A) :
  (∀ x, x ∈ l → P x) → filter P l = l.
Proof.
  induction l as [|x l IH]; intros Hall; [done|].
  rewrite filter_cons_True by (apply Hall; left).
  f_equal. apply IH. intros y Hy. apply Hall. by right.
Qed.

Lemma filter_length_0 {A} (P : A → Prop) `{!∀ x, Decision (P x)} (l : list A) :
  length (filter P l) = 0 → ∀ x, x ∈ l → ¬ P x.
Proof.
  intros Hlen x Hx HP. apply length_zero_iff_nil in Hlen.
  by apply (filter_nil_not_elem_of P l x).
Qed.

Lemma mask_sum_0 (mask : row → bool) (rs : list row) :
  mask_sum mask rs = 0 → ∀ r, r ∈ rs → mask r = false.
Proof.
  intros H r Hr. apply (filter_length_0 _ _ H) in Hr. by destruct (mask r).
Qed.

Lemma mask_sum_pos (mask : row → bool) (rs : list row) :
  (0 <? mask_sum mask rs) = true ↔ ∃ r, r ∈ rs ∧ mask r = true.
Proof.
  unfold mask_sum. rewrite Nat.ltb_lt. split.
  - intros Hlen. destruct (filter _ rs) as [|r l] eqn:E; [simpl in Hlen; lia|].
    exists r. assert (Hr : r ∈ filter (λ r, mask r = true) rs) by (rewrite E; left).
    apply list_elem_of_filter in Hr. ns.
  - intros (r & Hr & Hm).
    assert (Hin : r ∈ filter (λ r, mask r = true) rs) by (by apply list_elem_of_filter).
    destruct (filter _ rs); [by apply elem_of_nil in Hin | simpl; lia].
Qed.

Lemma at_col_insert c v (r : row) : at_col c (<[c := v]> r) = v.
Proof. unfold at_col. by rewrite lookup_insert_eq. Qed.

Lemma at_col_insert_ne c c' v (r : row) :
  c ≠ c' → at_col c' (<[c := v]> r) = at_col c' r.
Proof. intros. unfold at_col. by rewrite lookup_insert_ne. Qed.

(** ** Stage 1 *)

Lemma prefix_append p s : String.prefix p s = true ↔ ∃ rest, s = p +:+ rest.
Proof.
  revert s. induction p as [|a p IH]; intros s.
  - split; [intros _; by exists s | by destruct s].
  - destruct s as [|b s]; cbn [String.prefix].
    + split; [done | by intros [rest ?]].
    + destruct (ascii_dec a b) as [->|Hne].
      * rewrite IH. split; intros [rest Hr]; exists rest;
          change (String b p +:+ rest) with (String b (p +:+ rest)) in *; congruence.
      * split; [done | intros [rest Hr]].
        change (String a p +:+ rest) with (String a (p +:+ rest)) in *; congruence.
Qed.

Lemma address_cell_valid c :
  str_len_eq 42 c && str_startswith "0x" c = true ↔ valid_address c.
Proof.
  unfold valid_address. rewrite andb_true_iff. destruct c as [s| |]; simpl.
  - rewrite bool_decide_eq_true, prefix_append. ns.
  - ns.
  - ns.
Qed.

Lemma address_mask_valid r : address_mask r = true ↔ valid_addresses r.
Proof.
  unfold address_mask, valid_addresses.
  rewrite <- !address_cell_valid, !andb_true_iff. ns.
Qed.

Global Instance valid_addresses_dec r : Decision (valid_addresses r).
Proof.
  refine (cast_if (decide (address_mask r = true))); by rewrite <- address_mask_valid.
Defined.

(** The filter keeps a row if and only if its two addresses are strings of
    exactly 42 characters that begin with 0x. *)
Lemma address_filter_retains df :
  address_present df = true →
  columns (address_filter df) = columns df
  ∧ rows (address_filter df) = filter valid_addresses (rows df).
Proof.
  intros Hp. unfold address_filter, address_rebinds. rewrite Hp. simpl.
  destruct (0 <? _) eqn:Hcount; simpl.
  - split; [done|]. apply list_filter_iff. intros r. apply address_mask_valid.
  - split; [done|]. symmetry. apply filter_all. intros r Hr.
    apply address_mask_valid. apply Nat.ltb_ge in Hcount.
    assert (H0 : mask_sum (λ r, negb (address_mask r)) (rows df) = 0) by lia.
    apply (mask_sum_0 _ _ H0) in Hr. by destruct (address_mask r).
Qed.

(** ** Stage 2 *)

Lemma ip_stage_rows df :
  has_col "ip_prefix" df = true →
  rows (ip_stage df)
  = (λ r, <["ip_prefix" := ip_rewritten (at_col "ip_prefix" r)]> r) <$> rows df.
Proof.
  intros Hc. unfold ip_stage. rewrite Hc.
  destruct (0 <? _) eqn:Hcount; simpl.
  - unfold loc_assign. rewrite <- list_fmap_compose. apply list_fmap_ext.
    intros i r _. simpl. rewrite at_col_insert. unfold ip_rewritten. simpl.
    case_bool_decide; [by rewrite insert_insert_eq | done].
  - apply list_fmap_ext. intros i r Hr. simpl.
    apply Nat.ltb_ge in Hcount.
    assert (H0 : mask_sum (λ r, isin invalid_ip_values (at_col "ip_prefix" r))
                   (rows (assign_col "ip_prefix"
                      (λ r, CStr (astype_str (at_col "ip_prefix" r))) df)) = 0) by lia.
    pose proof (mask_sum_0 _ _ H0 (<["ip_prefix" := CStr (astype_str (at_col "ip_prefix" r))]> r)) as Hm.
    cbv beta in Hm. rewrite at_col_insert in Hm. cbn [isin] in Hm.
    unfold ip_rewritten. rewrite Hm; [done|].
    cbn [rows assign_col]. apply list_elem_of_fmap. exists r. split; [done|].
    by apply list_elem_of_lookup_2 in Hr.
Qed.

(** C3, amended. Stage 2 drops no row and touches no other column; it
    replaces each ip_prefix by its string conversion, and by INVALID_IP when
    that string is, as spelled, one of 0.0, 0, nan, NaN, None, none. *)
Theorem ip_stage_rewrites df :
  has_col "ip_prefix" df = true →
  length (rows (ip_stage df)) = length (rows df)
  ∧ ∀ i r, rows df !! i = Some r →
      ∃ r', rows (ip_stage df) !! i = Some r'
            ∧ r' !! "ip_prefix" = Some (ip_rewritten (at_col "ip_prefix" r))
            ∧ ∀ c, c ≠ "ip_prefix" → r' !! c = r !! c.
Proof.
  intros Hc. rewrite (ip_stage_rows _ Hc). split; [by rewrite length_fmap|].
  intros i r Hr. eexists. split; [by rewrite list_lookup_fmap, Hr|].
  split; [by rewrite lookup_insert_eq|].
  intros c Hne. by rewrite lookup_insert_ne.
Qed.

(** ** Validation of the numeric ranges *)

Lemma outside_mask min_val max_val c :
  num_lt min_val (to_numeric c) || num_gt max_val (to_numeric c) = true
  ↔ outside min_val max_val c.
Proof.
  unfold outside. destruct (to_numeric c) as [s|q|]; simpl.
  - ns.
  - rewrite orb_true_iff, !bool_decide_eq_true. ns.
  - ns.
Qed.

Global Instance outside_dec min_val max_val c : Decision (outside min_val max_val c).
Proof.
  refine (cast_if (decide (num_lt min_val (to_numeric c)
                           || num_gt max_val (to_numeric c) = true)));
    by rewrite <- outside_mask.
Defined.

Lemma filter_fmap_length {A B} (f : A → B) (P : B → Prop) (Q : A → Prop)
    `{!∀ x, Decision (P x)} `{!∀ x, Decision (Q x)} (l : list A) :
  (∀ x, P (f x) ↔ Q x) →
  length (filter P (f <$> l)) = length (filter Q l).
Proof.
  intros HPQ. induction l as [|x l IH]; [done|].
  rewrite fmap_cons, !filter_cons.
  destruct (decide (P (f x))) as [HP|HP], (decide (Q x)) as [HQ|HQ]; simpl;
    rewrite ?IH; try done; by apply HPQ in HP || apply HPQ in HQ.
Qed.

Lemma range_check_count min_val max_val column :
  range_check min_val max_val column
  = match length (filter (outside min_val max_val) column) with
    | 0 => None
    | S n => Some (OutOfRange (S n))
    end.
Proof.
  unfold range_check, to_numeric_series.
  rewrite (filter_fmap_length to_numeric _ (outside min_val max_val))
    by (intros c; apply outside_mask).
  by destruct (length _).
Qed.

Lemma range_check_no_error min_val max_val column :
  range_check min_val max_val column ≠ Some ConversionError.
Proof. rewrite range_check_count. by destruct (length _). Qed.

Definition range_step (df : DataFrame) (acc : gmap string range_issue)
    (chk : string * (Qc * Qc)) : gmap string range_issue :=
  if has_col chk.1 df then
    match range_check chk.2.1 chk.2.2 (at_col chk.1 <$> rows df) with
    | Some issue => <[chk.1 := issue]> acc
    | None => acc
    end
  else acc.

Lemma range_step_other df acc chk c :
  c ≠ chk.1 → range_step df acc chk !! c = acc !! c.
Proof.
  intros Hne. unfold range_step. destruct (has_col _ _); [|done].
  destruct (range_check _ _ _); [|done]. by rewrite lookup_insert_ne.
Qed.

Lemma range_step_same df acc chk :
  has_col chk.1 df = true → acc !! chk.1 = None →
  range_step df acc chk !! chk.1
  = range_check chk.2.1 chk.2.2 (at_col chk.1 <$> rows df).
Proof.
  intros Hc Hacc. unfold range_step. rewrite Hc.
  destruct (range_check _ _ _); [by rewrite lookup_insert_eq | done].
Qed.

Lemma range_step_no_error df acc chk c :
  acc !! c ≠ Some ConversionError →
  range_step df acc chk !! c ≠ Some ConversionError.
Proof.
  intros Hacc. unfold range_step. destruct (has_col _ _); [|done].
  destruct (range_check _ _ _) as [issue|] eqn:E; [|done].
  destruct (decide (chk.1 = c)) as [<-|Hne].
  - rewrite lookup_insert_eq. intros [= ->]. by apply range_check_no_error in E.
  - by rewrite lookup_insert_ne.
Qed.

Lemma range_issues_lookup df col min_val max_val :
  (col, (min_val, max_val)) ∈ numeric_checks → has_col col df = true →
  range_issues df !! col = range_check min_val max_val (at_col col <$> rows df).
Proof.
  intros Hin Hc. unfold range_issues, numeric_checks in *.
  change (foldl ?f) with (foldl (range_step df)). cbn [foldl].
  repeat (apply elem_of_cons in Hin as [[= -> -> ->]|Hin]);
    [ | | | | by apply elem_of_nil in Hin ].
  - rewrite !range_step_other by done. by apply range_step_same.
  - rewrite !range_step_other by done.
    apply (range_step_same df _ ("login_frequency", (_, _))); [done|].
    by rewrite range_step_other.
  - rewrite !range_step_other by done.
    apply (range_step_same df _ ("session_duration", (_, _))); [done|].
    by rewrite !range_step_other.
  - apply (range_step_same df _ ("risk_score", (_, _))); [done|].
    by rewrite !range_step_other.
Qed.

(** C5, amended. For each of the four numeric columns, the entry of the
    out-of-range report is the number of values whose numeric conversion is a
    number outside the bounds, and is absent when there is none; a value
    whose conversion fails is coerced to a missing entry, which is outside no
    bound, and no conversion error is ever recorded for it. *)
Theorem range_issues_counts df col min_val max_val :
  (col, (min_val, max_val)) ∈ numeric_checks → has_col col df = true →
  range_issues df !! col
  = match length (filter (outside min_val max_val) (at_col col <$> rows df)) with
    | 0 => None
    | S n => Some (OutOfRange (S n))
    end
  ∧ (∀ c, fails_conversion c → ¬ outside min_val max_val c)
  ∧ ∀ c, range_issues df !! c ≠ Some ConversionError.
Proof.
  intros Hin Hc. split; [|split].
  - rewrite (range_issues_lookup _ _ _ _ Hin Hc). apply range_check_count.
  - intros c (s & -> & Hs) (q & Hq & _). simpl in Hq. by rewrite Hs in Hq.
  - intros c. unfold range_issues.
    change (foldl ?f) with (foldl (range_step df)).
    generalize numeric_checks. intros l.
    assert (H0 : (∅ : gmap string range_issue) !! c ≠ Some ConversionError)
      by by rewrite lookup_empty.
    revert H0. generalize (∅ : gmap string range_issue).
    induction l as [|chk l IH]; intros acc Hacc; [done|].
    simpl. apply IH. by apply range_step_no_error.
Qed.

(** ** The consistency checks *)


Global Instance mismatch_dec r : Decision (mismatch r).
Proof.
  unfold mismatch.
  destruct (at_col "risk_score" r) as [s|q|].
  - right. ns.
  - destruct (decide ((Qc_of_Z 75 < q)%Qc ∧ at_col "anomaly" r = CStr "low_risk")).
    { left. ns. }
    destruct (decide ((q < Qc_of_Z 25)%Qc ∧ at_col "anomaly" r = CStr "high_risk")).
    { left. ns. }
    right. ns.
  - right. ns.
Defined.



(** ** The fatal path of the pipeline *)

(** C8. When the source file does not exist, and whenever anything raises
    while the file is loaded and processed, the pipeline returns no cleaned
    table and no report, and saving that result writes nothing; a cleaned
    table is returned only together with the reports of a run that raised
    nothing. *)
Theorem pipeline_fatal_path fs file_path :
  fs !! file_path = None ∨ (∃ e, pipeline_body fs file_path = Raise e) →
  run_enhanced_data_pipeline fs file_path = (None, None, None)
  ∧ save_df_clean (run_enhanced_data_pipeline fs file_path).1.1 fs = fs
  ∧ ∀ df t1 t2, run_enhanced_data_pipeline fs file_path ≠ (Some df, t1, t2).
Proof.
  intros H.
  assert (He : ∃ e, pipeline_body fs file_path = Raise e).
  { destruct H as [Hnone|He]; [|done]. exists FileNotFoundError.
    unfold pipeline_body, read_csv. by rewrite Hnone. }
  destruct He as [e He]. unfold run_enhanced_data_pipeline. rewrite He.
  by destruct e.
Qed.

Lemma pipeline_success fs file_path df t1 t2 :
  run_enhanced_data_pipeline fs file_path = (Some df, t1, t2) ↔
  pipeline_body fs file_path = Ok (df, t1, t2).
Proof.
  unfold run_enhanced_data_pipeline.
  destruct (pipeline_body fs file_path) as [[[d a] b]|e].
  - split; intros [= -> -> ->]; done.
  - split; [by destruct e | done].
Qed.

(** ** The store: what the caller's objects become *)

Lemma bind_run {A B} (m : M A) (f : A → M B) σ :
  (m ≫= f) σ = match m σ with
               | (Ok a, σ') => f a σ'
               | (Raise e, σ') => (Raise e, σ')
               end.
Proof. done. Qed.

Ltac next_statement H := cbv beta iota in H; rewrite bind_run in H.

Lemma df_get_private σ0 σ l t : private σ0 σ l t → df_get l σ = (Ok t, σ).
Proof. intros (Hl & _). unfold df_get. by rewrite Hl. Qed.

Lemma df_new_private σ0 σ t :
  (∀ l', l' ∈ dom σ0 → σ !! l' = σ0 !! l') →
  ∃ l σ', df_new t σ = (Ok l, σ') ∧ private σ0 σ' l t.
Proof.
  intros Hframe. eexists _, _. split; [done|].
  assert (Hsub : ∀ l', l' ∈ dom σ0 → l' ∈ dom σ).
  { intros l' Hl'. apply elem_of_dom. rewrite (Hframe _ Hl'). by apply elem_of_dom. }
  pose proof (is_fresh (dom σ)) as Hfresh.
  split; [by rewrite lookup_insert_eq|]. split; [ns|].
  intros l' Hl'. rewrite lookup_insert_ne; [by apply Hframe|].
  intros <-. by apply Hfresh, Hsub.
Qed.

Lemma df_rebind_if_private σ0 σ l t cond f :
  private σ0 σ l t →
  ∃ l' σ', df_rebind_if cond f l σ = (Ok l', σ')
           ∧ private σ0 σ' l' (if cond t then f t else t).
Proof.
  intros Hp. unfold df_rebind_if. rewrite bind_run, (df_get_private _ _ _ _ Hp).
  destruct (cond t); [|by eexists _, _].
  apply df_new_private. by destruct Hp as (_ & _ & ?).
Qed.

Lemma df_update_private σ0 σ l t stage :
  private σ0 σ l t →
  match stage t with
  | Ok t' => ∃ σ', df_update l stage σ = (Ok (), σ') ∧ private σ0 σ' l t'
  | Raise e => df_update l stage σ = (Raise e, σ)
  end.
Proof.
  intros Hp. unfold df_update. rewrite bind_run, (df_get_private _ _ _ _ Hp).
  destruct (stage t) as [t'|e]; [|done].
  eexists. split; [done|]. destruct Hp as (Hl & Hnin & Hframe).
  split; [by rewrite lookup_insert_eq|]. split; [done|].
  intros l' Hl'. rewrite lookup_insert_ne; [by apply Hframe|]. by intros <-.
Qed.

Lemma private_frame σ0 σ l t :
  private σ0 σ l t → ∀ l', l' ∈ dom σ0 → σ !! l' = σ0 !! l'.
Proof. by intros (_ & _ & H). Qed.

Lemma cleaned_frame_unfold t :
  cleaned_frame t
  = match address_checks t with
    | Ok _ =>
        match risk_stage (ip_stage (address_filter t)) with
        | Ok t3 =>
            match amount_stage t3 with
            | Ok t4 =>
                let t6 := region_lower (timestamp_stage t4) in
                if length (rows t) =? 0 then Raise ZeroDivisionError
                else Ok (drop_duplicates
                           (if region_rebinds t6 then region_filter t6 else t6))
            | Raise e => Raise e
            end
        | Raise e => Raise e
        end
    | Raise e => Raise e
    end.
Proof. unfold cleaned_frame, address_stage. by destruct (address_checks t). Qed.

Lemma df_check_private σ0 σ l t check :
  private σ0 σ l t →
  df_check l check σ
  = match check t with Ok _ => (Ok (), σ) | Raise e => (Raise e, σ) end.
Proof.
  intros Hp. unfold df_check. rewrite bind_run, (df_get_private _ _ _ _ Hp).
  by destruct (check t).
Qed.

(** Running the function on a store where [df] is bound to the table [t]:
    the objects of that store are left as they were, and the table returned,
    if any, is a new object holding [cleaned_frame t]. *)
Lemma enhanced_data_cleaning_run σ df t :
  σ !! df = Some t →
  ∃ σ', (∀ l, l ∈ dom σ → σ' !! l = σ !! l)
        ∧ match cleaned_frame t with
          | Ok t' => ∃ l', enhanced_data_cleaning df σ = (Ok l', σ')
                           ∧ (l' ∉ dom σ) ∧ σ' !! l' = Some t'
          | Raise e => enhanced_data_cleaning df σ = (Raise e, σ')
          end.
Proof.
  intros Hdf. rewrite cleaned_frame_unfold.
  remember (enhanced_data_cleaning df σ) as run eqn:Hrun.
  unfold enhanced_data_cleaning in Hrun.
  (* df_clean = df.copy() *)
  rewrite bind_run in Hrun. unfold df_copy in Hrun. rewrite bind_run in Hrun.
  unfold df_get at 1 in Hrun. rewrite Hdf in Hrun. cbv beta iota in Hrun.
  destruct (df_new_private σ σ t) as (l1 & σ1 & Hnew & Hp1); [done|].
  rewrite Hnew in Hrun. clear Hnew.
  next_statement Hrun. rewrite (df_get_private _ _ _ _ Hp1) in Hrun.
  (* stage 1 *)
  next_statement Hrun. rewrite (df_check_private _ _ _ _ address_checks Hp1) in Hrun.
  destruct (address_checks t) as [[]|e].
  2: { exists σ1. split; [by eapply private_frame|done]. }
  next_statement Hrun.
  destruct (df_rebind_if_private _ _ _ _ address_rebinds
              (boolean_index address_mask) Hp1) as (l2 & σ2 & Hs1 & Hp2).
  fold (address_filter t) in Hp2. rewrite Hs1 in Hrun. clear Hs1.
  (* stage 2 *)
  next_statement Hrun.
  pose proof (df_update_private _ _ _ _ (λ t, Ok (ip_stage t)) Hp2)
    as (σ3 & Hs2 & Hp3). cbv beta in Hp3. rewrite Hs2 in Hrun. clear Hs2.
  (* stage 3 *)
  next_statement Hrun.
  pose proof (df_update_private _ _ _ _ risk_stage Hp3) as Hrisk.
  destruct (risk_stage (ip_stage (address_filter t))) as [t3|e].
  2: { rewrite Hrisk in Hrun. exists σ3. split; [by eapply private_frame|done]. }
  destruct Hrisk as (σ4 & Hs3 & Hp4). rewrite Hs3 in Hrun. clear Hs3.
  (* stage 4 *)
  next_statement Hrun.
  pose proof (df_update_private _ _ _ _ amount_stage Hp4) as Hamount.
  destruct (amount_stage t3) as [t4|e].
  2: { rewrite Hamount in Hrun. exists σ4. split; [by eapply private_frame|done]. }
  destruct Hamount as (σ5 & Hs4 & Hp5). rewrite Hs4 in Hrun. clear Hs4.
  (* stages 5 and 6 *)
  next_statement Hrun.
  pose proof (df_update_private _ _ _ _ (λ t, Ok (timestamp_stage t)) Hp5)
    as (σ6 & Hs5 & Hp6). cbv beta in Hp6. rewrite Hs5 in Hrun. clear Hs5.
  next_statement Hrun.
  pose proof (df_update_private _ _ _ _ (λ t, Ok (region_lower t)) Hp6)
    as (σ7 & Hs6 & Hp7). cbv beta in Hp7. rewrite Hs6 in Hrun. clear Hs6.
  next_statement Hrun.
  destruct (df_rebind_if_private _ _ _ _ region_rebinds region_filter Hp7)
    as (l8 & σ8 & Hs7 & Hp8). rewrite Hs7 in Hrun. clear Hs7.
  (* stage 7 *)
  next_statement Hrun. rewrite (df_get_private _ _ _ _ Hp8) in Hrun.
  next_statement Hrun.
  destruct (df_new_private σ σ8
              (drop_duplicates
                 (if region_rebinds (region_lower (timestamp_stage t4))
                  then region_filter (region_lower (timestamp_stage t4))
                  else region_lower (timestamp_stage t4))))
    as (l9 & σ9 & Hs8 & Hp9); [by eapply private_frame|].
  rewrite Hs8 in Hrun. clear Hs8.
  next_statement Hrun. rewrite (df_get_private _ _ _ _ Hp9) in Hrun.
  cbv beta iota zeta in Hrun |- *.
  exists σ9. split; [by eapply private_frame|].
  destruct (length (rows t) =? 0); [done|].
  exists l9. split; [done|]. by destruct Hp9 as (? & ? & _).
Qed.

Lemma clean_cleaned_frame df : clean df = cleaned_frame df.
Proof.
  unfold clean.
  destruct (enhanced_data_cleaning_run {[0 := df]} 0 df) as (σ' & _ & H);
    [by rewrite lookup_singleton_eq|].
  destruct (cleaned_frame df) as [t'|e].
  - destruct H as (l' & -> & _ & ->). done.
  - by rewrite H.
Qed.

(** C10. The function never writes to the table it is given: whatever it
    returns or raises, the caller's table, and every other object there was,
    holds what it held before the call; the cleaned table is an object that
    did not exist before. *)
Theorem enhanced_data_cleaning_frame σ df t :
  σ !! df = Some t →
  ∃ r σ', enhanced_data_cleaning df σ = (r, σ')
    ∧ σ' !! df = Some t
    ∧ (∀ l, l ∈ dom σ → σ' !! l = σ !! l)
    ∧ match r with
      | Ok l' => (l' ∉ dom σ) ∧ l' ≠ df ∧ ∃ t', σ' !! l' = Some t' ∧ clean t = Ok t'
      | Raise e => clean t = Raise e
      end.
Proof.
  intros Hdf. destruct (enhanced_data_cleaning_run σ df t Hdf) as (σ' & Hframe & H).
  rewrite clean_cleaned_frame.
  assert (Hdom : df ∈ dom σ) by (by apply elem_of_dom).
  destruct (cleaned_frame t) as [t'|e].
  - destruct H as (l' & Hrun & Hnin & Hl'). exists (Ok l'), σ'.
    split; [done|]. split; [by rewrite Hframe|]. split; [done|].
    split; [done|]. split; [by intros ->|]. by exists t'.
  - exists (Raise e), σ'. split; [done|]. split; [by rewrite Hframe|]. done.
Qed.

(** ** What a stage leaves in a column *)

Lemma column_holds_at_col c P rs r :
  column_holds c P rs → r ∈ rs → P (at_col c r).
Proof. intros H Hr. destruct (H r Hr) as (v & Hv & HP). unfold at_col. by rewrite Hv. Qed.


Lemma column_holds_mono c (P Q : cell → Prop) rs :
  (∀ v, P v → Q v) → column_holds c P rs → column_holds c Q rs.
Proof. intros HPQ H r Hr. destruct (H r Hr) as (v & ? & ?). eauto. Qed.

Lemma column_holds_subseteq c P (rs rs' : list row) :
  rs' ⊆ rs → column_holds c P rs → column_holds c P rs'.
Proof. intros Hsub H r Hr. apply H, Hsub, Hr. Qed.

Lemma column_holds_filter c P (Q : row → Prop) `{!∀ r, Decision (Q r)} rs :
  column_holds c P rs → column_holds c P (filter Q rs).
Proof. apply column_holds_subseteq, list_subseteq_filter. Qed.

Lemma column_holds_assign c P f rs :
  (∀ r, r ∈ rs → P (f r)) → column_holds c P ((λ r, <[c := f r]> r) <$> rs).
Proof.
  intros Hf r' (r & -> & Hr)%list_elem_of_fmap. exists (f r).
  split; [by rewrite lookup_insert_eq | by apply Hf].
Qed.

Lemma column_holds_assign_ne c c' P f rs :
  c ≠ c' → column_holds c' P rs → column_holds c' P ((λ r, <[c := f r]> r) <$> rs).
Proof.
  intros Hne H r' (r & -> & Hr)%list_elem_of_fmap.
  rewrite lookup_insert_ne by done. by apply H.
Qed.

Lemma column_holds_loc_assign c P mask v rs :
  P v → column_holds c P rs → column_holds c P (loc_assign mask c v rs).
Proof.
  intros Hv H r' (r & -> & Hr)%list_elem_of_fmap. destruct (mask r); [|by apply H].
  exists v. by rewrite lookup_insert_eq.
Qed.

Lemma column_holds_loc_assign_ne c c' P mask v rs :
  c ≠ c' → column_holds c' P rs → column_holds c' P (loc_assign mask c v rs).
Proof.
  intros Hne H r' (r & -> & Hr)%list_elem_of_fmap. destruct (mask r); [|by apply H].
  rewrite lookup_insert_ne by done. by apply H.
Qed.

Lemma median_numeric cs : numeric_cell (median cs).
Proof. unfold median. by repeat case_match. Qed.

Lemma to_numeric_numeric c : numeric_cell (to_numeric c).
Proof. destruct c; simpl; by repeat case_match. Qed.

Lemma to_datetime_numeric c : numeric_cell (to_datetime c).
Proof. destruct c; simpl; by repeat case_match. Qed.

Lemma fill_region_holds c P rs item :
  P item.2 → column_holds c P rs → column_holds c P (fill_region c rs item).
Proof.
  intros. unfold fill_region. case_match; [|done]. by apply column_holds_loc_assign.
Qed.

Lemma fill_region_holds_ne c c' P rs item :
  c ≠ c' → column_holds c' P rs → column_holds c' P (fill_region c rs item).
Proof.
  intros. unfold fill_region. case_match; [|done]. by apply column_holds_loc_assign_ne.
Qed.

Lemma fill_regions_holds c P items rs :
  Forall (λ item, P item.2) items →
  column_holds c P rs → column_holds c P (foldl (fill_region c) rs items).
Proof.
  intros Hitems. revert rs. induction Hitems as [|item items Hi _ IH]; intros rs H; [done|].
  simpl. by apply IH, fill_region_holds.
Qed.

Lemma fill_regions_holds_ne c c' P items rs :
  c ≠ c' →
  column_holds c' P rs → column_holds c' P (foldl (fill_region c) rs items).
Proof.
  intros Hne. revert rs. induction items as [|item items IH]; intros rs H; [done|].
  simpl. by apply IH, fill_region_holds_ne.
Qed.

Lemma groupby_median_numeric c rs :
  Forall (λ item, numeric_cell item.2) (groupby_median c rs).
Proof.
  unfold groupby_median. apply Forall_fmap, Forall_forall. intros k _.
  apply median_numeric.
Qed.

Lemma impute_by_region_columns c df df' :
  impute_by_region c df = Ok df' → columns df' = columns df.
Proof.
  unfold impute_by_region. repeat case_match; by intros [= <-].
Qed.

Lemma impute_by_region_numeric c df df' :
  impute_by_region c df = Ok df' →
  column_holds c numeric_cell (rows df) → column_holds c numeric_cell (rows df').
Proof.
  unfold impute_by_region. intros Himp H.
  pose proof (fill_regions_holds c numeric_cell _ _
                (groupby_median_numeric c (rows df)) H) as H1.
  repeat case_match; try done; injection Himp as <-; [|done].
  apply column_holds_assign. intros r Hr. case_match; [apply median_numeric|].
  by eapply column_holds_at_col.
Qed.

Lemma at_col_holds c P rs r :
  column_holds c P rs → r ∈ rs → r !! c = Some (at_col c r).
Proof. intros H Hr. destruct (H r Hr) as (v & Hv & _). unfold at_col. by rewrite Hv. Qed.

Lemma impute_by_region_holds_ne c c' P df df' :
  c ≠ c' → impute_by_region c df = Ok df' →
  column_holds c' P (rows df) → column_holds c' P (rows df').
Proof.
  unfold impute_by_region. intros Hne Himp H.
  pose proof (fill_regions_holds_ne c c' P (groupby_median c (rows df)) _ Hne H) as H1.
  repeat case_match; try done; injection Himp as <-; [|done].
  by apply column_holds_assign_ne.
Qed.

Lemma risk_stage_columns df df' : risk_stage df = Ok df' → columns df' = columns df.
Proof.
  unfold risk_stage. repeat case_match; try by intros [= <-].
  by intros ->%impute_by_region_columns.
Qed.

Lemma amount_stage_columns df df' : amount_stage df = Ok df' → columns df' = columns df.
Proof.
  unfold amount_stage. repeat case_match; try by intros [= <-].
  by intros ->%impute_by_region_columns.
Qed.

Lemma risk_stage_numeric df df' :
  risk_stage df = Ok df' → has_col "risk_score" df = true →
  column_holds "risk_score" numeric_cell (rows df').
Proof.
  unfold risk_stage. intros Hs Hc. rewrite Hc in Hs.
  assert (H1 : column_holds "risk_score" numeric_cell
                 (rows (assign_col "risk_score"
                          (λ r, to_numeric (at_col "risk_score" r)) df))).
  { apply column_holds_assign. intros. apply to_numeric_numeric. }
  case_match; [by eapply impute_by_region_numeric | by injection Hs as <-].
Qed.

Lemma amount_stage_numeric df df' :
  amount_stage df = Ok df' → has_col "amount" df = true →
  column_holds "amount" numeric_cell (rows df').
Proof.
  unfold amount_stage. intros Hs Hc. rewrite Hc in Hs.
  assert (H1 : column_holds "amount" numeric_cell
                 (rows (assign_col "amount"
                          (λ r, to_numeric (at_col "amount" r)) df))).
  { apply column_holds_assign. intros. apply to_numeric_numeric. }
  case_match; [by eapply impute_by_region_numeric | by injection Hs as <-].
Qed.

Lemma risk_stage_holds_ne c P df df' :
  c ≠ "risk_score" → risk_stage df = Ok df' →
  column_holds c P (rows df) → column_holds c P (rows df').
Proof.
  unfold risk_stage. intros Hne Hs H.
  case_match; [|by injection Hs as <-].
  assert (H1 : column_holds c P
                 (rows (assign_col "risk_score"
                          (λ r, to_numeric (at_col "risk_score" r)) df)))
    by (by apply column_holds_assign_ne).
  case_match; [by eapply (impute_by_region_holds_ne "risk_score") | by injection Hs as <-].
Qed.

Lemma amount_stage_holds_ne c P df df' :
  c ≠ "amount" → amount_stage df = Ok df' →
  column_holds c P (rows df) → column_holds c P (rows df').
Proof.
  unfold amount_stage. intros Hne Hs H.
  case_match; [|by injection Hs as <-].
  assert (H1 : column_holds c P
                 (rows (assign_col "amount"
                          (λ r, to_numeric (at_col "amount" r)) df)))
    by (by apply column_holds_assign_ne).
  case_match; [by eapply (impute_by_region_holds_ne "amount") | by injection Hs as <-].
Qed.

Lemma address_filter_columns df : columns (address_filter df) = columns df.
Proof. unfold address_filter. by case_match. Qed.

Lemma address_filter_subseteq df : rows (address_filter df) ⊆ rows df.
Proof.
  unfold address_filter. case_match; [|done]. apply list_subseteq_filter.
Qed.

Lemma ip_stage_columns df : columns (ip_stage df) = columns df.
Proof. unfold ip_stage. by repeat case_match. Qed.

Lemma ip_stage_holds_ne c P df :
  c ≠ "ip_prefix" → column_holds c P (rows df) → column_holds c P (rows (ip_stage df)).
Proof.
  intros Hne H. destruct (has_col "ip_prefix" df) eqn:Hc.
  - rewrite (ip_stage_rows _ Hc). by apply column_holds_assign_ne.
  - unfold ip_stage. by rewrite Hc.
Qed.

Lemma timestamp_stage_columns df : columns (timestamp_stage df) = columns df.
Proof. unfold timestamp_stage. by case_match. Qed.

Lemma timestamp_stage_numeric df :
  has_col "timestamp" df = true →
  column_holds "timestamp" numeric_cell (rows (timestamp_stage df)).
Proof.
  unfold timestamp_stage. intros ->. apply column_holds_assign.
  intros. apply to_datetime_numeric.
Qed.

Lemma timestamp_stage_holds_ne c P df :
  c ≠ "timestamp" →
  column_holds c P (rows df) → column_holds c P (rows (timestamp_stage df)).
Proof.
  intros Hne H. unfold timestamp_stage. case_match; [|done].
  by apply column_holds_assign_ne.
Qed.

Lemma region_lower_columns df : columns (region_lower df) = columns df.
Proof. unfold region_lower. by case_match. Qed.

Lemma region_lower_holds_ne c P df :
  c ≠ "location_region" →
  column_holds c P (rows df) → column_holds c P (rows (region_lower df)).
Proof.
  intros Hne H. unfold region_lower. case_match; [|done].
  by apply column_holds_assign_ne.
Qed.

Lemma drop_seen_subseteq seen rs : drop_seen seen rs ⊆ rs.
Proof.
  revert seen. induction rs as [|r rs IH]; intros seen; [done|].
  simpl. case_bool_decide.
  - by apply list_subseteq_cons.
  - intros x [->|Hx]%elem_of_cons; [left|right; by eapply IH].
Qed.

(** The last two stages keep rows as they are. *)
Lemma final_stages_subseteq t6 :
  rows (drop_duplicates (if region_rebinds t6 then region_filter t6 else t6))
  ⊆ rows t6.
Proof.
  etrans; [apply drop_seen_subseteq|]. case_match; [|done].
  apply list_subseteq_filter.
Qed.

Lemma final_stages_columns t6 :
  columns (drop_duplicates (if region_rebinds t6 then region_filter t6 else t6))
  = columns t6.
Proof. by case_match. Qed.

Lemma cleaned_frame_inv df df' :
  cleaned_frame df = Ok df' →
  ∃ t3 t4,
    risk_stage (ip_stage (address_filter df)) = Ok t3
    ∧ amount_stage t3 = Ok t4
    ∧ df' = (let t6 := region_lower (timestamp_stage t4) in
             drop_duplicates (if region_rebinds t6 then region_filter t6 else t6))
    ∧ rows df ≠ [].
Proof.
  rewrite cleaned_frame_unfold. intros H.
  destruct (address_checks df) as [[]|]; [|done].
  destruct (risk_stage _) as [t3|] eqn:E3; [|done].
  destruct (amount_stage t3) as [t4|] eqn:E4; [|done].
  exists t3, t4. cbv zeta in H.
  destruct (rows df); simpl in H; [done|]. by injection H as <-.
Qed.

Lemma clean_columns df df' : clean df = Ok df' → columns df' = columns df.
Proof.
  rewrite clean_cleaned_frame.
  intros (t3 & t4 & H3 & H4 & -> & _)%cleaned_frame_inv. cbv zeta.
  rewrite final_stages_columns, region_lower_columns, timestamp_stage_columns.
  rewrite (amount_stage_columns _ _ H4), (risk_stage_columns _ _ H3).
  by rewrite ip_stage_columns, address_filter_columns.
Qed.

(** In a cleaned table the converted columns hold numbers and missing
    entries only. *)
Lemma clean_numeric df df' c :
  clean df = Ok df' → c ∈ ["risk_score"; "amount"; "timestamp"] →
  has_col c df' = true → column_holds c numeric_cell (rows df').
Proof.
  intros Hclean Hc Hcol. pose proof (clean_columns _ _ Hclean) as Hcols.
  unfold has_col in Hcol. rewrite Hcols in Hcol.
  rewrite clean_cleaned_frame in Hclean.
  apply cleaned_frame_inv in Hclean as (t3 & t4 & H3 & H4 & -> & _). cbv zeta.
  eapply column_holds_subseteq; [apply final_stages_subseteq|].
  pose proof (risk_stage_columns _ _ H3) as Hc3.
  pose proof (amount_stage_columns _ _ H4) as Hc4.
  rewrite ip_stage_columns, address_filter_columns in Hc3.
  repeat (apply elem_of_cons in Hc as [->|Hc]); [| | |by apply elem_of_nil in Hc].
  - apply region_lower_holds_ne; [done|]. apply timestamp_stage_holds_ne; [done|].
    eapply amount_stage_holds_ne; [done..|].
    eapply risk_stage_numeric; [done|].
    unfold has_col. by rewrite ip_stage_columns, address_filter_columns.
  - apply region_lower_holds_ne; [done|]. apply timestamp_stage_holds_ne; [done|].
    eapply amount_stage_numeric; [done|]. unfold has_col. by rewrite Hc3.
  - apply region_lower_holds_ne; [done|]. apply timestamp_stage_numeric.
    unfold has_col. by rewrite Hc4, Hc3.
Qed.


(** ** The top sale addresses *)

Global Instance key_le_total : Total key_le.
Proof.
  intros [x|] [y|]; simpl; auto. destruct (Qc_le_total x y); auto.
Qed.

Global Instance key_le_trans : Transitive key_le.
Proof.
  intros [x|] [y|] [z|]; simpl; try done. apply Qcle_trans.
Qed.

Global Instance ts_le_total : Total ts_le.
Proof. intros r1 r2. apply key_le_total. Qed.

Global Instance ts_le_trans : Transitive ts_le.
Proof. intros r1 r2 r3. apply key_le_trans. Qed.

Global Instance ts_le_refl : Reflexive ts_le.
Proof. intros r. by destruct (total ts_le r r). Qed.

Lemma sort_by_timestamp_sorted rs : StronglySorted ts_le (sort_by_timestamp rs).
Proof. apply StronglySorted_merge_sort; apply _. Qed.

Lemma sort_by_timestamp_perm rs : sort_by_timestamp rs ≡ₚ rs.
Proof. apply merge_sort_Permutation. Qed.

Lemma keep_last_by_subseteq c rs : keep_last_by c rs ⊆ rs.
Proof.
  induction rs as [|r rs IH]; [done|]. simpl. case_bool_decide.
  - by apply list_subseteq_cons.
  - intros x [->|Hx]%elem_of_cons; [left|right; by apply IH].
Qed.

Lemma keep_last_by_NoDup c rs : NoDup (at_col c <$> keep_last_by c rs).
Proof.
  induction rs as [|r rs IH]; [constructor|]. simpl. case_bool_decide as Hin; [done|].
  rewrite fmap_cons. constructor; [|done].
  intros (r' & Hk & Hr')%list_elem_of_fmap. apply Hin.
  apply list_elem_of_fmap. exists r'. split; [done|]. by apply keep_last_by_subseteq in Hr'.
Qed.

Lemma keep_last_by_last c (R : relation row) `{!Reflexive R} rs :
  StronglySorted R rs →
  ∀ r, r ∈ rs → ∃ r', r' ∈ keep_last_by c rs ∧ at_col c r' = at_col c r ∧ R r r'.
Proof.
  induction 1 as [|x rs Hsorted IH Hall]; intros r Hr; [by apply elem_of_nil in Hr|].
  assert (Hlater : ∀ y, y ∈ rs →
            ∃ r', r' ∈ keep_last_by c (x :: rs) ∧ at_col c r' = at_col c y ∧ R y r').
  { intros y Hy. destruct (IH y Hy) as (r' & Hr' & Hk & HR). exists r'.
    split; [|done]. simpl. case_bool_decide; [done | by right]. }
  apply elem_of_cons in Hr as [->|Hr]; [|by apply Hlater].
  simpl. case_bool_decide as Hin.
  - apply list_elem_of_fmap in Hin as (y & Hk & Hy).
    destruct (IH y Hy) as (r' & Hr' & Hk' & _). exists r'.
    split; [done|]. split; [congruence|].
    rewrite Forall_forall in Hall. by apply Hall, (keep_last_by_subseteq c).
  - exists x. split; [left | done].
Qed.

Global Instance amount_le_total : Total amount_le.
Proof.
  intros r1 r2. unfold amount_le. repeat case_match; auto.
  match goal with |- (?x ≤ ?y)%Qc ∨ _ => destruct (Qc_le_total x y); auto end.
Qed.

Global Instance amount_le_trans : Transitive amount_le.
Proof.
  intros r1 r2 r3. unfold amount_le. repeat case_match; try done. apply Qcle_trans.
Qed.

Lemma amount_le_same_key r1 r2 :
  num_key (at_col "amount" r1) = num_key (at_col "amount" r2) → amount_le r1 r2.
Proof.
  unfold amount_le. intros ->. case_match; [|done]. apply Qcle_refl.
Qed.

Lemma insert_desc_perm x l : insert_desc x l ≡ₚ x :: l.
Proof.
  induction l as [|y l IH]; [done|]. simpl. case_bool_decide; [done|].
  rewrite IH. apply Permutation_swap.
Qed.

Lemma sort_desc_perm l : sort_desc l ≡ₚ l.
Proof.
  induction l as [|x l IH]; [done|]. simpl.
  by rewrite insert_desc_perm, IH.
Qed.

Lemma insert_desc_sorted x l :
  StronglySorted (flip amount_le) l → StronglySorted (flip amount_le) (insert_desc x l).
Proof.
  induction 1 as [|y l Hsorted IH Hall]; simpl; [by repeat constructor|].
  case_bool_decide as Hle.
  - constructor; [by constructor|]. constructor; [done|].
    eapply Forall_impl; [done|]. intros z Hz. simpl in *. by etrans.
  - constructor; [done|]. rewrite insert_desc_perm. constructor; [|done].
    simpl. by destruct (total amount_le y x).
Qed.

Lemma sort_desc_sorted l : StronglySorted (flip amount_le) (sort_desc l).
Proof.
  induction l as [|x l IH]; [constructor|]. simpl. by apply insert_desc_sorted.
Qed.

Lemma insert_desc_stable (k : option Qc) x l :
  filter (λ r, num_key (at_col "amount" r) = k) (insert_desc x l)
  = filter (λ r, num_key (at_col "amount" r) = k) (x :: l).
Proof.
  induction l as [|y l IH]; [done|]. simpl. case_bool_decide as Hle; [done|].
  rewrite (filter_cons _ y), IH, !filter_cons.
  destruct (decide (num_key (at_col "amount" y) = k)) as [Hy|Hy],
           (decide (num_key (at_col "amount" x) = k)) as [Hx|Hx]; try done.
  destruct Hle. apply amount_le_same_key. congruence.
Qed.

Lemma sort_desc_stable (k : option Qc) l :
  filter (λ r, num_key (at_col "amount" r) = k) (sort_desc l)
  = filter (λ r, num_key (at_col "amount" r) = k) l.
Proof.
  induction l as [|x l IH]; [done|]. simpl.
  by rewrite insert_desc_stable, !filter_cons, IH.
Qed.

Lemma is_sale_true r : is_sale r = true ↔ at_col "transaction_type" r = CStr "sale".
Proof.
  unfold is_sale, cell_eqb.
  destruct (at_col "transaction_type" r); rewrite ?bool_decide_eq_true; ns.
Qed.

Lemma tabela2_rows df :
  forallb (λ c, has_col c df)
    ["transaction_type"; "receiving_address"; "amount"; "timestamp"] = true →
  tabela2 df
  = Some (mkDataFrame report_columns
            (select_columns report_columns
             <$> (if 3 <=? length (latest_sales df)
                  then take 3 (sort_desc (latest_sales df))
                  else latest_sales df))).
Proof.
  intros Hcols. unfold tabela2. rewrite Hcols.
  destruct (0 <? _) eqn:Hlen; [by case_match|].
  apply Nat.ltb_ge in Hlen. unfold latest_sales.
  destruct (filter _ (rows df)); [done | simpl in Hlen; lia].
Qed.

(** [drop_duplicates(subset=c, keep='last')] in closed form: a row stays
    when no row after it has its value of [c]. *)
Lemma keep_last_by_closed c rs :
  keep_last_by c rs
  = omap id (imap (λ i r, if bool_decide (at_col c r ∈ (at_col c <$> drop (S i) rs))
                          then None else Some r) rs).
Proof.
  induction rs as [|r rs IH]; [done|].
  cbn [keep_last_by imap omap drop]. rewrite drop_0.
  case_bool_decide; simpl; by rewrite IH.
Qed.

Lemma amount_le_antisym r1 r2 :
  amount_le r1 r2 → amount_le r2 r1 →
  num_key (at_col "amount" r1) = num_key (at_col "amount" r2).
Proof.
  unfold amount_le.
  destruct (num_key (at_col "amount" r1)), (num_key (at_col "amount" r2));
    try done.
  intros H1 H2. f_equal. by apply Qcle_antisym.
Qed.

(** A ranking by descending amount that keeps the rows of equal amount in
    the order they had is the only one. *)
Lemma ranking_unique l1 l2 :
  StronglySorted (flip amount_le) l1 → StronglySorted (flip amount_le) l2 →
  (∀ k, filter (λ r, num_key (at_col "amount" r) = k) l1
        = filter (λ r, num_key (at_col "amount" r) = k) l2) →
  l1 = l2.
Proof.
  intros Hs1. revert l2.
  induction Hs1 as [|x l1 Hs1 IH Hall1]; intros l2 Hs2 Hk.
  - destruct l2 as [|y l2]; [done|].
    specialize (Hk (num_key (at_col "amount" y))).
    by rewrite filter_nil, filter_cons_True in Hk.
  - destruct Hs2 as [|y l2 Hs2 Hall2].
    { specialize (Hk (num_key (at_col "amount" x))).
      by rewrite filter_nil, filter_cons_True in Hk. }
    assert (Hkey : num_key (at_col "amount" x) = num_key (at_col "amount" y)).
    { destruct (decide (num_key (at_col "amount" x) = num_key (at_col "amount" y)))
        as [|Hne]; [done|].
      apply amount_le_antisym.
      - assert (Hx : x ∈ l2).
        { pose proof (Hk (num_key (at_col "amount" x))) as H.
          rewrite (filter_cons_True _ x), (filter_cons_False _ y) in H by done.
          assert (Hin : x ∈ filter (λ r, num_key (at_col "amount" r)
                                         = num_key (at_col "amount" x)) l2)
            by (rewrite <- H; left).
          apply list_elem_of_filter in Hin. by destruct Hin. }
        rewrite Forall_forall in Hall2. apply (Hall2 _ Hx).
      - assert (Hy : y ∈ l1).
        { pose proof (Hk (num_key (at_col "amount" y))) as H.
          rewrite (filter_cons_False _ x), (filter_cons_True _ y) in H by done.
          assert (Hin : y ∈ filter (λ r, num_key (at_col "amount" r)
                                         = num_key (at_col "amount" y)) l1)
            by (rewrite H; left).
          apply list_elem_of_filter in Hin. by destruct Hin. }
        rewrite Forall_forall in Hall1. apply (Hall1 _ Hy). }
    assert (x = y) as <-.
    { pose proof (Hk (num_key (at_col "amount" x))) as H.
      rewrite (filter_cons_True _ x), (filter_cons_True _ y) in H by done.
      by injection H. }
    f_equal. apply IH; [done|]. intros k. specialize (Hk k).
    rewrite !filter_cons in Hk. case_decide; [by injection Hk | done].
Qed.

(** An arrangement in ascending order is the only one when no two of the
    rows are each before the other. *)
Lemma sorted_unique (R : relation row) l1 l2 :
  StronglySorted R l1 → StronglySorted R l2 → l1 ≡ₚ l2 →
  (∀ x y, x ∈ l1 → y ∈ l1 → R x y → R y x → x = y) →
  l1 = l2.
Proof.
  intros Hs1. revert l2.
  induction Hs1 as [|x l1 Hs1 IH Hall1]; intros l2 Hs2 Hperm Hanti.
  - by apply Permutation_nil_l in Hperm.
  - destruct Hs2 as [|y l2 Hs2 Hall2]; [by apply Permutation_nil_r in Hperm|].
    rewrite Forall_forall in Hall1. rewrite Forall_forall in Hall2.
    assert (x = y) as <-.
    { destruct (decide (x = y)) as [|Hne]; [done|].
      assert (Hx : x ∈ l2).
      { assert (H : x ∈ y :: l2) by (rewrite <- Hperm; left).
        apply elem_of_cons in H as [?|?]; done. }
      assert (Hy : y ∈ l1).
      { assert (H : y ∈ x :: l1) by (rewrite Hperm; left).
        apply elem_of_cons in H as [?|?]; done. }
      apply Hanti; [left | by right | by apply Hall1 | by apply Hall2]. }
    f_equal. apply IH; [done | by eapply Permutation_cons_inv|].
    intros a b Ha Hb. apply Hanti; by right.
Qed.

(** C9, amended. On a cleaned table with the four columns, the report is
    made of the sale rows, put in ascending order of timestamp, a row
    without a timestamp coming after every row that has one: an order that
    is the only one when no two sale rows have the same timestamp, or both
    none.  For each receiving address only the last of its rows in that
    order takes part, and the rows that take part stay in that order; when
    three addresses or more take part the report is the first three of their
    rows ranked by descending amount, rows of equal amount in the order they
    had, rows without an amount last, and that ranking is the only one; with
    fewer than three it is all of them. *)
Theorem tabela2_top_sales df0 df :
  clean df0 = Ok df →
  forallb (λ c, has_col c df)
    ["transaction_type"; "receiving_address"; "amount"; "timestamp"] = true →
  let sales := filter (λ r, at_col "transaction_type" r = CStr "sale") (rows df) in
  ∃ sorted latest ranked,
    tabela2 df
    = Some (mkDataFrame report_columns
              (select_columns report_columns
               <$> (if 3 <=? length latest then take 3 ranked else latest)))
    ∧ sorted ≡ₚ sales
    ∧ StronglySorted ts_le sorted
    ∧ ((∀ r1 r2, r1 ∈ sales → r2 ∈ sales → ts_le r1 r2 → ts_le r2 r1 → r1 = r2) →
       ∀ sorted', sorted' ≡ₚ sales → StronglySorted ts_le sorted' →
                  sorted' = sorted)
    ∧ latest
      = omap id
          (imap (λ i r,
                   if bool_decide
                        (at_col "receiving_address" r
                         ∈ (at_col "receiving_address" <$> drop (S i) sorted))
                   then None else Some r) sorted)
    ∧ (∀ ranked',
         StronglySorted (flip amount_le) ranked' →
         (∀ k, filter (λ r, num_key (at_col "amount" r) = k) ranked'
               = filter (λ r, num_key (at_col "amount" r) = k) latest) →
         ranked' = ranked)
    ∧ (sales = [] → latest = [])
    ∧ latest ⊆ sales
    ∧ NoDup (at_col "receiving_address" <$> latest)
    ∧ (∀ r, r ∈ sales →
         numeric_cell (at_col "timestamp" r) ∧ numeric_cell (at_col "amount" r)
         ∧ ∃ r', r' ∈ latest
                 ∧ at_col "receiving_address" r' = at_col "receiving_address" r
                 ∧ ts_le r r')
    ∧ ranked ≡ₚ latest
    ∧ StronglySorted (flip amount_le) ranked
    ∧ ∀ k, filter (λ r, num_key (at_col "amount" r) = k) ranked
           = filter (λ r, num_key (at_col "amount" r) = k) latest.
Proof.
  intros Hclean Hcols sales.
  assert (Hsales : sales = filter (λ r, is_sale r = true) (rows df)).
  { apply list_filter_iff. intros r. by rewrite is_sale_true. }
  exists (sort_by_timestamp sales), (latest_sales df), (sort_desc (latest_sales df)).
  split; [by apply tabela2_rows|].
  split; [apply sort_by_timestamp_perm|].
  split; [apply sort_by_timestamp_sorted|].
  split.
  { intros Hanti sorted' Hperm Hsorted.
    apply sorted_unique with (R := ts_le);
      [done | apply sort_by_timestamp_sorted | by rewrite sort_by_timestamp_perm|].
    intros x y Hx Hy. apply Hanti; by rewrite <- Hperm. }
  split; [unfold latest_sales; rewrite <- Hsales; apply keep_last_by_closed|].
  split.
  { intros ranked' Hsorted Hk. apply ranking_unique; [done|apply sort_desc_sorted|].
    intros k. by rewrite Hk, sort_desc_stable. }
  assert (Hsub : latest_sales df ⊆ sales).
  { rewrite Hsales. unfold latest_sales. etrans; [apply keep_last_by_subseteq|].
    intros r Hr. by rewrite <- (sort_by_timestamp_perm _). }
  split. { intros Hnil. rewrite Hnil in Hsub. destruct (latest_sales df) as [|r l]; [done|].
           assert (Hr : r ∈ ([] : list row)) by (apply Hsub; left).
           by apply elem_of_nil in Hr. }
  split; [done|]. split; [apply keep_last_by_NoDup|].
  split; [|split; [apply sort_desc_perm | split; [apply sort_desc_sorted|]]].
  - intros r Hr.
    assert (Hrows : r ∈ rows df).
    { unfold sales in Hr. apply list_elem_of_filter in Hr. ns. }
    apply andb_prop in Hcols as [_ Hcols]. apply andb_prop in Hcols as [_ Hcols].
    apply andb_prop in Hcols as [Hamount Hcols]. apply andb_prop in Hcols as [Hts _].
    split; [eapply column_holds_at_col; [|done]; eapply clean_numeric; [done| |done]; ss|].
    split; [eapply column_holds_at_col; [|done]; eapply clean_numeric; [done| |done]; ss|].
    unfold latest_sales. apply keep_last_by_last; [apply _ | apply sort_by_timestamp_sorted |].
    rewrite sort_by_timestamp_perm. by rewrite <- Hsales.
  - intros k. apply sort_desc_stable.
Qed.

(** ** The two passes of the imputation *)

Lemma insert_at_col_id c (r : row) :
  isna (at_col c r) = false → <[c := at_col c r]> r = r.
Proof.
  unfold at_col. intros H. apply insert_id. by destruct (r !! c) as [v|].
Qed.

Lemma insert_nan_id c (r : row) :
  r !! c = Some CNaN → <[c := CNaN]> r = r.
Proof. apply insert_id. Qed.

Lemma cell_eqb_true a b : cell_eqb a b = true ↔ a = b ∧ isna a = false.
Proof.
  unfold cell_eqb. destruct a, b; simpl; rewrite ?bool_decide_eq_true; ns.
Qed.

Lemma fill_region_rows c rs item : fill_region c rs item = fill_row c item <$> rs.
Proof.
  unfold fill_region. destruct (0 <? _) eqn:Hcount; [done|].
  apply Nat.ltb_ge in Hcount.
  rewrite <- (list_fmap_id rs) at 1. apply list_fmap_ext. intros i r Hr.
  unfold fill_row.
  rewrite (mask_sum_0 (λ r, cell_eqb (at_col "location_region" r) item.1
                           && isna (at_col c r)) rs); [done|lia|].
  by apply list_elem_of_lookup_2 in Hr.
Qed.

Lemma fill_regions_rows c items rs :
  foldl (fill_region c) rs items
  = (λ r, foldl (λ r item, fill_row c item r) r items) <$> rs.
Proof.
  revert rs. induction items as [|item items IH]; intros rs; simpl.
  - by rewrite list_fmap_id.
  - rewrite IH, fill_region_rows, <- list_fmap_compose. done.
Qed.

Lemma fill_row_other c item r :
  at_col "location_region" r ≠ item.1 → fill_row c item r = r.
Proof.
  intros Hne. unfold fill_row.
  destruct (cell_eqb _ _) eqn:E; [|done]. apply cell_eqb_true in E. ns.
Qed.

Lemma fill_rows_other c (g : cell → cell) keys r :
  at_col "location_region" r ∉ keys →
  foldl (λ r item, fill_row c item r) r ((λ k, (k, g k)) <$> keys) = r.
Proof.
  induction keys as [|k keys IH]; intros Hnin; [done|].
  simpl. rewrite fill_row_other; [apply IH|]; simpl.
  - intros Hin. apply Hnin. by right.
  - intros Heq. apply Hnin. rewrite Heq. left.
Qed.

Lemma fill_rows_present c (r : row) items :
  isna (at_col c r) = false →
  foldl (λ r item, fill_row c item r) r items = r.
Proof.
  intros Hr. induction items as [|item items IH]; [done|]. simpl.
  unfold fill_row at 2. by rewrite Hr, andb_false_r.
Qed.

Lemma fill_rows_key c (g : cell → cell) keys (r : row) :
  c ≠ "location_region" → NoDup keys →
  isna (at_col c r) = true → isna (at_col "location_region" r) = false →
  at_col "location_region" r ∈ keys →
  foldl (λ r item, fill_row c item r) r ((λ k, (k, g k)) <$> keys)
  = <[c := g (at_col "location_region" r)]> r.
Proof.
  intros Hc Hnodup Hna Hregion.
  induction Hnodup as [|k keys Hnin Hnodup IH]; intros Hin;
    [by apply elem_of_nil in Hin|].
  simpl. destruct (decide (at_col "location_region" r = k)) as [Heq|Hne].
  - unfold fill_row at 2. simpl.
    assert (E : cell_eqb (at_col "location_region" r) k = true)
      by (by apply cell_eqb_true).
    rewrite E, Hna. simpl. rewrite Heq.
    apply fill_rows_other. by rewrite at_col_insert_ne, Heq.
  - rewrite fill_row_other by done. apply IH.
    apply elem_of_cons in Hin as [?|?]; done.
Qed.

Lemma region_keys_NoDup rs : NoDup (region_keys rs).
Proof. apply NoDup_remove_dups. Qed.

Lemma elem_of_region_keys rs k :
  k ∈ region_keys rs ↔ isna k = false ∧ ∃ r, r ∈ rs ∧ at_col "location_region" r = k.
Proof.
  unfold region_keys.
  rewrite elem_of_remove_dups, list_elem_of_filter, list_elem_of_fmap. ns.
Qed.

Lemma first_pass_rows c rs :
  c ≠ "location_region" →
  foldl (fill_region c) rs (groupby_median c rs) = first_pass c rs <$> rs.
Proof.
  intros Hc. rewrite fill_regions_rows. apply list_fmap_ext. intros i r Hr.
  apply list_elem_of_lookup_2 in Hr. unfold groupby_median, first_pass.
  destruct (isna (at_col c r)) eqn:Hna; simpl; [|by apply fill_rows_present].
  destruct (isna (at_col "location_region" r)) eqn:Hregion; simpl.
  - apply fill_rows_other. rewrite elem_of_region_keys. intros [? _]. congruence.
  - rewrite (fill_rows_key c (region_median c rs)); try done.
    + apply region_keys_NoDup.
    + apply elem_of_region_keys. ns.
Qed.

Lemma second_pass_no_missing c rs0 rs :
  mask_sum (λ r, isna (at_col c r)) rs = 0 → second_pass c rs0 <$> rs = rs.
Proof.
  intros H0. rewrite <- (list_fmap_id rs) at 2. apply list_fmap_ext.
  intros i r Hr. unfold second_pass.
  by rewrite (mask_sum_0 _ _ H0 r) by (by eapply list_elem_of_lookup_2).
Qed.

(** What [impute_by_region] computes: the two passes. *)
Lemma impute_by_region_rows c df :
  c ≠ "location_region" → has_col "location_region" df = true →
  impute_by_region c df = Ok (mkDataFrame (columns df) (two_passes c (rows df))).
Proof.
  intros Hc Hregion. unfold impute_by_region, two_passes. rewrite Hregion.
  cbn [rows columns]. rewrite (first_pass_rows c _ Hc).
  destruct (0 <? _) eqn:Hcount.
  - f_equal. unfold fillna, assign_col. cbn [rows columns]. f_equal.
    apply list_fmap_ext. intros i r _. unfold second_pass.
    destruct (isna (at_col c r)) eqn:E; [done|]. by apply insert_at_col_id.
  - apply Nat.ltb_ge in Hcount. rewrite second_pass_no_missing; [done|lia].
Qed.

(** When stage 3 runs its imputation, that is when some risk_score is one of
    the five sentinel strings, the column is converted and the two passes are
    applied to it. *)
Lemma risk_stage_imputes df :
  has_col "risk_score" df = true →
  (∃ r, r ∈ rows df ∧ isin risk_missing_values (at_col "risk_score" r) = true) →
  risk_stage df
  = if has_col "location_region" df
    then Ok (mkDataFrame (columns df)
               (two_passes "risk_score"
                  ((λ r, <["risk_score" := to_numeric (at_col "risk_score" r)]> r)
                   <$> rows df)))
    else Raise (KeyError "location_region").
Proof.
  intros Hc Hgate. unfold risk_stage. rewrite Hc.
  apply mask_sum_pos in Hgate. rewrite Hgate.
  destruct (has_col "location_region" df) eqn:Hregion.
  - by rewrite impute_by_region_rows.
  - unfold impute_by_region, has_col, assign_col in *. cbn [columns]. by rewrite Hregion.
Qed.

(** Stage 4 runs its imputation when some amount is missing after the
    conversion. *)
Lemma amount_stage_imputes df :
  has_col "amount" df = true →
  (∃ r, r ∈ rows df ∧ to_numeric (at_col "amount" r) = CNaN) →
  amount_stage df
  = if has_col "location_region" df
    then Ok (mkDataFrame (columns df)
               (two_passes "amount"
                  ((λ r, <["amount" := to_numeric (at_col "amount" r)]> r)
                   <$> rows df)))
    else Raise (KeyError "location_region").
Proof.
  intros Hc (r & Hr & Hnan). unfold amount_stage. rewrite Hc.
  assert (Hgate : (0 <? mask_sum (λ r, isna (at_col "amount" r))
                        (rows (assign_col "amount"
                                 (λ r, to_numeric (at_col "amount" r)) df))) = true).
  { apply mask_sum_pos. exists (<["amount" := to_numeric (at_col "amount" r)]> r).
    split; [by apply (list_elem_of_fmap_2
                        (λ r, <["amount" := to_numeric (at_col "amount" r)]> r))|].
    by rewrite at_col_insert, Hnan. }
  rewrite Hgate.
  destruct (has_col "location_region" df) eqn:Hregion.
  - by rewrite impute_by_region_rows.
  - unfold impute_by_region, has_col, assign_col in *. cbn [columns]. by rewrite Hregion.
Qed.

(** The two stages agree on a table where stage 3's gate is open, or where
    nothing is missing after the conversion, provided no sentinel string
    reads as a number. *)
Lemma amount_stage_agrees df :
  (∀ s, s ∈ risk_missing_values → str_to_num s = None) →
  (∃ r, r ∈ rows df ∧ isin risk_missing_values (at_col "amount" r) = true)
  ∨ (∀ r, r ∈ rows df → to_numeric (at_col "amount" r) ≠ CNaN) →
  amount_stage df = risk_procedure_on "amount" df.
Proof.
  intros Hsentinel Hgate. unfold amount_stage, risk_procedure_on.
  destruct (has_col "amount" df); [|done].
  destruct Hgate as [(r & Hr & Hin)|Hnone].
  - assert (H1 : (0 <? mask_sum (λ r, isin risk_missing_values (at_col "amount" r))
                         (rows df)) = true) by (apply mask_sum_pos; eauto).
    rewrite H1.
    assert (H2 : (0 <? mask_sum (λ r, isna (at_col "amount" r))
                         (rows (assign_col "amount"
                                  (λ r, to_numeric (at_col "amount" r)) df))) = true).
    { apply mask_sum_pos. exists (<["amount" := to_numeric (at_col "amount" r)]> r).
      split; [by apply (list_elem_of_fmap_2
                        (λ r, <["amount" := to_numeric (at_col "amount" r)]> r))|].
      rewrite at_col_insert. destruct (at_col "amount" r) as [s| |]; try done.
      simpl in Hin. apply bool_decide_eq_true in Hin. simpl.
      by rewrite (Hsentinel s Hin). }
    by rewrite H2.
  - assert (H2 : (0 <? mask_sum (λ r, isna (at_col "amount" r))
                         (rows (assign_col "amount"
                                  (λ r, to_numeric (at_col "amount" r)) df))) = false).
    { apply not_true_is_false. intros (r' & Hr' & Hna)%mask_sum_pos.
      apply list_elem_of_fmap in Hr' as (r & -> & Hr).
      rewrite at_col_insert in Hna. specialize (Hnone r Hr).
      by destruct (to_numeric (at_col "amount" r)). }
    rewrite H2.
    assert (H1 : (0 <? mask_sum (λ r, isin risk_missing_values (at_col "amount" r))
                         (rows df)) = false).
    { apply not_true_is_false. intros (r & Hr & Hin)%mask_sum_pos.
      apply (Hnone r Hr). destruct (at_col "amount" r) as [s| |]; try done.
      simpl in Hin. apply bool_decide_eq_true in Hin. simpl.
      by rewrite (Hsentinel s Hin). }
    by rewrite H1.
Qed.

(** ** A cleaned table is left as it is by every stage *)

Lemma DataFrame_eq (a b : DataFrame) :
  columns a = columns b → rows a = rows b → a = b.
Proof. destruct a, b; simpl; by intros -> ->. Qed.

Lemma list_fmap_fixed {A} (f : A → A) (l : list A) :
  (∀ x, x ∈ l → f x = x) → f <$> l = l.
Proof.
  intros H. induction l as [|x l IH]; [done|]. rewrite fmap_cons, H by left.
  f_equal. apply IH. intros y Hy. apply H. by right.
Qed.

Lemma mask_sum_none (mask : row → bool) rs :
  (∀ r, r ∈ rs → mask r = false) → (0 <? mask_sum mask rs) = false.
Proof.
  intros H. apply not_true_is_false. intros (r & Hr & Hm)%mask_sum_pos.
  rewrite (H r Hr) in Hm. done.
Qed.

Lemma assign_col_id c f df :
  (∀ r, r ∈ rows df → r !! c = Some (f r)) → assign_col c f df = df.
Proof.
  intros H. apply DataFrame_eq; [done|]. simpl.
  rewrite <- (list_fmap_id (rows df)) at 2. apply list_fmap_ext.
  intros i r Hr. apply insert_id, H. by eapply list_elem_of_lookup_2.
Qed.

Lemma boolean_index_id mask df :
  (∀ r, r ∈ rows df → mask r = true) → boolean_index mask df = df.
Proof. intros H. apply DataFrame_eq; [done|]. simpl. by apply filter_all. Qed.

(** Stage 1 *)

Lemma address_filter_id df :
  (address_present df = true →
   column_holds "sending_address" address_ok (rows df)
   ∧ column_holds "receiving_address" address_ok (rows df)) →
  address_filter df = df.
Proof.
  intros H. unfold address_filter, address_rebinds.
  destruct (address_present df); [|done]. destruct H as [Hs Hr]; [done|].
  simpl. rewrite mask_sum_none; [done|]. intros r Hin.
  pose proof (column_holds_at_col _ _ _ _ Hs Hin) as H1.
  pose proof (column_holds_at_col _ _ _ _ Hr Hin) as H2.
  unfold address_ok in *. apply andb_prop in H1 as [Ha Hb], H2 as [Hc Hd].
  unfold address_mask. by rewrite Ha, Hb, Hc, Hd.
Qed.

Lemma address_filter_holds df c :
  address_present df = true → c ∈ ["sending_address"; "receiving_address"] →
  column_holds c address_ok (rows (address_filter df)).
Proof.
  intros Hp Hc r Hr.
  assert (Hmask : address_mask r = true).
  { unfold address_filter, address_rebinds in Hr. rewrite Hp in Hr. simpl in Hr.
    destruct (0 <? _) eqn:Hcount.
    - simpl in Hr. apply list_elem_of_filter in Hr. by destruct Hr.
    - apply Nat.ltb_ge in Hcount.
      assert (Hneg : negb (address_mask r) = false)
        by (apply (mask_sum_0 (λ r, negb (address_mask r)) (rows df)); [lia|done]).
      by destruct (address_mask r). }
  unfold address_mask in Hmask.
  apply andb_prop in Hmask as [Hmask H4]. apply andb_prop in Hmask as [Hmask H3].
  apply andb_prop in Hmask as [H1 H2].
  assert (Hcell : address_ok (at_col c r)).
  { unfold address_ok.
    repeat (apply elem_of_cons in Hc as [->|Hc]); [| |by apply elem_of_nil in Hc];
      by apply andb_true_intro. }
  exists (at_col c r). split; [|done].
  unfold address_ok, at_col in Hcell |- *. destruct (r !! c) as [v|]; done.
Qed.

(** Stage 2 *)

Lemma ip_rewritten_clean c : ip_clean (ip_rewritten c).
Proof.
  unfold ip_rewritten, ip_clean. case_bool_decide; [|eauto].
  eexists. split; [done|]. compute_done.
Qed.

Lemma ip_stage_holds df :
  has_col "ip_prefix" df = true →
  column_holds "ip_prefix" ip_clean (rows (ip_stage df)).
Proof.
  intros Hc. rewrite (ip_stage_rows _ Hc). apply column_holds_assign.
  intros. apply ip_rewritten_clean.
Qed.

Lemma ip_stage_id df :
  (has_col "ip_prefix" df = true → column_holds "ip_prefix" ip_clean (rows df)) →
  ip_stage df = df.
Proof.
  intros H. destruct (has_col "ip_prefix" df) eqn:Hc;
    [|by unfold ip_stage; rewrite Hc].
  apply DataFrame_eq; [apply ip_stage_columns|]. rewrite (ip_stage_rows _ Hc).
  rewrite <- (list_fmap_id (rows df)) at 2. apply list_fmap_ext. intros i r Hr.
  apply list_elem_of_lookup_2 in Hr. destruct (H eq_refl r Hr) as (v & Hv & s & -> & Hs).
  cbv beta. apply insert_id. unfold ip_rewritten, at_col. rewrite Hv. simpl.
  by rewrite bool_decide_eq_false_2.
Qed.

(** Stage 3 *)

Lemma to_numeric_id v : numeric_cell v → to_numeric v = v.
Proof. by destruct v. Qed.

Lemma isin_numeric values v : numeric_cell v → isin values v = false.
Proof. by destruct v. Qed.

Lemma to_numeric_column_id c df :
  column_holds c numeric_cell (rows df) →
  assign_col c (λ r, to_numeric (at_col c r)) df = df.
Proof.
  intros H. apply assign_col_id. intros r Hr.
  destruct (H r Hr) as (v & Hv & Hnum). unfold at_col. rewrite Hv. simpl.
  by rewrite to_numeric_id.
Qed.

Lemma risk_stage_id df :
  (has_col "risk_score" df = true →
   column_holds "risk_score" numeric_cell (rows df)) →
  risk_stage df = Ok df.
Proof.
  intros H. unfold risk_stage. destruct (has_col "risk_score" df); [|done].
  specialize (H eq_refl). rewrite to_numeric_column_id by done.
  rewrite mask_sum_none; [done|]. intros r Hr. apply isin_numeric.
  by eapply column_holds_at_col.
Qed.

(** Stage 4 *)

Lemma numbers_of_nil cs : (∀ v, v ∈ cs → ¬ is_num v) → numbers_of cs = [].
Proof.
  unfold numbers_of. induction cs as [|v cs IH]; intros H; [done|].
  simpl. destruct v as [s|q|]; simpl.
  - apply IH. intros v Hv. apply H. by right.
  - destruct (H (CNum q)); [left | by exists q].
  - apply IH. intros v Hv. apply H. by right.
Qed.

Lemma median_nil cs : numbers_of cs = [] → median cs = CNaN.
Proof. unfold median. by intros ->. Qed.

Lemma median_nan cs : median cs = CNaN → numbers_of cs = [].
Proof.
  unfold median. destruct (length _ =? 0) eqn:Hlen; [|by case_match].
  intros _. apply Nat.eqb_eq in Hlen.
  rewrite (Permutation_length (merge_sort_Permutation _ _)) in Hlen.
  by apply length_zero_iff_nil.
Qed.

Lemma numbers_of_nil_inv cs v : numbers_of cs = [] → v ∈ cs → ¬ is_num v.
Proof.
  unfold numbers_of. intros Hnil Hv [q ->].
  assert (Hq : q ∈ omap (λ c, match c with CNum q => Some q | _ => None end) cs).
  { apply list_elem_of_omap. by exists (CNum q). }
  rewrite Hnil in Hq. by apply elem_of_nil in Hq.
Qed.

Lemma two_passes_all_missing c rs :
  column_holds c (λ v, v = CNaN) rs → two_passes c rs = rs.
Proof.
  intros H. unfold two_passes.
  assert (Hmed : ∀ rs', rs' ⊆ rs → median (at_col c <$> rs') = CNaN).
  { intros rs' Hsub. apply median_nil, numbers_of_nil.
    intros v (r & -> & Hr)%list_elem_of_fmap [q Hq].
    by rewrite (column_holds_at_col _ _ _ _ H (Hsub _ Hr)) in Hq. }
  assert (H1 : first_pass c rs <$> rs = rs).
  { apply list_fmap_fixed. intros r Hr. unfold first_pass. case_match; [|done].
    destruct (H r Hr) as (v & Hv & ->). apply insert_id. rewrite Hv. f_equal.
    unfold region_median. symmetry. apply Hmed. apply list_subseteq_filter. }
  rewrite H1. apply list_fmap_fixed. intros r Hr. unfold second_pass.
  case_match; [|done].
  destruct (H r Hr) as (v & Hv & ->). apply insert_id. rewrite Hv. f_equal.
  symmetry. by apply Hmed.
Qed.

Lemma amount_stage_id df :
  (has_col "amount" df = true →
   column_holds "amount" is_num (rows df)
   ∨ (column_holds "amount" (λ v, v = CNaN) (rows df)
      ∧ has_col "location_region" df = true)) →
  amount_stage df = Ok df.
Proof.
  intros H. unfold amount_stage. destruct (has_col "amount" df); [|done].
  specialize (H eq_refl).
  assert (Hnum : column_holds "amount" numeric_cell (rows df)).
  { destruct H as [H|[H _]]; (eapply column_holds_mono; [|done]).
    - by intros v [q ->].
    - by intros v ->. }
  rewrite to_numeric_column_id by done.
  destruct H as [H|[H Hregion]].
  - rewrite mask_sum_none; [done|]. intros r Hr.
    by destruct (column_holds_at_col _ _ _ _ H Hr) as [q ->].
  - case_match; [|done]. rewrite impute_by_region_rows by done.
    rewrite two_passes_all_missing by done. by destruct df.
Qed.

Lemma first_pass_holds c P rs0 rs :
  (∀ v, numeric_cell v → P v) →
  column_holds c P rs → column_holds c P (first_pass c rs0 <$> rs).
Proof.
  intros HP H r' (r & -> & Hr)%list_elem_of_fmap. unfold first_pass.
  case_match; [|by apply H]. eexists. split; [by rewrite lookup_insert_eq|].
  apply HP, median_numeric.
Qed.

Lemma two_passes_settled c rs :
  column_holds c numeric_cell rs →
  column_holds c is_num (two_passes c rs)
  ∨ column_holds c (λ v, v = CNaN) (two_passes c rs).
Proof.
  intros H. unfold two_passes.
  pose proof (first_pass_holds c numeric_cell rs rs (λ v Hv, Hv) H) as H1.
  set (rs1 := first_pass c rs <$> rs) in *.
  destruct (median (at_col c <$> rs1)) as [s|q|] eqn:Hmed.
  - by pose proof (median_numeric (at_col c <$> rs1)) as Hn; rewrite Hmed in Hn.
  - left. intros r' (r & -> & Hr)%list_elem_of_fmap. unfold second_pass.
    rewrite Hmed. destruct (H1 r Hr) as (v & Hv & Hnum).
    unfold at_col. rewrite Hv. simpl.
    destruct v as [s|q'|]; [done| |]; simpl.
    + exists (CNum q'). split; [done | by exists q'].
    + exists (CNum q). split; [by rewrite lookup_insert_eq | by exists q].
  - right. pose proof (median_nan _ Hmed) as Hnil.
    intros r' (r & -> & Hr)%list_elem_of_fmap. unfold second_pass.
    rewrite Hmed. destruct (H1 r Hr) as (v & Hv & Hnum).
    assert (Hnot : ¬ is_num v).
    { apply (numbers_of_nil_inv _ _ Hnil). apply list_elem_of_fmap. exists r.
      split; [|done]. unfold at_col. by rewrite Hv. }
    unfold at_col. rewrite Hv. simpl. destruct v as [s|q'|]; [done| |]; simpl.
    + destruct Hnot. by exists q'.
    + exists CNaN. by rewrite lookup_insert_eq.
Qed.

Lemma amount_stage_settled df df' :
  amount_stage df = Ok df' → has_col "amount" df = true →
  column_holds "amount" is_num (rows df')
  ∨ (column_holds "amount" (λ v, v = CNaN) (rows df')
     ∧ has_col "location_region" df' = true).
Proof.
  unfold amount_stage. intros Hs Hc. rewrite Hc in Hs.
  assert (H1 : column_holds "amount" numeric_cell
                 (rows (assign_col "amount"
                          (λ r, to_numeric (at_col "amount" r)) df))).
  { apply column_holds_assign. intros. apply to_numeric_numeric. }
  destruct (0 <? _) eqn:Hcount.
  - destruct (has_col "location_region" df) eqn:Hregion.
    + rewrite impute_by_region_rows in Hs by done. injection Hs as <-.
      cbn [rows columns].
      destruct (two_passes_settled "amount" _ H1) as [H|H]; [by left|].
      right. split; [done|]. done.
    + unfold impute_by_region, has_col, assign_col in *. cbn [columns] in Hs.
      by rewrite Hregion in Hs.
  - injection Hs as <-. left. apply Nat.ltb_ge in Hcount.
    intros r Hr. destruct (H1 r Hr) as (v & Hv & Hnum). exists v. split; [done|].
    assert (Hna : isna (at_col "amount" r) = false).
    { eapply (mask_sum_0 (λ r, isna (at_col "amount" r))); [|exact Hr]. lia. }
    unfold at_col in Hna. rewrite Hv in Hna. simpl in Hna.
    destruct v as [s|q|]; [done | by exists q | done].
Qed.

(** Stage 5 *)

Lemma to_datetime_idem v : to_datetime (to_datetime v) = to_datetime v.
Proof.
  destruct v as [s|q|]; simpl; [|by destruct (in_ns_bounds q) eqn:E; simpl; rewrite ?E|done].
  destruct (str_to_epoch s) as [q|]; [|done].
  by destruct (in_ns_bounds q) eqn:E; simpl; rewrite ?E.
Qed.

Lemma timestamp_stage_holds df :
  has_col "timestamp" df = true →
  column_holds "timestamp" (λ v, to_datetime v = v) (rows (timestamp_stage df)).
Proof.
  unfold timestamp_stage. intros ->. apply column_holds_assign.
  intros. apply to_datetime_idem.
Qed.

Lemma timestamp_stage_id df :
  (has_col "timestamp" df = true →
   column_holds "timestamp" (λ v, to_datetime v = v) (rows df)) →
  timestamp_stage df = df.
Proof.
  intros H. unfold timestamp_stage. destruct (has_col "timestamp" df); [|done].
  apply assign_col_id. intros r Hr. destruct (H eq_refl r Hr) as (v & Hv & Hfix).
  unfold at_col. rewrite Hv. simpl. by rewrite Hfix.
Qed.

(** Stage 6 *)

Lemma ascii_lower_idem a : ascii_lower (ascii_lower a) = ascii_lower a.
Proof. by destruct a as [[] [] [] [] [] [] [] []]. Qed.

Lemma lower_idem s : lower (lower s) = lower s.
Proof. induction s as [|a s IH]; [done|]. simpl. by rewrite ascii_lower_idem, IH. Qed.

Lemma region_lower_holds df :
  has_col "location_region" df = true →
  column_holds "location_region" lowercase_text (rows (region_lower df)).
Proof.
  unfold region_lower. intros ->. apply column_holds_assign.
  intros r _. eexists. split; [done|]. apply lower_idem.
Qed.

Lemma region_rebound_holds df :
  has_col "location_region" df = true →
  column_holds "location_region" lowercase_text (rows df) →
  column_holds "location_region" region_clean
    (rows (if region_rebinds df then region_filter df else df)).
Proof.
  intros Hc H. unfold region_rebinds. rewrite Hc. simpl.
  assert (Hvalid : ∀ r, r ∈ rows df → region_invalid r = false →
            ∃ v, r !! "location_region" = Some v ∧ region_clean v).
  { intros r Hr Hinv. destruct (H r Hr) as (v & Hv & s & -> & Hs).
    exists (CStr s). split; [done|]. exists s. split; [done|]. split; [done|].
    unfold region_invalid, at_col in Hinv. rewrite Hv in Hinv. simpl in Hinv.
    by apply bool_decide_eq_false in Hinv. }
  destruct (0 <? _) eqn:Hcount.
  - intros r Hr. simpl in Hr. apply list_elem_of_filter in Hr as [Hinv Hr].
    apply Hvalid; [done|]. by destruct (region_invalid r).
  - intros r Hr. apply Hvalid; [done|]. apply Nat.ltb_ge in Hcount.
    eapply (mask_sum_0 region_invalid); [|exact Hr]. lia.
Qed.

Lemma region_clean_valid (r : row) v :
  r !! "location_region" = Some v → region_clean v → region_invalid r = false.
Proof.
  intros Hv (s & -> & _ & Hs). unfold region_invalid, at_col. rewrite Hv. simpl.
  by apply bool_decide_eq_false.
Qed.

Lemma region_lower_id df :
  (has_col "location_region" df = true →
   column_holds "location_region" region_clean (rows df)) →
  region_lower df = df.
Proof.
  intros H. unfold region_lower. destruct (has_col "location_region" df); [|done].
  apply assign_col_id. intros r Hr.
  destruct (H eq_refl r Hr) as (v & Hv & s & -> & Hs & _).
  unfold at_col. rewrite Hv. simpl. by rewrite Hs.
Qed.

Lemma region_rebinds_cleaned df :
  (has_col "location_region" df = true →
   column_holds "location_region" region_clean (rows df)) →
  region_rebinds df = false.
Proof.
  intros H. unfold region_rebinds. destruct (has_col "location_region" df); [|done].
  simpl. apply mask_sum_none. intros r Hr.
  destruct (H eq_refl r Hr) as (v & Hv & Hclean). by eapply region_clean_valid.
Qed.

(** Stage 7 *)

Lemma elem_of_drop_seen seen rs r :
  r ∈ drop_seen seen rs ↔ r ∈ rs ∧ r ∉ seen.
Proof.
  revert seen. induction rs as [|x rs IH]; intros seen; simpl.
  - split; [by intros ?%elem_of_nil | by intros [?%elem_of_nil _]].
  - case_bool_decide as Hx.
    + rewrite IH, elem_of_cons. split; [tt|]. intros [[->|?] ?]; tt.
    + rewrite !elem_of_cons, IH, elem_of_cons. split.
      * intros [->|[? ?]]; [tt|]. split; [tt|]. tt.
      * intros [[->|?] ?]; [tt|]. destruct (decide (r = x)); tt.
Qed.

Lemma drop_seen_NoDup seen rs : NoDup (drop_seen seen rs).
Proof.
  revert seen. induction rs as [|x rs IH]; intros seen; simpl; [constructor|].
  case_bool_decide; [done|]. constructor; [|done].
  rewrite elem_of_drop_seen, elem_of_cons. tt.
Qed.

Lemma drop_seen_id seen rs :
  NoDup rs → (∀ r, r ∈ rs → r ∉ seen) → drop_seen seen rs = rs.
Proof.
  intros Hnd. revert seen. induction Hnd as [|x rs Hx Hnd IH]; intros seen Hseen; [done|].
  simpl. rewrite bool_decide_eq_false_2 by (apply Hseen; left). f_equal.
  apply IH. intros r Hr [->|?]%elem_of_cons; [done|]. apply (Hseen r); [by right|done].
Qed.

Lemma drop_duplicates_id df : NoDup (rows df) → drop_duplicates df = df.
Proof.
  intros H. apply DataFrame_eq; [done|]. simpl. apply drop_seen_id; [done|].
  intros r _. apply not_elem_of_nil.
Qed.

(** The whole function *)

Lemma has_col_columns c a b : columns a = columns b → has_col c a = has_col c b.
Proof. unfold has_col. by intros ->. Qed.

Lemma cleaned_frame_cleaned df df' : cleaned_frame df = Ok df' → cleaned df'.
Proof.
  intros (t3 & t4 & H3 & H4 & -> & _)%cleaned_frame_inv. cbv zeta.
  set (t6 := region_lower (timestamp_stage t4)).
  pose proof (risk_stage_columns _ _ H3) as Hc3.
  pose proof (amount_stage_columns _ _ H4) as Hc4.
  rewrite ip_stage_columns in Hc3.
  assert (Hc6 : columns t6 = columns t4)
    by (unfold t6; by rewrite region_lower_columns, timestamp_stage_columns).
  assert (Hcols : ∀ c, has_col c (drop_duplicates
                          (if region_rebinds t6 then region_filter t6 else t6))
                       = has_col c t6)
    by (intros c; apply has_col_columns, final_stages_columns).
  assert (Hlater : ∀ c P, c ≠ "timestamp" → c ≠ "location_region" →
            column_holds c P (rows t4) →
            column_holds c P (rows (drop_duplicates
                                      (if region_rebinds t6 then region_filter t6 else t6)))).
  { intros c P ? ? H. eapply column_holds_subseteq; [apply final_stages_subseteq|].
    by apply region_lower_holds_ne, timestamp_stage_holds_ne. }
  split.
  - unfold address_present. rewrite !Hcols, !(has_col_columns _ _ _ Hc6),
      !(has_col_columns _ _ _ Hc4), !(has_col_columns _ _ _ Hc3),
      !(has_col_columns _ _ _ (address_filter_columns df)).
    intros Hp. fold (address_present df) in Hp.
    split; apply Hlater; try done;
      (eapply amount_stage_holds_ne; [done..|]);
      (eapply risk_stage_holds_ne; [done..|]);
      (apply ip_stage_holds_ne; [done|]); apply address_filter_holds; try done; ss.
  - rewrite Hcols, (has_col_columns _ _ _ Hc6), (has_col_columns _ _ _ Hc4),
      (has_col_columns _ _ _ Hc3). intros Hc.
    apply Hlater; try done. eapply amount_stage_holds_ne; [done..|].
    eapply risk_stage_holds_ne; [done..|]. by apply ip_stage_holds.
  - rewrite Hcols, (has_col_columns _ _ _ Hc6), (has_col_columns _ _ _ Hc4),
      (has_col_columns _ _ _ Hc3). intros Hc.
    apply Hlater; try done. eapply amount_stage_holds_ne; [done..|].
    eapply risk_stage_numeric; [done|].
    by rewrite (has_col_columns _ _ (address_filter df)) by apply ip_stage_columns.
  - rewrite !Hcols, !(has_col_columns _ _ _ Hc6). intros Hc.
    rewrite (has_col_columns _ _ _ Hc4) in Hc.
    destruct (amount_stage_settled _ _ H4 Hc) as [H|[H Hregion]].
    + left. by apply Hlater.
    + right. split; [by apply Hlater | done].
  - rewrite Hcols, (has_col_columns _ _ _ Hc6). intros Hc.
    eapply column_holds_subseteq; [apply final_stages_subseteq|].
    apply region_lower_holds_ne; [done|]. by apply timestamp_stage_holds.
  - rewrite Hcols. intros Hc.
    eapply column_holds_subseteq; [apply drop_seen_subseteq|].
    apply region_rebound_holds; [done|]. apply region_lower_holds.
    by rewrite <- (has_col_columns _ _ _ (region_lower_columns (timestamp_stage t4))).
  - apply drop_seen_NoDup.
Qed.

Lemma str_accessor_ok column :
  (∀ v, v ∈ column → is_str v = true) → str_accessor column = Ok ().
Proof.
  destruct column as [|v l]; [done|]. intros H. unfold str_accessor.
  cbn [existsb]. by rewrite (H v) by left.
Qed.

Lemma address_ok_str v : address_ok v → is_str v = true.
Proof. by destruct v. Qed.

Lemma address_checks_ok df :
  (address_present df = true →
   column_holds "sending_address" address_ok (rows df)
   ∧ column_holds "receiving_address" address_ok (rows df)) →
  address_checks df = Ok ().
Proof.
  intros H. unfold address_checks. destruct (address_present df); [|done].
  destruct H as [Hs Hr]; [done|].
  rewrite !str_accessor_ok; [done| |];
    intros v (r & -> & Hin)%list_elem_of_fmap; apply address_ok_str;
    eapply column_holds_at_col; done.
Qed.

Lemma address_checks_no_rows df : rows df = [] → address_checks df = Ok ().
Proof. intros H. unfold address_checks. rewrite H. by case_match. Qed.

Lemma cleaned_frame_fixed df :
  cleaned df → rows df ≠ [] → cleaned_frame df = Ok df.
Proof.
  intros [Ha Hip Hrisk Hamount Hts Hregion Hnd] Hrows. rewrite cleaned_frame_unfold.
  rewrite (address_checks_ok _ Ha), (address_filter_id _ Ha), (ip_stage_id _ Hip), (risk_stage_id _ Hrisk),
    (amount_stage_id _ Hamount). cbv zeta.
  rewrite (timestamp_stage_id _ Hts), (region_lower_id _ Hregion),
    (region_rebinds_cleaned _ Hregion), (drop_duplicates_id _ Hnd).
  destruct (rows df); [done|]. done.
Qed.

(** ** The number of rows *)

Lemma impute_by_region_length c df df' :
  impute_by_region c df = Ok df' → length (rows df') = length (rows df).
Proof.
  unfold impute_by_region. intros H.
  assert (Hlen : length (foldl (fill_region c) (rows df) (groupby_median c (rows df)))
                 = length (rows df))
    by (by rewrite fill_regions_rows, length_fmap).
  repeat case_match; try done; injection H as <-; simpl; by rewrite ?length_fmap.
Qed.

Lemma risk_stage_length df df' :
  risk_stage df = Ok df' → length (rows df') = length (rows df).
Proof.
  unfold risk_stage. intros H. repeat case_match; try (by injection H as <-).
  - apply impute_by_region_length in H. by rewrite H; simpl; rewrite length_fmap.
  - injection H as <-. simpl. by rewrite length_fmap.
Qed.

Lemma amount_stage_length df df' :
  amount_stage df = Ok df' → length (rows df') = length (rows df).
Proof.
  unfold amount_stage. intros H. repeat case_match; try (by injection H as <-).
  - apply impute_by_region_length in H. by rewrite H; simpl; rewrite length_fmap.
  - injection H as <-. simpl. by rewrite length_fmap.
Qed.

Lemma address_filter_length df : length (rows (address_filter df)) ≤ length (rows df).
Proof. unfold address_filter. case_match; [apply length_filter | done]. Qed.

Lemma ip_stage_length df : length (rows (ip_stage df)) = length (rows df).
Proof.
  destruct (has_col "ip_prefix" df) eqn:Hc.
  - by rewrite (ip_stage_rows _ Hc), length_fmap.
  - unfold ip_stage. by rewrite Hc.
Qed.

Lemma timestamp_stage_length df :
  length (rows (timestamp_stage df)) = length (rows df).
Proof. unfold timestamp_stage. case_match; [|done]. simpl. by rewrite length_fmap. Qed.

Lemma region_lower_length df : length (rows (region_lower df)) = length (rows df).
Proof. unfold region_lower. case_match; [|done]. simpl. by rewrite length_fmap. Qed.

Lemma drop_seen_length seen rs : length (drop_seen seen rs) ≤ length rs.
Proof.
  revert seen. induction rs as [|r rs IH]; intros seen; simpl; [done|].
  case_bool_decide; [specialize (IH seen) | specialize (IH (r :: seen))]; simpl; lia.
Qed.

Lemma final_stages_length t6 :
  length (rows (drop_duplicates (if region_rebinds t6 then region_filter t6 else t6)))
  ≤ length (rows t6).
Proof.
  etrans; [apply drop_seen_length|]. case_match; [apply length_filter | done].
Qed.

Lemma cleaned_frame_length df df' :
  cleaned_frame df = Ok df' → length (rows df') ≤ length (rows df).
Proof.
  intros (t3 & t4 & H3 & H4 & -> & _)%cleaned_frame_inv. cbv zeta.
  etrans; [apply final_stages_length|].
  rewrite region_lower_length, timestamp_stage_length.
  rewrite (amount_stage_length _ _ H4), (risk_stage_length _ _ H3), ip_stage_length.
  apply address_filter_length.
Qed.

Lemma risk_stage_no_rows df :
  rows df = [] → ∃ df', risk_stage df = Ok df' ∧ rows df' = [].
Proof.
  intros Hrows. unfold risk_stage. rewrite Hrows.
  destruct (has_col "risk_score" df); [|by exists df].
  simpl. eexists. split; [done|]. simpl. by rewrite Hrows.
Qed.

Lemma amount_stage_no_rows df :
  rows df = [] → ∃ df', amount_stage df = Ok df' ∧ rows df' = [].
Proof.
  intros Hrows. unfold amount_stage, assign_col. rewrite Hrows.
  destruct (has_col "amount" df); [|by exists df].
  simpl. eexists. split; done.
Qed.

Lemma cleaned_frame_no_rows df :
  rows df = [] → cleaned_frame df = Raise ZeroDivisionError.
Proof.
  intros Hrows. rewrite cleaned_frame_unfold, (address_checks_no_rows _ Hrows).
  assert (H2 : rows (ip_stage (address_filter df)) = []).
  { apply length_zero_iff_nil. rewrite ip_stage_length.
    pose proof (address_filter_length df) as Hlen. rewrite Hrows in Hlen.
    simpl in Hlen. lia. }
  destruct (risk_stage_no_rows _ H2) as (t3 & -> & H3).
  destruct (amount_stage_no_rows _ H3) as (t4 & -> & _).
  cbv zeta. by rewrite Hrows.
Qed.

(** ** The loop over the regions, in any order *)

Lemma fill_rows_unmatched c items r :
  (∀ item, item ∈ items → cell_eqb (at_col "location_region" r) item.1 = false) →
  foldl (λ r item, fill_row c item r) r items = r.
Proof.
  induction items as [|item items IH]; intros H; [done|].
  simpl. unfold fill_row at 2. rewrite (H item) by left. simpl.
  apply IH. intros item' Hin. apply H. by right.
Qed.

Lemma cell_eqb_false a b : a ≠ b → cell_eqb a b = false.
Proof.
  intros Hne. apply not_true_is_false. by intros [? _]%cell_eqb_true.
Qed.

Lemma cell_eqb_missing a b : isna a = true → cell_eqb a b = false.
Proof. by destruct a. Qed.

Lemma fill_rows_matched c items (r : row) item :
  c ≠ "location_region" → NoDup items.*1 →
  isna (at_col c r) = true → isna (at_col "location_region" r) = false →
  item ∈ items → item.1 = at_col "location_region" r →
  foldl (λ r item, fill_row c item r) r items = <[c := item.2]> r.
Proof.
  intros Hc Hnd Hna Hregion. revert item.
  induction items as [|item' items IH]; intros item Hin Hkey;
    [by apply elem_of_nil in Hin|].
  rewrite fmap_cons in Hnd. apply NoDup_cons in Hnd as [Hfresh Hnd]. simpl.
  apply elem_of_cons in Hin as [->|Hin].
  - unfold fill_row at 2. rewrite Hkey, Hna.
    assert (E : cell_eqb (at_col "location_region" r) (at_col "location_region" r) = true)
      by (by apply cell_eqb_true).
    rewrite E. simpl. apply fill_rows_unmatched. intros item Hin.
    rewrite at_col_insert_ne by done. apply cell_eqb_false. intros Heq. apply Hfresh.
    rewrite Hkey, Heq. by apply list_elem_of_fmap_2.
  - rewrite fill_row_other; [by apply IH|].
    intros Heq. apply Hfresh. rewrite <- Heq, <- Hkey. by apply list_elem_of_fmap_2.
Qed.

Lemma fill_rows_perm c items items' (r : row) :
  c ≠ "location_region" → NoDup items.*1 → items ≡ₚ items' →
  foldl (λ r item, fill_row c item r) r items
  = foldl (λ r item, fill_row c item r) r items'.
Proof.
  intros Hc Hnd Hperm.
  assert (Hnd' : NoDup items'.*1) by (by rewrite <- Hperm).
  destruct (isna (at_col c r)) eqn:Hna; [|by rewrite !fill_rows_present].
  destruct (isna (at_col "location_region" r)) eqn:Hregion.
  { rewrite !fill_rows_unmatched; [done| |]; intros; by apply cell_eqb_missing. }
  destruct (decide (Exists (λ item, item.1 = at_col "location_region" r) items))
    as [Hex|Hnex].
  - apply Exists_exists in Hex as (item & Hin & Hkey).
    rewrite (fill_rows_matched c items r item), (fill_rows_matched c items' r item);
      try done. by rewrite <- Hperm.
  - rewrite !fill_rows_unmatched; [done| |]; intros item Hin;
      apply cell_eqb_false; intros Heq; apply Hnex, Exists_exists; exists item;
      split; try done. by rewrite Hperm.
Qed.

Lemma groupby_median_keys c rs : (groupby_median c rs).*1 = region_keys rs.
Proof.
  unfold groupby_median. rewrite <- list_fmap_compose. apply list_fmap_id.
Qed.

(** ** Imputation keeps what is there *)

Lemma two_passes_rows c rs :
  Forall2 (λ r r', r' = r ∨ (isna (at_col c r) = true ∧ ∃ v, r' = <[c := v]> r))
    rs (two_passes c rs).
Proof.
  unfold two_passes. rewrite <- list_fmap_compose. apply Forall2_fmap_r, Forall_Forall2_diag.
  apply Forall_forall. intros r _. simpl. unfold second_pass, first_pass.
  destruct (isna (at_col c r)) eqn:Hna; simpl.
  - destruct (negb _); [rewrite at_col_insert|rewrite Hna].
    + case_match; [rewrite insert_insert_eq|]; eauto.
    + eauto.
  - rewrite Hna. eauto.
Qed.

Lemma impute_by_region_keeps c df df' :
  c ≠ "location_region" → impute_by_region c df = Ok df' →
  Forall2 (λ r r', r' = r ∨ (isna (at_col c r) = true ∧ ∃ v, r' = <[c := v]> r))
    (rows df) (rows df').
Proof.
  intros Hc H. destruct (has_col "location_region" df) eqn:Hregion.
  - rewrite impute_by_region_rows in H by done. injection H as <-.
    apply two_passes_rows.
  - unfold impute_by_region in H. by rewrite Hregion in H.
Qed.

Lemma converting_stage_keeps c df1 df' (gate : bool) i (r : row) :
  c ≠ "location_region" →
  (if gate then impute_by_region c (assign_col c (λ r, to_numeric (at_col c r)) df1)
   else Ok (assign_col c (λ r, to_numeric (at_col c r)) df1)) = Ok df' →
  rows df1 !! i = Some r →
  ∃ r', rows df' !! i = Some r'
        ∧ (∀ c', c' ≠ c → r' !! c' = r !! c')
        ∧ (∀ q, to_numeric (at_col c r) = CNum q → r' !! c = Some (CNum q)).
Proof.
  intros Hc H Hr.
  set (r1 := <[c := to_numeric (at_col c r)]> r).
  assert (Hr1 : rows (assign_col c (λ r, to_numeric (at_col c r)) df1) !! i = Some r1)
    by (simpl; by rewrite list_lookup_fmap, Hr).
  destruct gate.
  - apply impute_by_region_keeps in H; [|done].
    destruct (Forall2_lookup_l _ _ _ _ _ H Hr1) as (r' & Hr' & Hkeep).
    exists r'. split; [done|]. unfold r1 in Hkeep.
    destruct Hkeep as [->|[Hna [v ->]]].
    + split; [intros; by rewrite lookup_insert_ne|]. intros q Hq.
      by rewrite lookup_insert_eq, Hq.
    + rewrite at_col_insert in Hna. rewrite insert_insert_eq.
      split; [intros; by rewrite lookup_insert_ne|]. intros q Hq.
      by rewrite Hq in Hna.
  - injection H as <-. exists r1. split; [done|]. unfold r1.
    split; [intros; by rewrite lookup_insert_ne|]. intros q Hq.
    by rewrite lookup_insert_eq, Hq.
Qed.

(** * Further properties of the functions *)

(** ** enhanced_data_cleaning *)

(** X1. A cleaned table that has a row, and in which the amounts are all
    numbers or all missing, is left as it is by a second run: cleaning it
    returns the same table.  (A second run imputes again only where a
    missing amount stands beside a number.) *)
Theorem clean_fixes_cleaned df df' :
  clean df = Ok df' → rows df' ≠ [] →
  (∀ r, r ∈ rows df' → ∃ q, at_col "amount" r = CNum q)
  ∨ (∀ r, r ∈ rows df' → at_col "amount" r = CNaN) →
  clean df' = Ok df'.
Proof.
  rewrite !clean_cleaned_frame. intros H Hrows _.
  apply cleaned_frame_fixed; [by eapply cleaned_frame_cleaned | done].
Qed.

(** X2. On a table without rows the function raises ZeroDivisionError: the
    retention rate it prints divides by the number of rows it was given. *)
Theorem clean_no_rows_raises df :
  rows df = [] → clean df = Raise ZeroDivisionError.
Proof. rewrite clean_cleaned_frame. apply cleaned_frame_no_rows. Qed.

(** X3. The cleaned table has the columns of the input, in the same order,
    and no more rows than the input. *)
Theorem clean_keeps_shape df df' :
  clean df = Ok df' →
  columns df' = columns df ∧ length (rows df') ≤ length (rows df).
Proof.
  intros H. split; [by apply clean_columns|].
  rewrite clean_cleaned_frame in H. by apply cleaned_frame_length.
Qed.

(** X4. No two rows of the cleaned table are equal. *)
Theorem clean_rows_distinct df df' : clean df = Ok df' → NoDup (rows df').
Proof.
  rewrite clean_cleaned_frame. intros H%cleaned_frame_cleaned. apply H.
Qed.

(** X5. When the table has both address columns, every row of the cleaned
    table has two well-formed addresses. *)
Theorem clean_addresses_valid df df' r :
  clean df = Ok df' → address_present df = true → r ∈ rows df' →
  valid_addresses r.
Proof.
  intros H Hp Hr. pose proof (clean_columns _ _ H) as Hcols.
  rewrite clean_cleaned_frame in H. apply cleaned_frame_cleaned in H.
  destruct (cleaned_addresses _ H) as [Hs Hrec].
  { unfold address_present, has_col in *. by rewrite Hcols. }
  split; apply address_cell_valid.
  - apply (column_holds_at_col _ _ _ _ Hs Hr).
  - apply (column_holds_at_col _ _ _ _ Hrec Hr).
Qed.

(** X6. When the table has an ip_prefix column, every ip_prefix of the
    cleaned table is a string, and none of 0.0, 0, nan, NaN, None, none. *)
Theorem clean_ip_prefix df df' r :
  clean df = Ok df' → has_col "ip_prefix" df = true → r ∈ rows df' →
  ∃ s, r !! "ip_prefix" = Some (CStr s) ∧ s ∉ invalid_ip_values.
Proof.
  intros H Hc Hr. pose proof (clean_columns _ _ H) as Hcols.
  rewrite clean_cleaned_frame in H. apply cleaned_frame_cleaned in H.
  destruct (cleaned_ip _ H) with (r := r) as (v & Hv & s & -> & Hs); [|done|by exists s].
  unfold has_col in *. by rewrite Hcols.
Qed.

(** X7. When the table has a location_region column, every region of the
    cleaned table is a lower-case string, and none of 0, nan, none and the
    empty string. *)
Theorem clean_regions df df' r :
  clean df = Ok df' → has_col "location_region" df = true → r ∈ rows df' →
  ∃ s, r !! "location_region" = Some (CStr s) ∧ lower s = s ∧ s ∉ invalid_regions.
Proof.
  intros H Hc Hr. pose proof (clean_columns _ _ H) as Hcols.
  rewrite clean_cleaned_frame in H. apply cleaned_frame_cleaned in H.
  destruct (cleaned_region _ H) with (r := r) as (v & Hv & s & -> & Hs);
    [|done|by exists s].
  unfold has_col in *. by rewrite Hcols.
Qed.

(** X8. The columns risk_score, amount and timestamp of the cleaned table
    hold numbers, instants and missing entries only: no string is left. *)
Theorem clean_converted_columns df df' c r :
  clean df = Ok df' → c ∈ ["risk_score"; "amount"; "timestamp"] →
  has_col c df = true → r ∈ rows df' →
  r !! c = Some CNaN ∨ ∃ q, r !! c = Some (CNum q).
Proof.
  intros H Hc Hcol Hr. pose proof (clean_columns _ _ H) as Hcols.
  destruct (clean_numeric _ _ c H Hc) with (r := r) as (v & Hv & Hnum); [|done|].
  { unfold has_col in *. by rewrite Hcols. }
  destruct v as [s|q|]; [done | right; by exists q | by left].
Qed.

(** ** Stage 1 *)

Lemma existsb_is_str column :
  existsb is_str column = true ↔ ∃ v, v ∈ column ∧ is_str v = true.
Proof.
  induction column as [|v l IH]; simpl.
  - split; [done|]. intros (v & Hv & _). by apply elem_of_nil in Hv.
  - rewrite orb_true_iff, IH. split.
    + intros [Hv|(w & Hw & Hs)]; [exists v; split; [left|done]|].
      exists w. split; [by right|done].
    + intros (w & [->|Hw]%elem_of_cons & Hs); [by left|]. right. by exists w.
Qed.

Lemma str_accessor_cases c rs :
  (str_accessor (at_col c <$> rs) = Ok () ∧ string_column c rs)
  ∨ (str_accessor (at_col c <$> rs) = Raise AttributeError ∧ ¬ string_column c rs).
Proof.
  destruct rs as [|r0 rs]; [left; split; [done|by left]|].
  unfold str_accessor. rewrite fmap_cons.
  destruct (existsb is_str (at_col c r0 :: (at_col c <$> rs))) eqn:E.
  - left. split; [done|]. right.
    apply existsb_is_str in E as (v & Hv & Hs). rewrite <- fmap_cons in Hv.
    apply list_elem_of_fmap in Hv as (r & -> & Hr).
    destruct (at_col c r) as [s| |] eqn:Hc; try done. by exists r, s.
  - right. split; [done|]. intros [?|(r & s & Hr & Hc)]; [done|].
    apply not_true_iff_false in E. apply E, existsb_is_str.
    exists (CStr s). split; [|done]. rewrite <- fmap_cons, <- Hc.
    apply list_elem_of_fmap. by exists r.
Qed.

(** X31. With both address columns in the table, stage 1 raises
    AttributeError when one of them has cells and no string among them;
    otherwise it keeps a row if and only if its two addresses are strings of
    exactly 42 characters that begin with 0x: the rows that come out are the
    rows that pass, in their order and as they were, and the columns are
    those of the input. *)
Theorem address_stage_retains df :
  address_present df = true →
  (string_column "sending_address" (rows df)
   ∧ string_column "receiving_address" (rows df) →
   address_stage df
   = Ok (mkDataFrame (columns df) (filter valid_addresses (rows df))))
  ∧ (¬ (string_column "sending_address" (rows df)
        ∧ string_column "receiving_address" (rows df)) →
     address_stage df = Raise AttributeError).
Proof.
  intros Hp. unfold address_stage, address_checks. rewrite Hp.
  destruct (address_filter_retains df Hp) as [Hcols Hrows].
  destruct (str_accessor_cases "sending_address" (rows df)) as [[-> Hs]|[-> Hs]],
    (str_accessor_cases "receiving_address" (rows df)) as [[-> Hr]|[-> Hr]];
    simpl; (split; [intros [? ?]|intros Hn]); try done; try tt.
  f_equal. by apply DataFrame_eq.
Qed.

(** ** The imputation stages *)

(** X10. When some risk_score is one of the strings none, None, NULL, null
    or the empty string, stage 3 converts the column and applies the two
    passes: the median of the row's region, then the median of the column
    as the first pass left it; without a location_region column it raises
    KeyError. *)
Theorem risk_stage_two_passes df :
  has_col "risk_score" df = true →
  (∃ r, r ∈ rows df ∧ isin risk_missing_values (at_col "risk_score" r) = true) →
  risk_stage df
  = if has_col "location_region" df
    then Ok (mkDataFrame (columns df)
               (two_passes "risk_score"
                  ((λ r, <["risk_score" := to_numeric (at_col "risk_score" r)]> r)
                   <$> rows df)))
    else Raise (KeyError "location_region").
Proof. apply risk_stage_imputes. Qed.

(** X11. When some amount is missing after the conversion, stage 4 applies
    the two passes to the converted column; without a location_region column
    it raises KeyError. *)
Theorem amount_stage_two_passes df :
  has_col "amount" df = true →
  (∃ r, r ∈ rows df ∧ to_numeric (at_col "amount" r) = CNaN) →
  amount_stage df
  = if has_col "location_region" df
    then Ok (mkDataFrame (columns df)
               (two_passes "amount"
                  ((λ r, <["amount" := to_numeric (at_col "amount" r)]> r)
                   <$> rows df)))
    else Raise (KeyError "location_region").
Proof. apply amount_stage_imputes. Qed.

(** X12. Provided none of the five sentinel strings reads as a number,
    stage 4 does what the procedure of stage 3 would do on the amount column
    whenever that column holds a sentinel string, and whenever no amount is
    missing after the conversion. *)
Theorem amount_stage_matches_risk_procedure df :
  (∀ s, s ∈ risk_missing_values → str_to_num s = None) →
  (∃ r, r ∈ rows df ∧ isin risk_missing_values (at_col "amount" r) = true)
  ∨ (∀ r, r ∈ rows df → to_numeric (at_col "amount" r) ≠ CNaN) →
  amount_stage df = risk_procedure_on "amount" df.
Proof. apply amount_stage_agrees. Qed.

(** X13. The loop that fills the regions gives the same rows in whatever
    order it visits the medians of the regions. *)
Theorem fill_order_irrelevant c rs items :
  c ≠ "location_region" → items ≡ₚ groupby_median c rs →
  foldl (fill_region c) rs items
  = foldl (fill_region c) rs (groupby_median c rs).
Proof.
  intros Hc Hperm. rewrite !fill_regions_rows. apply list_fmap_ext.
  intros i r _. symmetry. apply fill_rows_perm; [done| |done].
  rewrite groupby_median_keys. apply region_keys_NoDup.
Qed.

(** X14. Stage 3 keeps every row, touches no column but risk_score, and
    never overwrites a risk_score that reads as a number. *)
Theorem risk_stage_keeps_readable df df' i r :
  risk_stage df = Ok df' → has_col "risk_score" df = true →
  rows df !! i = Some r →
  ∃ r', rows df' !! i = Some r'
        ∧ (∀ c, c ≠ "risk_score" → r' !! c = r !! c)
        ∧ (∀ q, to_numeric (at_col "risk_score" r) = CNum q →
                r' !! "risk_score" = Some (CNum q)).
Proof.
  unfold risk_stage. intros H Hc Hr. rewrite Hc in H.
  by eapply (converting_stage_keeps "risk_score" df df').
Qed.

(** X15. Stage 4 keeps every row, touches no column but amount, and never
    overwrites an amount that reads as a number. *)
Theorem amount_stage_keeps_readable df df' i r :
  amount_stage df = Ok df' → has_col "amount" df = true →
  rows df !! i = Some r →
  ∃ r', rows df' !! i = Some r'
        ∧ (∀ c, c ≠ "amount" → r' !! c = r !! c)
        ∧ (∀ q, to_numeric (at_col "amount" r) = CNum q →
                r' !! "amount" = Some (CNum q)).
Proof.
  unfold amount_stage. intros H Hc Hr. rewrite Hc in H.
  by eapply (converting_stage_keeps "amount" df df').
Qed.

(** ** Stages 6 and 7, and the duplicates the validator counts *)

Lemma filter_fmap_rows {A B} (f : A → B) (P : B → Prop) (Q : A → Prop)
    `{!∀ x, Decision (P x)} `{!∀ x, Decision (Q x)} (l : list A) :
  (∀ x, P (f x) ↔ Q x) → filter P (f <$> l) = f <$> filter Q l.
Proof.
  intros HPQ. induction l as [|x l IH]; [done|].
  rewrite fmap_cons, !filter_cons.
  destruct (decide (P (f x))) as [HP|HP], (decide (Q x)) as [HQ|HQ]; simpl;
    rewrite ?IH; try done; by apply HPQ in HP || apply HPQ in HQ.
Qed.

(** X16. With a location_region column, stage 6 keeps a row exactly when
    its region, converted to a string and put in lower case, is none of 0,
    nan, none and the empty string, and writes that lower-case string in the
    rows it keeps. *)
Theorem region_stage_rows df :
  has_col "location_region" df = true →
  let lowered r := lower (astype_str (at_col "location_region" r)) in
  rows (if region_rebinds (region_lower df)
        then region_filter (region_lower df) else region_lower df)
  = (λ r, <["location_region" := CStr (lowered r)]> r)
    <$> filter (λ r, lowered r ∉ invalid_regions) (rows df).
Proof.
  intros Hc lowered.
  assert (Hrows : rows (region_lower df)
                  = (λ r, <["location_region" := CStr (lowered r)]> r) <$> rows df)
    by (unfold region_lower; by rewrite Hc).
  assert (Hfilter : filter (λ r, negb (region_invalid r) = true) (rows (region_lower df))
                    = (λ r, <["location_region" := CStr (lowered r)]> r)
                      <$> filter (λ r, lowered r ∉ invalid_regions) (rows df)).
  { rewrite Hrows. apply filter_fmap_rows. intros r. unfold region_invalid.
    rewrite at_col_insert. simpl. rewrite negb_true_iff, bool_decide_eq_false. done. }
  destruct (region_rebinds (region_lower df)) eqn:Hre; [done|].
  rewrite <- Hfilter. symmetry. apply filter_all. intros r Hr.
  unfold region_rebinds in Hre.
  rewrite (has_col_columns _ _ df (region_lower_columns df)), Hc in Hre.
  simpl in Hre. apply Nat.ltb_ge in Hre.
  rewrite (mask_sum_0 region_invalid (rows (region_lower df))); [done|lia|done].
Qed.

Lemma duplicated_length seen rs : length (duplicated seen rs) = length rs.
Proof.
  revert seen. induction rs as [|r rs IH]; intros seen; simpl; [done|].
  by rewrite IH.
Qed.

Lemma duplicated_same_seen seen seen' rs :
  (∀ r, r ∈ seen ↔ r ∈ seen') → duplicated seen rs = duplicated seen' rs.
Proof.
  revert seen seen'. induction rs as [|x rs IH]; intros seen seen' H; simpl; [done|].
  f_equal; [by apply bool_decide_ext|]. apply IH. intros r. rewrite !elem_of_cons.
  by rewrite H.
Qed.

Lemma drop_seen_duplicated seen rs :
  length (filter (λ b, b = true) (duplicated seen rs)) + length (drop_seen seen rs)
  = length rs.
Proof.
  revert seen. induction rs as [|x rs IH]; intros seen; simpl; [done|].
  rewrite filter_cons. case_bool_decide as Hx.
  - rewrite decide_True by done. simpl.
    rewrite (duplicated_same_seen (x :: seen) seen), IH; [done|].
    intros r. rewrite elem_of_cons. split; [intros [->|?]; done | by right].
  - rewrite decide_False by done. simpl. rewrite <- (IH (x :: seen)). lia.
Qed.

(** X17. The number of duplicates the validator counts is the number of
    rows stage 7 removes from the same table. *)
Theorem duplicate_count_dropped df :
  duplicate_count df + length (rows (drop_duplicates df)) = length (rows df).
Proof. apply drop_seen_duplicated. Qed.

Lemma duplicated_lookup seen rs i r :
  rs !! i = Some r →
  duplicated seen rs !! i = Some (bool_decide (r ∈ (seen ++ take i rs)%list)).
Proof.
  revert seen i. induction rs as [|x rs IH]; intros seen i Hr; [done|].
  destruct i as [|i]; simpl in *.
  - injection Hr as ->. by rewrite app_nil_r.
  - rewrite (IH _ _ Hr). f_equal. apply bool_decide_ext.
    rewrite !elem_of_app, !elem_of_cons. tt.
Qed.

Lemma drop_seen_keeps seen rs :
  drop_seen seen rs
  = omap id (imap (λ i r, if bool_decide (r ∈ (seen ++ take i rs)%list) then None else Some r) rs).
Proof.
  revert seen. induction rs as [|x rs IH]; intros seen; [done|].
  cbn [drop_seen imap omap]. rewrite app_nil_r.
  assert (Hext : ∀ seen', (∀ r, r ∈ seen' ↔ r ∈ x :: seen) →
            omap id (imap ((λ i r, if bool_decide (r ∈ (seen ++ take i (x :: rs))%list)
                                   then None else Some r) ∘ S) rs)
            = omap id (imap (λ i r, if bool_decide (r ∈ (seen' ++ take i rs)%list)
                                    then None else Some r) rs)).
  { intros seen' Hseen'. f_equal. apply imap_ext. intros i r _. simpl.
    erewrite bool_decide_ext; [done|].
    rewrite !elem_of_app, elem_of_cons, Hseen', elem_of_cons. tt. }
  case_bool_decide as Hx; simpl.
  - rewrite IH. symmetry. apply Hext. intros r. rewrite elem_of_cons.
    split; [by right | intros [->|?]; done].
  - rewrite IH. f_equal. symmetry. by apply Hext.
Qed.

(** X18. Stage 7 keeps, in their order, exactly the rows that are equal to
    no row before them. *)
Theorem drop_duplicates_keeps_first df :
  rows (drop_duplicates df)
  = omap id (imap (λ i r, if bool_decide (r ∈ take i (rows df)) then None else Some r)
               (rows df)).
Proof. apply (drop_seen_keeps []). Qed.

(** ** Each stage applied twice *)

Lemma address_filter_idem df : address_filter (address_filter df) = address_filter df.
Proof.
  apply address_filter_id. unfold address_present.
  rewrite !(has_col_columns _ _ df (address_filter_columns df)).
  intros Hp. split; apply address_filter_holds; try done; ss.
Qed.

Lemma address_stage_idem df df' :
  address_stage df = Ok df' → address_stage df' = Ok df'.
Proof.
  unfold address_stage. destruct (address_checks df) as [[]|]; [|done].
  intros [= <-]. rewrite address_filter_idem, address_checks_ok; [done|].
  unfold address_present.
  rewrite !(has_col_columns _ _ df (address_filter_columns df)).
  intros Hp. split; apply address_filter_holds; try done; ss.
Qed.

Lemma ip_stage_idem df : ip_stage (ip_stage df) = ip_stage df.
Proof.
  apply ip_stage_id. rewrite (has_col_columns _ _ df (ip_stage_columns df)).
  apply ip_stage_holds.
Qed.

Lemma risk_stage_idem df df' : risk_stage df = Ok df' → risk_stage df' = Ok df'.
Proof.
  intros H. apply risk_stage_id.
  rewrite (has_col_columns _ _ df (risk_stage_columns _ _ H)).
  by apply risk_stage_numeric.
Qed.

Lemma amount_stage_idem df df' : amount_stage df = Ok df' → amount_stage df' = Ok df'.
Proof.
  intros H. apply amount_stage_id.
  rewrite (has_col_columns _ _ df (amount_stage_columns _ _ H)).
  by apply amount_stage_settled.
Qed.

Lemma timestamp_stage_idem df :
  timestamp_stage (timestamp_stage df) = timestamp_stage df.
Proof.
  apply timestamp_stage_id.
  rewrite (has_col_columns _ _ df (timestamp_stage_columns df)).
  apply timestamp_stage_holds.
Qed.

Lemma region_stage_idem df :
  let stage df := if region_rebinds (region_lower df)
                  then region_filter (region_lower df) else region_lower df in
  stage (stage df) = stage df.
Proof.
  intros stage.
  assert (Hclean : has_col "location_region" (stage df) = true →
                   column_holds "location_region" region_clean (rows (stage df))).
  { unfold stage. intros Hc. apply region_rebound_holds.
    - by destruct (region_rebinds (region_lower df)).
    - apply region_lower_holds.
      rewrite <- (has_col_columns _ _ _ (region_lower_columns df)).
      by destruct (region_rebinds (region_lower df)). }
  unfold stage at 1. rewrite (region_lower_id _ Hclean).
  by rewrite (region_rebinds_cleaned _ Hclean).
Qed.

(** X19. Each stage of the cleaning, applied to what it returned, returns
    it again, on every table. *)
Theorem stages_idempotent df :
  (∀ df', address_stage df = Ok df' → address_stage df' = Ok df')
  ∧ address_filter (address_filter df) = address_filter df
  ∧ ip_stage (ip_stage df) = ip_stage df
  ∧ (∀ df', risk_stage df = Ok df' → risk_stage df' = Ok df')
  ∧ (∀ df', amount_stage df = Ok df' → amount_stage df' = Ok df')
  ∧ timestamp_stage (timestamp_stage df) = timestamp_stage df
  ∧ (let stage df := if region_rebinds (region_lower df)
                     then region_filter (region_lower df) else region_lower df in
     stage (stage df) = stage df)
  ∧ drop_duplicates (drop_duplicates df) = drop_duplicates df.
Proof.
  split; [apply address_stage_idem|].
  split; [apply address_filter_idem|]. split; [apply ip_stage_idem|].
  split; [apply risk_stage_idem|]. split; [apply amount_stage_idem|].
  split; [apply timestamp_stage_idem|]. split; [apply region_stage_idem|].
  apply drop_duplicates_id, drop_seen_NoDup.
Qed.

(** ** validate_data_quality *)

Lemma duplicated_none seen rs :
  length (filter (λ b, b = true) (duplicated seen rs)) = 0
  ↔ NoDup rs ∧ ∀ r, r ∈ rs → r ∉ seen.
Proof.
  revert seen. induction rs as [|x rs IH]; intros seen; simpl.
  - split; [intros _; split; [constructor | by intros r ?%elem_of_nil] | done].
  - rewrite filter_cons. case_bool_decide as Hx.
    + rewrite decide_True by done. simpl. split; [done|].
      intros [_ H]. destruct (H x); [left | done].
    + rewrite decide_False by done. rewrite IH, NoDup_cons. split.
      * intros [Hnd H]. split; [split; [|done]|].
        -- intros Hin. apply (H x Hin). left.
        -- intros r [->|Hr]%elem_of_cons; [done|]. intros Hs. apply (H r Hr). by right.
      * intros [[Hfresh Hnd] H]. split; [done|].
        intros r Hr [->|Hs]%elem_of_cons; [done|]. apply (H r); [by right | done].
Qed.

(** X20. The validator reports duplicate rows exactly when two rows of the
    table are equal, and then reports how many rows stage 7 would remove; a
    cleaned table is reported none. *)
Theorem validate_duplicates df :
  (duplicate_rows (validate_data_quality df) = None ↔ NoDup (rows df))
  ∧ (∀ n, duplicate_rows (validate_data_quality df) = Some n →
          0 < n ∧ n + length (rows (drop_duplicates df)) = length (rows df))
  ∧ (∀ df0, clean df0 = Ok df → duplicate_rows (validate_data_quality df) = None).
Proof.
  assert (Hiff : duplicate_rows (validate_data_quality df) = None ↔ NoDup (rows df)).
  { simpl. destruct (0 <? duplicate_count df) eqn:Hc.
    - apply Nat.ltb_lt in Hc. split; [done|]. intros Hnd.
      assert (H0 : duplicate_count df = 0); [|lia].
      apply duplicated_none. split; [done|]. intros r _. apply not_elem_of_nil.
    - apply Nat.ltb_ge in Hc. split; [|done]. intros _.
      assert (H0 : duplicate_count df = 0) by lia.
      by apply duplicated_none in H0 as [? _]. }
  split; [done|]. split.
  - simpl. intros n. destruct (0 <? duplicate_count df) eqn:Hc; [|done].
    intros [= <-]. apply Nat.ltb_lt in Hc. split; [done|]. apply drop_seen_duplicated.
  - intros df0 Hclean. apply Hiff. rewrite clean_cleaned_frame in Hclean.
    apply cleaned_frame_cleaned in Hclean. apply Hclean.
Qed.

Lemma elem_of_unique_from seen l x :
  x ∈ unique_from seen l ↔ x ∈ l ∧ x ∉ seen.
Proof.
  revert seen. induction l as [|y l IH]; intros seen; simpl.
  - split; [by intros ?%elem_of_nil | by intros [?%elem_of_nil _]].
  - case_bool_decide as Hy.
    + rewrite IH, elem_of_cons. split; [tt|]. intros [[->|?] ?]; tt.
    + rewrite !elem_of_cons, IH, elem_of_cons. split.
      * intros [->|[? ?]]; tt.
      * intros [[->|?] ?]; [tt|]. destruct (decide (x = y)); tt.
Qed.

Lemma elem_of_invalid_vals expected column val :
  val ∈ invalid_vals expected column
  ↔ (∃ v, v ∈ column ∧ astype_str v = val)
    ∧ (val ∉ expected) ∧ (val ∉ category_sentinels).
Proof.
  unfold invalid_vals.
  rewrite list_elem_of_filter, elem_of_unique_from, list_elem_of_fmap.
  split.
  - intros [[? ?] [(v & -> & ?) _]]. eauto.
  - intros [(v & ? & <-) [? ?]]. split; [done|]. split; [eauto|]. apply not_elem_of_nil.
Qed.

Lemma lowercase_not_expected s :
  lower s = s → s ∉ invalid_regions →
  (s ∉ ["North America"; "South America"; "Europe"; "Asia"; "Africa"])
  ∧ (s ∉ category_sentinels).
Proof.
  intros Hlow Hvalid. split.
  - intros Hin. repeat (apply elem_of_cons in Hin as [->|Hin]); try done.
    by apply elem_of_nil in Hin.
  - intros Hin. repeat (apply elem_of_cons in Hin as [->|Hin]); try done.
    + apply Hvalid. compute_done.
    + apply Hvalid. compute_done.
    + by apply elem_of_nil in Hin.
Qed.

(** X21. The validator expects the regions capitalised and stage 6 writes
    them in lower case: in a cleaned table that has a row and a
    location_region column, the validator reports every region as an invalid
    category. *)
Theorem validate_cleaned_regions df df' :
  clean df = Ok df' → has_col "location_region" df = true → rows df' ≠ [] →
  ∃ issues vals,
    invalid_categories (validate_data_quality df') = Some issues
    ∧ ("location_region", vals) ∈ issues
    ∧ ∀ r, r ∈ rows df' →
        ∃ s, r !! "location_region" = Some (CStr s) ∧ s ∈ vals.
Proof.
  intros Hclean Hc Hrows. pose proof (clean_columns _ _ Hclean) as Hcols.
  assert (Hc' : has_col "location_region" df' = true)
    by (unfold has_col in *; by rewrite Hcols).
  rewrite clean_cleaned_frame in Hclean. apply cleaned_frame_cleaned in Hclean.
  pose proof (cleaned_region _ Hclean Hc') as Hregion.
  set (vals := invalid_vals
                 ["North America"; "South America"; "Europe"; "Asia"; "Africa"]
                 (at_col "location_region" <$> rows df')).
  assert (Hvals : ∀ r, r ∈ rows df' →
            ∃ s, r !! "location_region" = Some (CStr s) ∧ s ∈ vals).
  { intros r Hr. destruct (Hregion r Hr) as (v & Hv & s & -> & Hlow & Hvalid).
    exists s. split; [done|]. apply elem_of_invalid_vals.
    destruct (lowercase_not_expected s Hlow Hvalid) as [? ?].
    split; [|done]. exists (CStr s). split; [|done].
    apply list_elem_of_fmap. exists r. split; [|done]. unfold at_col. by rewrite Hv. }
  assert (Hin : ("location_region", vals) ∈ categorical_issues df').
  { unfold categorical_issues. apply list_elem_of_omap.
    exists ("location_region",
            ["North America"; "South America"; "Europe"; "Asia"; "Africa"]).
    split; [unfold expected_categories; do 1 right; left|].
    simpl. rewrite Hc'. fold vals.
    destruct (rows df') as [|r rs] eqn:Erows; [done|].
    destruct (Hvals r) as (s & _ & Hs); [left|].
    destruct vals; [by apply elem_of_nil in Hs | done]. }
  exists (categorical_issues df'), vals. split; [|done].
  simpl. destruct (categorical_issues df'); [by apply elem_of_nil in Hin | done].
Qed.

(** ** post_processing_checks *)

Lemma select_raise mask rs e :
  select mask rs = Raise e → ∃ r, r ∈ rs ∧ mask r = Raise e.
Proof.
  induction rs as [|r rs IH]; [done|]. cbn [select].
  destruct (mask r) as [b|e'] eqn:Hm; simpl.
  - destruct (select mask rs) as [sel|e'] eqn:Hs; simpl; [done|].
    intros [= ->]. destruct IH as (r' & ? & ?); [done|]. exists r'. split; [by right|done].
  - intros [= ->]. exists r. split; [left|done].
Qed.

Lemma select_raises mask rs r e :
  r ∈ rs → mask r = Raise e → ∃ e', select mask rs = Raise e'.
Proof.
  induction rs as [|x rs IH]; intros Hr Hm; [by apply elem_of_nil in Hr|].
  cbn [select]. apply elem_of_cons in Hr as [->|Hr].
  - rewrite Hm. by exists e.
  - destruct (mask x); simpl; [|eauto]. destruct (IH Hr Hm) as [e' ->]. by exists e'.
Qed.

Lemma cmp_gt_raise k v e : cmp_gt k v = Raise e → e = TypeError ∧ ∃ s, v = CStr s.
Proof. destruct v; simpl; try done. intros [= <-]. eauto. Qed.

Lemma cmp_lt_raise k v e : cmp_lt k v = Raise e → e = TypeError ∧ ∃ s, v = CStr s.
Proof. destruct v; simpl; try done. intros [= <-]. eauto. Qed.

Lemma mismatch_mask_raise r e :
  mismatch_mask r = Raise e →
  e = TypeError ∧ ∃ s, at_col "risk_score" r = CStr s.
Proof.
  unfold mismatch_mask. destruct (cmp_gt _ _) eqn:E1; simpl.
  - destruct (cmp_lt _ _) eqn:E2; simpl; [done|]. intros [= ->].
    by apply cmp_lt_raise in E2.
  - intros [= ->]. by apply cmp_gt_raise in E1.
Qed.

Lemma suspicious_mask_raise r e :
  suspicious_mask r = Raise e → e = TypeError ∧ ∃ s, at_col "amount" r = CStr s.
Proof.
  unfold suspicious_mask. destruct (cmp_gt _ _) eqn:E1; simpl; [done|].
  intros [= ->]. by apply cmp_gt_raise in E1.
Qed.

Lemma tick_bounds n c :
  total_checks (tick n c) = total_checks c + 1
  ∧ checks_passed c ≤ checks_passed (tick n c) ≤ checks_passed c + 1.
Proof. unfold tick. simpl. case_match; lia. Qed.

Lemma post_processing_checks_steps df :
  post_processing_checks df
  = c ← guarded_check (has_col "risk_score" df && has_col "anomaly" df)
          mismatch_mask (rows df) (mkTally 0 0);
    c ← guarded_check (has_col "amount" df && has_col "age_group" df)
          suspicious_mask (rows df) c;
    c ← guarded_check (has_col "amount" df)
          (λ r, cmp_lt (Qc_of_Z 0) (at_col "amount" r)) (rows df) c;
    c ← guarded_check (has_col "session_duration" df)
          (λ r, cmp_gt (Qc_of_Z 500) (at_col "session_duration" r)) (rows df) c;
    Ok c.
Proof.
  unfold post_processing_checks, guarded_check, risk_anomaly_check.
  destruct (has_col "risk_score" df && has_col "anomaly" df); [|done].
  by destruct (select mismatch_mask (rows df)).
Qed.

Lemma bind_ok {A B} (m : result A) (f : A → result B) b :
  m ≫= f = Ok b → ∃ a, m = Ok a ∧ f a = Ok b.
Proof. destruct m as [a|e]; [|done]. intros H. by exists a. Qed.

Lemma bind_raise {A B} (m : result A) (f : A → result B) e :
  m ≫= f = Raise e → m = Raise e ∨ ∃ a, m = Ok a ∧ f a = Raise e.
Proof.
  destruct m as [a|e']; [|intros H; left; cbv in H; by injection H as ->].
  intros H. right. by exists a.
Qed.

Lemma guarded_check_ok applies mask rs c c' :
  guarded_check applies mask rs c = Ok c' →
  total_checks c' = total_checks c + (if applies then 1 else 0)
  ∧ checks_passed c ≤ checks_passed c'
  ∧ checks_passed c' ≤ checks_passed c + (if applies then 1 else 0).
Proof.
  unfold guarded_check. destruct applies; [|intros [= <-]; lia].
  intros (flagged & _ & [= <-])%bind_ok.
  pose proof (tick_bounds (length flagged) c). lia.
Qed.

Lemma guarded_check_raise applies mask rs c e :
  guarded_check applies mask rs c = Raise e →
  applies = true ∧ ∃ r, r ∈ rs ∧ mask r = Raise e.
Proof.
  unfold guarded_check. destruct applies; [|done].
  intros [H|(? & _ & ?)]%bind_raise; [|done]. split; [done|]. by apply select_raise.
Qed.

(** X22. When the consistency checks return, the number of checks counted
    is the number of checks whose columns the table has, at most four, and
    the number of checks passed is at most that number. *)
Theorem post_processing_checks_tally df c :
  post_processing_checks df = Ok c →
  total_checks c
  = (if has_col "risk_score" df && has_col "anomaly" df then 1 else 0)
    + (if has_col "amount" df && has_col "age_group" df then 1 else 0)
    + (if has_col "amount" df then 1 else 0)
    + (if has_col "session_duration" df then 1 else 0)
  ∧ checks_passed c ≤ total_checks c ≤ 4.
Proof.
  rewrite post_processing_checks_steps.
  intros (c1 & H1%guarded_check_ok & H)%bind_ok.
  apply bind_ok in H as (c2 & H2%guarded_check_ok & H).
  apply bind_ok in H as (c3 & H3%guarded_check_ok & H).
  apply bind_ok in H as (c4 & H4%guarded_check_ok & [= <-]).
  simpl in H1.
  destruct (has_col "risk_score" df && has_col "anomaly" df),
    (has_col "amount" df && has_col "age_group" df), (has_col "amount" df),
    (has_col "session_duration" df); lia.
Qed.

Lemma checks_raise_inv df e :
  post_processing_checks df = Raise e →
  e = TypeError
  ∧ ∃ col r s, col ∈ ["risk_score"; "amount"; "session_duration"]
               ∧ has_col col df = true ∧ r ∈ rows df ∧ at_col col r = CStr s.
Proof.
  rewrite post_processing_checks_steps.
  intros [H|(c1 & _ & H)]%bind_raise.
  { apply guarded_check_raise in H as [Hc (r & Hr & Hm)].
    apply mismatch_mask_raise in Hm as [-> [s Hs]]. split; [done|].
    apply andb_prop in Hc as [? _]. exists "risk_score", r, s. split; [ss|done]. }
  apply bind_raise in H as [H|(c2 & _ & H)].
  { apply guarded_check_raise in H as [Hc (r & Hr & Hm)].
    apply suspicious_mask_raise in Hm as [-> [s Hs]]. split; [done|].
    apply andb_prop in Hc as [? _]. exists "amount", r, s. split; [ss|done]. }
  apply bind_raise in H as [H|(c3 & _ & H)].
  { apply guarded_check_raise in H as [Hc (r & Hr & Hm)].
    apply cmp_lt_raise in Hm as [-> [s Hs]]. split; [done|].
    exists "amount", r, s. split; [ss|done]. }
  apply bind_raise in H as [H|(c4 & _ & H)]; [|done].
  apply guarded_check_raise in H as [Hc (r & Hr & Hm)].
  apply cmp_gt_raise in Hm as [-> [s Hs]]. split; [done|].
  exists "session_duration", r, s. split; [ss|done].
Qed.

(** X23. The consistency checks raise nothing but TypeError, and only on a
    table where a column they compare with a number (risk_score, amount or
    session_duration) holds a string. *)
Theorem post_processing_checks_raise df e :
  post_processing_checks df = Raise e →
  e = TypeError
  ∧ ∃ col r s, col ∈ ["risk_score"; "amount"; "session_duration"]
               ∧ has_col col df = true ∧ r ∈ rows df ∧ at_col col r = CStr s.
Proof. apply checks_raise_inv. Qed.

(** ** The checks on a cleaned table *)

Lemma checks_raise_on_text df r s :
  has_col "session_duration" df = true → r ∈ rows df →
  at_col "session_duration" r = CStr s →
  post_processing_checks df = Raise TypeError.
Proof.
  intros Hc Hr Hs.
  assert (∃ e, post_processing_checks df = Raise e) as [e He].
  { rewrite post_processing_checks_steps.
    destruct (guarded_check _ mismatch_mask _ _) as [c1|e1]; [|by eexists]. simpl.
    destruct (guarded_check _ suspicious_mask _ _) as [c2|e2]; [|by eexists]. simpl.
    destruct (guarded_check (has_col "amount" df) _ _ _) as [c3|e3]; [|by eexists].
    simpl. unfold guarded_check. rewrite Hc.
    destruct (select_raises
                (λ r, cmp_gt (Qc_of_Z 500) (at_col "session_duration" r))
                (rows df) r TypeError Hr) as [e' ->]; [|by eexists].
    simpl. by rewrite Hs. }
  rewrite He. f_equal. by apply checks_raise_inv in He as [-> _].
Qed.

(** X24. On a table the cleaning returned, the consistency checks can raise
    on the session_duration column only: the cleaning has left no string in
    risk_score or amount, and it never converts session_duration. *)
Theorem checks_after_cleaning df df' e :
  clean df = Ok df' → post_processing_checks df' = Raise e →
  e = TypeError ∧ has_col "session_duration" df' = true
  ∧ ∃ r s, r ∈ rows df' ∧ at_col "session_duration" r = CStr s.
Proof.
  intros Hclean (-> & col & r & s & Hcol & Hhas & Hr & Hs)%checks_raise_inv.
  split; [done|].
  destruct (decide (col = "session_duration")) as [->|Hne]; [eauto|].
  assert (Hc : col ∈ ["risk_score"; "amount"; "timestamp"]) by ss.
  destruct (clean_numeric _ _ col Hclean Hc Hhas r Hr) as (v & Hv & Hnum).
  unfold at_col in Hs. rewrite Hv in Hs. simpl in Hs. by subst v.
Qed.

(** ** run_enhanced_data_pipeline *)

Lemma pipeline_raise fs file_path e :
  pipeline_body fs file_path = Raise e →
  run_enhanced_data_pipeline fs file_path = (None, None, None).
Proof. unfold run_enhanced_data_pipeline. intros ->. by destruct e. Qed.

(** X25. When the cleaned table has a session_duration column with a string
    in it, the run returns no table and no report, although the cleaning
    itself succeeded: the check of the long sessions raises and the handler
    of the function discards the cleaned table. *)
Theorem pipeline_text_session fs file_path df df' r s :
  read_csv fs file_path = Ok df → clean df = Ok df' →
  has_col "session_duration" df' = true → r ∈ rows df' →
  at_col "session_duration" r = CStr s →
  run_enhanced_data_pipeline fs file_path = (None, None, None).
Proof.
  intros Hread Hclean Hc Hr Hs.
  assert (∃ e, pipeline_body fs file_path = Raise e) as [e He];
    [|by eapply pipeline_raise].
  unfold pipeline_body. rewrite Hread. simpl.
  destruct (console_scans df); [|by eexists]. simpl. rewrite Hclean. simpl.
  destruct (length (rows df) =? 0); [by eexists|]. simpl.
  rewrite (checks_raise_on_text df' r s) by done. by eexists.
Qed.

(** X26. A file that holds a header and no record gives no table, no report
    and no saved file: the cleaning raises on the division by the number of
    records, if the scans before it have not raised already. *)
Theorem pipeline_header_only fs file_path df :
  read_csv fs file_path = Ok df → rows df = [] →
  run_enhanced_data_pipeline fs file_path = (None, None, None)
  ∧ save_df_clean (run_enhanced_data_pipeline fs file_path).1.1 fs = fs.
Proof.
  intros Hread Hrows.
  assert (run_enhanced_data_pipeline fs file_path = (None, None, None)) as ->;
    [|done].
  assert (∃ e, pipeline_body fs file_path = Raise e) as [e He];
    [|by eapply pipeline_raise].
  unfold pipeline_body. rewrite Hread. simpl.
  destruct (console_scans df); [|by eexists]. simpl.
  rewrite clean_cleaned_frame, cleaned_frame_no_rows by done. by eexists.
Qed.

(** X27. When the run returns a table, the file exists and was read as a
    table with at least one record, the table returned is the cleaning of
    that table, the consistency checks on it raised nothing, and the two
    reports are those of the cleaned table. *)
Theorem pipeline_returns fs file_path df' t1 t2 :
  run_enhanced_data_pipeline fs file_path = (Some df', t1, t2) →
  ∃ text df c,
    fs !! file_path = Some text ∧ parse_csv text = Ok df ∧ rows df ≠ []
    ∧ clean df = Ok df' ∧ post_processing_checks df' = Ok c
    ∧ t1 = tabela1 df' ∧ t2 = tabela2 df'.
Proof.
  intros H%pipeline_success. unfold pipeline_body in H.
  apply bind_ok in H as (df & Hread & H).
  apply bind_ok in H as (_u & _ & H).
  apply bind_ok in H as (d & Hclean & H).
  apply bind_ok in H as (_v & _ & H).
  apply bind_ok in H as (c & Hchecks & [= -> <- <-]).
  unfold read_csv in Hread. destruct (fs !! file_path) as [text|] eqn:Hfs; [|done].
  exists text, df, c. repeat split; try done.
  intros Hrows. rewrite clean_cleaned_frame, cleaned_frame_no_rows in Hclean; done.
Qed.

(** ** save_df_clean and the script *)

(** X28. The script changes no file but the output file, and the output
    file only to the text of the cleaning of the table read from the source
    file. *)
Theorem main_files fs p :
  p ≠ output_path →
  main fs !! p = fs !! p
  ∧ (main fs = fs
     ∨ ∃ text df df',
         fs !! source_path = Some text ∧ parse_csv text = Ok df
         ∧ clean df = Ok df' ∧ main fs = <[output_path := to_csv df']> fs).
Proof.
  intros Hp. unfold main.
  destruct (run_enhanced_data_pipeline fs source_path) as [[[d|] t1] t2] eqn:Hrun;
    simpl; [|by split; [|left]].
  split; [by rewrite lookup_insert_ne|]. right.
  apply pipeline_success in Hrun. unfold pipeline_body in Hrun.
  apply bind_ok in Hrun as (df & Hread & H).
  apply bind_ok in H as (_u & _ & H).
  apply bind_ok in H as (d' & Hclean & H).
  apply bind_ok in H as (_v & _ & H).
  apply bind_ok in H as (c & _ & [= -> _ _]).
  unfold read_csv in Hread. destruct (fs !! source_path) as [text|]; [|done].
  by exists text, df, d.
Qed.

(** ** Tabela 2 *)

Lemma at_col_select_columns cs c r :
  c ∈ cs → at_col c (select_columns cs r) = at_col c r.
Proof.
  intros Hc. unfold at_col, select_columns. f_equal.
  destruct (r !! c) as [v|] eqn:Hv.
  - by apply map_lookup_filter_Some.
  - apply map_lookup_filter_None. left. done.
Qed.

Lemma select_columns_lookup cs c r :
  c ∉ cs → select_columns cs r !! c = None.
Proof.
  intros Hc. unfold select_columns. apply map_lookup_filter_None.
  right. intros v _. done.
Qed.

Lemma latest_sales_sale df r :
  r ∈ latest_sales df →
  r ∈ rows df ∧ at_col "transaction_type" r = CStr "sale".
Proof.
  unfold latest_sales. intros Hr%keep_last_by_subseteq.
  rewrite sort_by_timestamp_perm in Hr.
  apply list_elem_of_filter in Hr as [Hs Hr]. by apply is_sale_true in Hs.
Qed.

(** X29. On any table, cleaned or not, the report of the top sale addresses,
    when there is one, has the three columns of the report and at most three
    rows; no two of its rows have the same receiving address; and each row
    is a sale row of the table cut down to the three columns. *)
Theorem tabela2_shape df t :
  tabela2 df = Some t →
  columns t = report_columns ∧ length (rows t) ≤ 3
  ∧ NoDup (at_col "receiving_address" <$> rows t)
  ∧ ∀ r, r ∈ rows t →
      (∀ c, c ∉ report_columns → r !! c = None)
      ∧ ∃ r0, r0 ∈ rows df ∧ at_col "transaction_type" r0 = CStr "sale"
              ∧ r = select_columns report_columns r0.
Proof.
  unfold tabela2. destruct (forallb _ _); [|done].
  destruct (0 <? _).
  2:{ intros [= <-]. simpl. split; [done|]. split; [lia|].
      split; [apply NoDup_nil_2|]. intros r Hr. by apply elem_of_nil in Hr. }
  set (latest := latest_sales df).
  assert (Hshape : ∀ l, l ⊆ latest → NoDup (at_col "receiving_address" <$> l) →
            length l ≤ 3 →
            let t := mkDataFrame report_columns (select_columns report_columns <$> l) in
            columns t = report_columns ∧ length (rows t) ≤ 3
            ∧ NoDup (at_col "receiving_address" <$> rows t)
            ∧ ∀ r, r ∈ rows t →
                (∀ c, c ∉ report_columns → r !! c = None)
                ∧ ∃ r0, r0 ∈ rows df ∧ at_col "transaction_type" r0 = CStr "sale"
                        ∧ r = select_columns report_columns r0).
  { intros l Hsub Hnd Hlen. simpl. split; [done|]. split; [by rewrite length_fmap|].
    split.
    - rewrite <- list_fmap_compose.
      erewrite list_fmap_ext; [exact Hnd|]. intros i r _. simpl.
      apply at_col_select_columns. unfold report_columns. ss.
    - intros r (r0 & -> & Hr0)%list_elem_of_fmap. split.
      + intros c Hc. by apply select_columns_lookup.
      + exists r0. apply Hsub, latest_sales_sale in Hr0. ns. }
  destruct (3 <=? length latest) eqn:Hlen; intros [= <-].
  - apply Hshape.
    + intros r (i & Hr%list_elem_of_lookup_2 & _)%elem_of_take.
      unfold latest. by rewrite <- (sort_desc_perm (latest_sales df)).
    + unfold nlargest. rewrite fmap_take.
      eapply sublist_NoDup; [|apply sublist_take].
      rewrite (sort_desc_perm latest). apply keep_last_by_NoDup.
    + unfold nlargest. rewrite length_take. lia.
  - apply Hshape; [done | apply keep_last_by_NoDup |].
    apply Nat.leb_gt in Hlen. lia.
Qed.

(** ** validate_data_quality: the missing values *)

Lemma filter_none {A} (P : A → Prop) `{!∀ x, Decision (P x)} (l : list A) :
  (∀ x, x ∈ l → ¬ P x) → filter P l = [].
Proof.
  induction l as [|x l IH]; intros Hall; [done|].
  rewrite filter_cons_False by (apply Hall; left).
  apply IH. intros y Hy. apply Hall. by right.
Qed.

(** X30. The validator reports missing values exactly when some cell of
    some column of the table is missing. *)
Theorem validate_missing df :
  missing_values (validate_data_quality df) = None
  ↔ ∀ c r, c ∈ columns df → r ∈ rows df → isna (at_col c r) = false.
Proof.
  simpl. unfold missing_data. split.
  - intros H c r Hc Hr.
    destruct (filter _ _) as [|x l] eqn:E; [|done].
    pose proof (filter_nil_not_elem_of _ _
                  (c, mask_sum (λ r, isna (at_col c r)) (rows df)) E) as Hnot.
    simpl in Hnot.
    destruct (decide (0 < mask_sum (λ r, isna (at_col c r)) (rows df))) as [Hpos|Hz].
    + exfalso. apply Hnot; [done|]. apply list_elem_of_fmap. by exists c.
    + apply (mask_sum_0 (λ r, isna (at_col c r)) (rows df)); [lia|done].
  - intros H. rewrite filter_none; [done|].
    intros [c n] (c' & [= -> ->] & Hc)%list_elem_of_fmap. simpl.
    assert (mask_sum (λ r, isna (at_col c' r)) (rows df) = 0) as ->; [|lia].
    unfold mask_sum. rewrite filter_none; [done|].
    intros r Hr. by rewrite (H c' r Hc Hr).
Qed.

End Pipeline.

(** * Worked examples

    The parameters are instantiated with the reader and the printer of
    decimal literals. *)

Definition row_of (cells : list (string * cell)) : row := list_to_map cells.

Definition num (z : Z) : cell := CNum (Qc_of_Z z).

(** ** Stage 1 *)

Definition address_a : string := "0x00000000000000000000000000000000000000aa".
Definition address_b : string := "0x00000000000000000000000000000000000000bb".
Definition address_short : string := "0x0000000000000000000000000000000000000cc".

Definition df_addresses : DataFrame :=
  mkDataFrame ["sending_address"; "receiving_address"]
    [ row_of [("sending_address", CStr address_a); ("receiving_address", CStr address_b)];
      row_of [("sending_address", CStr address_short); ("receiving_address", CStr address_b)];
      row_of [("sending_address", CStr address_b); ("receiving_address", CNaN)] ].

Lemma address_stage_retains_witness :
  address_present df_addresses = true
  ∧ (string_column "sending_address" (rows df_addresses)
     ∧ string_column "receiving_address" (rows df_addresses) →
     address_stage df_addresses
     = Ok (mkDataFrame (columns df_addresses)
             (filter valid_addresses (rows df_addresses))))
  ∧ (¬ (string_column "sending_address" (rows df_addresses)
        ∧ string_column "receiving_address" (rows df_addresses)) →
     address_stage df_addresses = Raise AttributeError).
Proof.
  split; [reflexivity|]. apply address_stage_retains. reflexivity.
Defined.

Example address_stage_example :
  String.length address_short = 41
  ∧ address_stage df_addresses
    = Ok (mkDataFrame ["sending_address"; "receiving_address"]
            [ row_of [("sending_address", CStr address_a);
                      ("receiving_address", CStr address_b)] ]).
Proof. split; [reflexivity | compute_done]. Qed.

(** A table as [read_csv] makes it of a file whose sending addresses are
    numbers: a column of numbers. *)
Definition df_numeric_addresses : DataFrame :=
  mkDataFrame ["sending_address"; "receiving_address"]
    [ row_of [("sending_address", num 1); ("receiving_address", CStr address_b)];
      row_of [("sending_address", num 2); ("receiving_address", CStr address_a)] ].

(** C4, the code at the failing input: no row has a well-formed sending
    address, so that the claim has every row dropped and the empty table
    come out; the accessor of line 143 raises instead, and the cleaning
    returns no table. *)
Lemma address_stage_raises_on_numbers :
  address_present df_numeric_addresses = true
  ∧ filter valid_addresses (rows df_numeric_addresses) = []
  ∧ address_stage df_numeric_addresses = Raise AttributeError
  ∧ clean decimal_literal show_number decimal_literal df_numeric_addresses
    = Raise AttributeError.
Proof.
  split; [reflexivity|]. split; [compute_done|]. split; compute_done.
Qed.

(** ** Stage 2 *)

Definition df_ip : DataFrame :=
  mkDataFrame ["ip_prefix"]
    [ row_of [("ip_prefix", CStr "NONE")];
      row_of [("ip_prefix", CStr "none")];
      row_of [("ip_prefix", num 0)];
      row_of [("ip_prefix", CStr "192.168")] ].

Example ip_stage_example :
  rows (ip_stage show_number df_ip)
  = [ row_of [("ip_prefix", CStr "NONE")];
      row_of [("ip_prefix", CStr "INVALID_IP")];
      row_of [("ip_prefix", CStr "INVALID_IP")];
      row_of [("ip_prefix", CStr "192.168")] ].
Proof. compute_done. Qed.

(** C3, as stated, fails: NONE equals none when case is ignored, and stage 2
    leaves it as it is. *)
Lemma ip_stage_is_case_sensitive : ¬ ip_stage_ignores_case show_number df_ip.
Proof.
  intros H. destruct (H 0 (row_of [("ip_prefix", CStr "NONE")]) eq_refl)
    as (r' & Hr' & Hcell).
  vm_compute in Hr'. injection Hr' as <-. vm_compute in Hcell. discriminate.
Qed.

Lemma ip_stage_rewrites_witness :
  has_col "ip_prefix" df_ip = true
  ∧ length (rows (ip_stage show_number df_ip)) = length (rows df_ip)
  ∧ ∀ i r, rows df_ip !! i = Some r →
      ∃ r', rows (ip_stage show_number df_ip) !! i = Some r'
            ∧ r' !! "ip_prefix"
              = Some (ip_rewritten show_number (at_col "ip_prefix" r))
            ∧ ∀ c, c ≠ "ip_prefix" → r' !! c = r !! c.
Proof.
  split; [reflexivity|]. apply ip_stage_rewrites. reflexivity.
Defined.

(** ** Stages 3 and 4 *)

(** The example of the specification: region A holds 10, 20 and a missing
    entry, region B a missing entry only. *)
Definition df_regions : DataFrame :=
  mkDataFrame ["location_region"; "risk_score"]
    [ row_of [("location_region", CStr "A"); ("risk_score", CStr "10")];
      row_of [("location_region", CStr "A"); ("risk_score", CStr "20")];
      row_of [("location_region", CStr "A"); ("risk_score", CStr "none")];
      row_of [("location_region", CStr "B"); ("risk_score", CStr "")] ].

Example risk_stage_example :
  risk_stage decimal_literal df_regions
  = Ok (mkDataFrame ["location_region"; "risk_score"]
          [ row_of [("location_region", CStr "A"); ("risk_score", num 10)];
            row_of [("location_region", CStr "A"); ("risk_score", num 20)];
            row_of [("location_region", CStr "A"); ("risk_score", num 15)];
            row_of [("location_region", CStr "B"); ("risk_score", num 15)] ]).
Proof. compute_done. Qed.

(** A table without any of the five sentinel strings: one risk_score, and
    one amount, that cannot be read as a number, in a region that has a
    value. *)
Definition df_unreadable : DataFrame :=
  mkDataFrame ["location_region"; "risk_score"; "amount"]
    [ row_of [("location_region", CStr "A"); ("risk_score", CStr "10");
              ("amount", CStr "10")];
      row_of [("location_region", CStr "A"); ("risk_score", CStr "abc");
              ("amount", CStr "abc")] ].

(** C1, the code at the failing input: the conversion of abc fails, region A
    has the median 10, and stage 3 leaves the entry missing. *)
Lemma risk_stage_leaves_unreadable_missing :
  to_numeric decimal_literal (CStr "abc") = CNaN
  ∧ median [num 10; CNaN] = num 10
  ∧ risk_stage decimal_literal df_unreadable
    = Ok (mkDataFrame ["location_region"; "risk_score"; "amount"]
            [ row_of [("location_region", CStr "A"); ("risk_score", num 10);
                      ("amount", CStr "10")];
              row_of [("location_region", CStr "A"); ("risk_score", CNaN);
                      ("amount", CStr "abc")] ]).
Proof. split; [reflexivity|]. split; compute_done. Qed.

(** C2, the code at the failing input: on the same text stage 4 imputes the
    amount, and the procedure of stage 3 applied to the amount column would
    not. *)
Lemma amount_stage_differs_from_risk_procedure :
  amount_stage decimal_literal df_unreadable
  = Ok (mkDataFrame ["location_region"; "risk_score"; "amount"]
          [ row_of [("location_region", CStr "A"); ("risk_score", CStr "10");
                    ("amount", num 10)];
            row_of [("location_region", CStr "A"); ("risk_score", CStr "abc");
                    ("amount", num 10)] ])
  ∧ risk_procedure_on decimal_literal "amount" df_unreadable
    = Ok (mkDataFrame ["location_region"; "risk_score"; "amount"]
            [ row_of [("location_region", CStr "A"); ("risk_score", CStr "10");
                      ("amount", num 10)];
              row_of [("location_region", CStr "A"); ("risk_score", CStr "abc");
                      ("amount", CNaN)] ])
  ∧ amount_stage decimal_literal df_unreadable
    ≠ risk_procedure_on decimal_literal "amount" df_unreadable.
Proof. split; [compute_done|]. split; compute_done. Qed.

(** ** Validation *)

Definition df_amounts : DataFrame :=
  mkDataFrame ["amount"]
    [ row_of [("amount", CStr "-5")];
      row_of [("amount", CStr "abc")];
      row_of [("amount", CStr "2000000")];
      row_of [("amount", CStr "10")] ].

Definition df_abc : DataFrame :=
  mkDataFrame ["amount"] [ row_of [("amount", CStr "abc")] ].

(** C5, as stated, fails: the amount abc fails the conversion and nothing
    is reported. *)
Lemma conversion_failure_not_reported :
  ¬ conversion_failures_reported decimal_literal df_abc.
Proof.
  intros H.
  destruct (H "amount" (Qc_of_Z 0, Qc_of_Z 1000000)
              (row_of [("amount", CStr "abc")])) as (issues & Hsome & _).
  - compute_done.
  - reflexivity.
  - compute_done.
  - by exists "abc".
  - vm_compute in Hsome. discriminate.
Qed.

Lemma range_issues_counts_witness :
  ("amount", (Qc_of_Z 0, Qc_of_Z 1000000)) ∈ numeric_checks
  ∧ has_col "amount" df_amounts = true
  ∧ range_issues decimal_literal df_amounts !! "amount"
    = match length (filter (outside decimal_literal (Qc_of_Z 0) (Qc_of_Z 1000000))
                      (at_col "amount" <$> rows df_amounts)) with
      | 0 => None
      | S n => Some (OutOfRange (S n))
      end
  ∧ (∀ c, fails_conversion decimal_literal c
          → ¬ outside decimal_literal (Qc_of_Z 0) (Qc_of_Z 1000000) c)
  ∧ ∀ c, range_issues decimal_literal df_amounts !! c ≠ Some ConversionError.
Proof.
  split; [compute_done|]. split; [reflexivity|].
  apply range_issues_counts; [compute_done | reflexivity].
Defined.

Example range_issues_example :
  range_issues decimal_literal df_amounts = {[ "amount" := OutOfRange 2 ]}.
Proof. compute_done. Qed.

(** ** The consistency check *)

Definition df_scores : DataFrame :=
  mkDataFrame ["risk_score"; "anomaly"]
    [ row_of [("risk_score", CStr "90"); ("anomaly", CStr "low_risk")];
      row_of [("risk_score", CStr "50"); ("anomaly", CStr "low_risk")];
      row_of [("risk_score", CStr "10"); ("anomaly", CStr "high_risk")] ].

Definition df_scores_cleaned : DataFrame :=
  mkDataFrame ["risk_score"; "anomaly"]
    [ row_of [("risk_score", num 90); ("anomaly", CStr "low_risk")];
      row_of [("risk_score", num 50); ("anomaly", CStr "low_risk")];
      row_of [("risk_score", num 10); ("anomaly", CStr "high_risk")] ].


Example risk_anomaly_check_example :
  risk_anomaly_check df_scores_cleaned (mkTally 0 0)
  = Ok ([ row_of [("risk_score", num 90); ("anomaly", CStr "low_risk")];
          row_of [("risk_score", num 10); ("anomaly", CStr "high_risk")] ],
        mkTally 0 1).
Proof. compute_done. Qed.

(** ** Cleaning twice *)

Definition df_one_short : DataFrame :=
  mkDataFrame ["sending_address"; "receiving_address"]
    [ row_of [("sending_address", CStr address_short);
              ("receiving_address", CStr address_b)] ].

(** C7, the code at the failing input: the only row has a sending address of
    41 characters, the cleaned table is empty, and cleaning the cleaned table
    raises on the retention rate it prints. *)
Lemma clean_twice_raises :
  clean decimal_literal show_number decimal_literal df_one_short
  = Ok (mkDataFrame ["sending_address"; "receiving_address"] [])
  ∧ clean decimal_literal show_number decimal_literal
      (mkDataFrame ["sending_address"; "receiving_address"] [])
    = Raise ZeroDivisionError.
Proof. split; compute_done. Qed.

(** ** The caller's table *)

Lemma enhanced_data_cleaning_frame_witness :
  ({[0 := df_addresses]} : gmap loc DataFrame) !! 0 = Some df_addresses
  ∧ ∃ r σ',
      enhanced_data_cleaning decimal_literal show_number decimal_literal 0
        {[0 := df_addresses]} = (r, σ')
      ∧ σ' !! 0 = Some df_addresses
      ∧ (∀ l, l ∈ dom ({[0 := df_addresses]} : gmap loc DataFrame) →
              σ' !! l = ({[0 := df_addresses]} : gmap loc DataFrame) !! l)
      ∧ match r with
        | Ok l' =>
            (l' ∉ dom ({[0 := df_addresses]} : gmap loc DataFrame)) ∧ l' ≠ 0
            ∧ ∃ t', σ' !! l' = Some t'
                    ∧ clean decimal_literal show_number decimal_literal df_addresses
                      = Ok t'
        | Raise e =>
            clean decimal_literal show_number decimal_literal df_addresses = Raise e
        end.
Proof.
  split; [reflexivity|]. apply enhanced_data_cleaning_frame. reflexivity.
Defined.

(** ** The fatal path *)

Definition no_csv (text : string) : result DataFrame :=
  Raise (OtherError "EmptyDataError").

Lemma pipeline_fatal_path_witness :
  ((∅ : gmap string string) !! "data/df_fraud_credit.csv" = None
   ∨ ∃ e, pipeline_body decimal_literal show_number decimal_literal no_csv unit
            (λ _, ()) (λ _, Ok ()) ∅ "data/df_fraud_credit.csv" = Raise e)
  ∧ run_enhanced_data_pipeline decimal_literal show_number decimal_literal no_csv
      unit (λ _, ()) (λ _, Ok ()) ∅ "data/df_fraud_credit.csv"
    = (None, None, None)
  ∧ save_df_clean (λ _, "")
      (run_enhanced_data_pipeline decimal_literal show_number decimal_literal no_csv
         unit (λ _, ()) (λ _, Ok ()) ∅ "data/df_fraud_credit.csv").1.1 ∅
    = ∅
  ∧ ∀ df t1 t2,
      run_enhanced_data_pipeline decimal_literal show_number decimal_literal no_csv
        unit (λ _, ()) (λ _, Ok ()) ∅ "data/df_fraud_credit.csv"
      ≠ (Some df, t1, t2).
Proof.
  split; [left; reflexivity|]. apply pipeline_fatal_path. left. reflexivity.
Defined.

(** ** The top sale addresses *)

Definition sale_row (address : string) (amount timestamp : cell) : row :=
  row_of [("transaction_type", CStr "sale"); ("receiving_address", CStr address);
          ("amount", amount); ("timestamp", timestamp)].

Definition sale_columns : list string :=
  ["transaction_type"; "receiving_address"; "amount"; "timestamp"].

(** Two sales to one address: one at the instant 100, one without a
    timestamp. *)
Definition df_missing_timestamp : DataFrame :=
  mkDataFrame sale_columns
    [ sale_row "a" (num 5) (num 100);
      sale_row "a" (num 7) CNaN ].

(** C9, as stated, fails: the table is a cleaned table, and the row that
    takes part for the address is the one without a timestamp, not the one
    with the largest timestamp. *)
Lemma latest_sale_may_lack_timestamp :
  clean decimal_literal show_number decimal_literal df_missing_timestamp
  = Ok df_missing_timestamp
  ∧ tabela2 df_missing_timestamp
    = Some (mkDataFrame report_columns
              [ row_of [("receiving_address", CStr "a"); ("amount", num 7);
                        ("timestamp", CNaN)] ])
  ∧ ¬ latest_has_largest_timestamp df_missing_timestamp.
Proof.
  split; [compute_done|]. split; [compute_done|].
  intros H.
  destruct (H (sale_row "a" (num 7) CNaN) (sale_row "a" (num 5) (num 100))
              (Qc_of_Z 100)) as (t & Ht & _).
  - compute_done.
  - compute_done.
  - reflexivity.
  - reflexivity.
  - reflexivity.
  - vm_compute in Ht. discriminate.
Qed.

Definition df_sales : DataFrame :=
  mkDataFrame sale_columns
    [ sale_row "a" (num 10) (num 1);
      sale_row "a" (num 30) (num 2);
      sale_row "b" (num 30) (num 1);
      sale_row "c" (num 20) (num 3);
      row_of [("transaction_type", CStr "purchase"); ("receiving_address", CStr "e");
              ("amount", num 99); ("timestamp", num 4)];
      sale_row "d" (num 5) (num 5) ].

(** Four sales of one amount: the ranking keeps them in ascending order of
    timestamp, and the first three make the report. *)
Definition df_equal_amounts : DataFrame :=
  mkDataFrame sale_columns
    [ sale_row "d" (num 30) (num 4);
      sale_row "b" (num 30) (num 2);
      sale_row "a" (num 30) (num 1);
      sale_row "c" (num 30) (num 3) ].

Example tabela2_equal_amounts :
  tabela2 df_equal_amounts
  = Some (mkDataFrame report_columns
            [ row_of [("receiving_address", CStr "a"); ("amount", num 30);
                      ("timestamp", num 1)];
              row_of [("receiving_address", CStr "b"); ("amount", num 30);
                      ("timestamp", num 2)];
              row_of [("receiving_address", CStr "c"); ("amount", num 30);
                      ("timestamp", num 3)] ]).
Proof. compute_done. Qed.

Example tabela2_example :
  tabela2 df_sales
  = Some (mkDataFrame report_columns
            [ row_of [("receiving_address", CStr "b"); ("amount", num 30);
                      ("timestamp", num 1)];
              row_of [("receiving_address", CStr "a"); ("amount", num 30);
                      ("timestamp", num 2)];
              row_of [("receiving_address", CStr "c"); ("amount", num 20);
                      ("timestamp", num 3)] ]).
Proof. compute_done. Qed.

Lemma tabela2_top_sales_witness :
  clean decimal_literal show_number decimal_literal df_sales = Ok df_sales
  ∧ forallb (λ c, has_col c df_sales) sale_columns = true
  ∧ let sales :=
      filter (λ r, at_col "transaction_type" r = CStr "sale") (rows df_sales) in
    ∃ sorted latest ranked,
      tabela2 df_sales
      = Some (mkDataFrame report_columns
                (select_columns report_columns
                 <$> (if 3 <=? length latest then take 3 ranked else latest)))
      ∧ sorted ≡ₚ sales
      ∧ StronglySorted ts_le sorted
      ∧ ((∀ r1 r2, r1 ∈ sales → r2 ∈ sales → ts_le r1 r2 → ts_le r2 r1 → r1 = r2) →
         ∀ sorted', sorted' ≡ₚ sales → StronglySorted ts_le sorted' →
                    sorted' = sorted)
      ∧ latest
        = omap id
            (imap (λ i r,
                     if bool_decide
                          (at_col "receiving_address" r
                           ∈ (at_col "receiving_address" <$> drop (S i) sorted))
                     then None else Some r) sorted)
      ∧ (∀ ranked',
           StronglySorted (flip amount_le) ranked' →
           (∀ k, filter (λ r, num_key (at_col "amount" r) = k) ranked'
                 = filter (λ r, num_key (at_col "amount" r) = k) latest) →
           ranked' = ranked)
      ∧ (sales = [] → latest = [])
      ∧ latest ⊆ sales
      ∧ NoDup (at_col "receiving_address" <$> latest)
      ∧ (∀ r, r ∈ sales →
           numeric_cell (at_col "timestamp" r) ∧ numeric_cell (at_col "amount" r)
           ∧ ∃ r', r' ∈ latest
                   ∧ at_col "receiving_address" r' = at_col "receiving_address" r
                   ∧ ts_le r r')
      ∧ ranked ≡ₚ latest
      ∧ StronglySorted (flip amount_le) ranked
      ∧ ∀ k, filter (λ r, num_key (at_col "amount" r) = k) ranked
             = filter (λ r, num_key (at_col "amount" r) = k) latest.
Proof.
  assert (Hclean : clean decimal_literal show_number decimal_literal df_sales
                   = Ok df_sales) by compute_done.
  split; [exact Hclean|]. split; [reflexivity|].
  exact (tabela2_top_sales decimal_literal show_number decimal_literal
           df_sales df_sales Hclean eq_refl).
Defined.

(** ** The cleaned table *)

Definition df_addresses_cleaned : DataFrame :=
  mkDataFrame ["sending_address"; "receiving_address"]
    [ row_of [("sending_address", CStr address_a); ("receiving_address", CStr address_b)] ].

Definition df_ip_cleaned : DataFrame :=
  mkDataFrame ["ip_prefix"]
    [ row_of [("ip_prefix", CStr "NONE")];
      row_of [("ip_prefix", CStr "INVALID_IP")];
      row_of [("ip_prefix", CStr "192.168")] ].

Definition df_places : DataFrame :=
  mkDataFrame ["location_region"]
    [ row_of [("location_region", CStr "Europe")];
      row_of [("location_region", CStr "NONE")];
      row_of [("location_region", CStr "europe")];
      row_of [("location_region", CStr "Asia")] ].

Definition df_places_cleaned : DataFrame :=
  mkDataFrame ["location_region"]
    [ row_of [("location_region", CStr "europe")];
      row_of [("location_region", CStr "asia")] ].

Definition df_region_amounts : DataFrame :=
  mkDataFrame ["location_region"; "amount"]
    [ row_of [("location_region", CStr "A"); ("amount", CStr "10")];
      row_of [("location_region", CStr "A"); ("amount", CStr "none")];
      row_of [("location_region", CStr "B"); ("amount", CStr "30")];
      row_of [("location_region", CStr "A"); ("amount", CStr "10")] ].

Definition df_region_amounts_cleaned : DataFrame :=
  mkDataFrame ["location_region"; "amount"]
    [ row_of [("location_region", CStr "a"); ("amount", num 10)];
      row_of [("location_region", CStr "b"); ("amount", num 30)] ].

Lemma clean_fixes_cleaned_witness :
  clean decimal_literal show_number decimal_literal df_region_amounts
  = Ok df_region_amounts_cleaned
  ∧ rows df_region_amounts_cleaned ≠ []
  ∧ ((∀ r, r ∈ rows df_region_amounts_cleaned → ∃ q, at_col "amount" r = CNum q)
     ∨ (∀ r, r ∈ rows df_region_amounts_cleaned → at_col "amount" r = CNaN))
  ∧ clean decimal_literal show_number decimal_literal df_region_amounts_cleaned
    = Ok df_region_amounts_cleaned.
Proof.
  assert (Hclean : clean decimal_literal show_number decimal_literal
                     df_region_amounts
                   = Ok df_region_amounts_cleaned) by compute_done.
  assert (Hrows : rows df_region_amounts_cleaned ≠ []) by discriminate.
  assert (Hamounts : (∀ r, r ∈ rows df_region_amounts_cleaned
                           → ∃ q, at_col "amount" r = CNum q)
                     ∨ (∀ r, r ∈ rows df_region_amounts_cleaned
                             → at_col "amount" r = CNaN)).
  { left. intros r Hr. simpl in Hr.
    repeat (apply elem_of_cons in Hr as [->|Hr]; [by eexists|]).
    by apply elem_of_nil in Hr. }
  split; [exact Hclean|]. split; [exact Hrows|]. split; [exact Hamounts|].
  exact (clean_fixes_cleaned decimal_literal show_number decimal_literal
           df_region_amounts df_region_amounts_cleaned Hclean Hrows Hamounts).
Defined.

Lemma clean_no_rows_raises_witness :
  rows (mkDataFrame ["amount"; "timestamp"] []) = []
  ∧ clean decimal_literal show_number decimal_literal
      (mkDataFrame ["amount"; "timestamp"] [])
    = Raise ZeroDivisionError.
Proof.
  split; [reflexivity|].
  exact (clean_no_rows_raises decimal_literal show_number decimal_literal
           (mkDataFrame ["amount"; "timestamp"] []) eq_refl).
Defined.

Lemma clean_keeps_shape_witness :
  clean decimal_literal show_number decimal_literal df_region_amounts
  = Ok df_region_amounts_cleaned
  ∧ columns df_region_amounts_cleaned = columns df_region_amounts
  ∧ length (rows df_region_amounts_cleaned) ≤ length (rows df_region_amounts).
Proof.
  assert (Hclean : clean decimal_literal show_number decimal_literal df_region_amounts
                   = Ok df_region_amounts_cleaned) by compute_done.
  split; [exact Hclean|].
  exact (clean_keeps_shape decimal_literal show_number decimal_literal
           df_region_amounts df_region_amounts_cleaned Hclean).
Defined.

Lemma clean_rows_distinct_witness :
  clean decimal_literal show_number decimal_literal df_region_amounts
  = Ok df_region_amounts_cleaned
  ∧ NoDup (rows df_region_amounts_cleaned).
Proof.
  assert (Hclean : clean decimal_literal show_number decimal_literal df_region_amounts
                   = Ok df_region_amounts_cleaned) by compute_done.
  split; [exact Hclean|].
  exact (clean_rows_distinct decimal_literal show_number decimal_literal
           df_region_amounts df_region_amounts_cleaned Hclean).
Defined.

Lemma clean_addresses_valid_witness :
  clean decimal_literal show_number decimal_literal df_addresses
  = Ok df_addresses_cleaned
  ∧ address_present df_addresses = true
  ∧ row_of [("sending_address", CStr address_a); ("receiving_address", CStr address_b)]
    ∈ rows df_addresses_cleaned
  ∧ valid_addresses
      (row_of [("sending_address", CStr address_a);
               ("receiving_address", CStr address_b)]).
Proof.
  assert (Hclean : clean decimal_literal show_number decimal_literal df_addresses
                   = Ok df_addresses_cleaned) by compute_done.
  assert (Hr : row_of [("sending_address", CStr address_a);
                       ("receiving_address", CStr address_b)]
               ∈ rows df_addresses_cleaned) by compute_done.
  split; [exact Hclean|]. split; [reflexivity|]. split; [exact Hr|].
  exact (clean_addresses_valid decimal_literal show_number decimal_literal
           df_addresses df_addresses_cleaned _ Hclean eq_refl Hr).
Defined.

Lemma clean_ip_prefix_witness :
  clean decimal_literal show_number decimal_literal df_ip = Ok df_ip_cleaned
  ∧ has_col "ip_prefix" df_ip = true
  ∧ row_of [("ip_prefix", CStr "INVALID_IP")] ∈ rows df_ip_cleaned
  ∧ ∃ s, row_of [("ip_prefix", CStr "INVALID_IP")] !! "ip_prefix" = Some (CStr s)
         ∧ s ∉ invalid_ip_values.
Proof.
  assert (Hclean : clean decimal_literal show_number decimal_literal df_ip
                   = Ok df_ip_cleaned) by compute_done.
  assert (Hr : row_of [("ip_prefix", CStr "INVALID_IP")] ∈ rows df_ip_cleaned)
    by compute_done.
  split; [exact Hclean|]. split; [reflexivity|]. split; [exact Hr|].
  exact (clean_ip_prefix decimal_literal show_number decimal_literal
           df_ip df_ip_cleaned _ Hclean eq_refl Hr).
Defined.

Lemma clean_regions_witness :
  clean decimal_literal show_number decimal_literal df_places = Ok df_places_cleaned
  ∧ has_col "location_region" df_places = true
  ∧ row_of [("location_region", CStr "asia")] ∈ rows df_places_cleaned
  ∧ ∃ s, row_of [("location_region", CStr "asia")] !! "location_region"
         = Some (CStr s)
         ∧ lower s = s ∧ s ∉ invalid_regions.
Proof.
  assert (Hclean : clean decimal_literal show_number decimal_literal df_places
                   = Ok df_places_cleaned) by compute_done.
  assert (Hr : row_of [("location_region", CStr "asia")] ∈ rows df_places_cleaned)
    by compute_done.
  split; [exact Hclean|]. split; [reflexivity|]. split; [exact Hr|].
  exact (clean_regions decimal_literal show_number decimal_literal
           df_places df_places_cleaned _ Hclean eq_refl Hr).
Defined.

Lemma clean_converted_columns_witness :
  clean decimal_literal show_number decimal_literal df_scores = Ok df_scores_cleaned
  ∧ "risk_score" ∈ ["risk_score"; "amount"; "timestamp"]
  ∧ has_col "risk_score" df_scores = true
  ∧ row_of [("risk_score", num 50); ("anomaly", CStr "low_risk")]
    ∈ rows df_scores_cleaned
  ∧ (row_of [("risk_score", num 50); ("anomaly", CStr "low_risk")] !! "risk_score"
     = Some CNaN
     ∨ ∃ q, row_of [("risk_score", num 50); ("anomaly", CStr "low_risk")]
            !! "risk_score" = Some (CNum q)).
Proof.
  assert (Hclean : clean decimal_literal show_number decimal_literal df_scores
                   = Ok df_scores_cleaned) by compute_done.
  assert (Hc : "risk_score" ∈ ["risk_score"; "amount"; "timestamp"]) by compute_done.
  assert (Hr : row_of [("risk_score", num 50); ("anomaly", CStr "low_risk")]
               ∈ rows df_scores_cleaned) by compute_done.
  split; [exact Hclean|]. split; [exact Hc|]. split; [reflexivity|].
  split; [exact Hr|].
  exact (clean_converted_columns decimal_literal show_number decimal_literal
           df_scores df_scores_cleaned _ _ Hclean Hc eq_refl Hr).
Defined.

(** ** The imputation *)

Definition df_regions_imputed : DataFrame :=
  mkDataFrame ["location_region"; "risk_score"]
    [ row_of [("location_region", CStr "A"); ("risk_score", num 10)];
      row_of [("location_region", CStr "A"); ("risk_score", num 20)];
      row_of [("location_region", CStr "A"); ("risk_score", num 15)];
      row_of [("location_region", CStr "B"); ("risk_score", num 15)] ].

Definition df_unreadable_imputed : DataFrame :=
  mkDataFrame ["location_region"; "risk_score"; "amount"]
    [ row_of [("location_region", CStr "A"); ("risk_score", CStr "10");
              ("amount", num 10)];
      row_of [("location_region", CStr "A"); ("risk_score", CStr "abc");
              ("amount", num 10)] ].

Lemma risk_stage_two_passes_witness :
  has_col "risk_score" df_regions = true
  ∧ (∃ r, r ∈ rows df_regions
          ∧ isin risk_missing_values (at_col "risk_score" r) = true)
  ∧ risk_stage decimal_literal df_regions
    = if has_col "location_region" df_regions
      then Ok (mkDataFrame (columns df_regions)
                 (two_passes "risk_score"
                    ((λ r, <["risk_score" :=
                               to_numeric decimal_literal (at_col "risk_score" r)]> r)
                     <$> rows df_regions)))
      else Raise (KeyError "location_region").
Proof.
  assert (Hex : ∃ r, r ∈ rows df_regions
                     ∧ isin risk_missing_values (at_col "risk_score" r) = true).
  { exists (row_of [("location_region", CStr "B"); ("risk_score", CStr "")]).
    split; compute_done. }
  split; [reflexivity|]. split; [exact Hex|].
  exact (risk_stage_two_passes decimal_literal df_regions eq_refl Hex).
Defined.

Lemma amount_stage_two_passes_witness :
  has_col "amount" df_unreadable = true
  ∧ (∃ r, r ∈ rows df_unreadable
          ∧ to_numeric decimal_literal (at_col "amount" r) = CNaN)
  ∧ amount_stage decimal_literal df_unreadable
    = if has_col "location_region" df_unreadable
      then Ok (mkDataFrame (columns df_unreadable)
                 (two_passes "amount"
                    ((λ r, <["amount" :=
                               to_numeric decimal_literal (at_col "amount" r)]> r)
                     <$> rows df_unreadable)))
      else Raise (KeyError "location_region").
Proof.
  assert (Hex : ∃ r, r ∈ rows df_unreadable
                     ∧ to_numeric decimal_literal (at_col "amount" r) = CNaN).
  { exists (row_of [("location_region", CStr "A"); ("risk_score", CStr "abc");
                    ("amount", CStr "abc")]).
    split; compute_done. }
  split; [reflexivity|]. split; [exact Hex|].
  exact (amount_stage_two_passes decimal_literal df_unreadable eq_refl Hex).
Defined.

Lemma amount_stage_matches_risk_procedure_witness :
  (∀ s, s ∈ risk_missing_values → decimal_literal s = None)
  ∧ ((∃ r, r ∈ rows df_region_amounts
           ∧ isin risk_missing_values (at_col "amount" r) = true)
     ∨ (∀ r, r ∈ rows df_region_amounts
             → to_numeric decimal_literal (at_col "amount" r) ≠ CNaN))
  ∧ amount_stage decimal_literal df_region_amounts
    = risk_procedure_on decimal_literal "amount" df_region_amounts.
Proof.
  assert (Hs : ∀ s, s ∈ risk_missing_values → decimal_literal s = None).
  { intros s Hs. unfold risk_missing_values in Hs.
    repeat (apply elem_of_cons in Hs as [->|Hs]; [reflexivity|]).
    by apply elem_of_nil in Hs. }
  assert (Hex : (∃ r, r ∈ rows df_region_amounts
                      ∧ isin risk_missing_values (at_col "amount" r) = true)
                ∨ (∀ r, r ∈ rows df_region_amounts
                        → to_numeric decimal_literal (at_col "amount" r) ≠ CNaN)).
  { left. exists (row_of [("location_region", CStr "A"); ("amount", CStr "none")]).
    split; compute_done. }
  split; [exact Hs|]. split; [exact Hex|].
  exact (amount_stage_matches_risk_procedure decimal_literal df_region_amounts Hs Hex).
Defined.

Definition rows_to_fill : list row :=
  [ row_of [("location_region", CStr "A"); ("amount", num 10)];
    row_of [("location_region", CStr "A"); ("amount", CNaN)];
    row_of [("location_region", CStr "B"); ("amount", num 30)];
    row_of [("location_region", CStr "B"); ("amount", CNaN)] ].

Lemma fill_order_irrelevant_witness :
  "amount" ≠ "location_region"
  ∧ [(CStr "B", num 30); (CStr "A", num 10)] ≡ₚ groupby_median "amount" rows_to_fill
  ∧ foldl (fill_region "amount") rows_to_fill [(CStr "B", num 30); (CStr "A", num 10)]
    = foldl (fill_region "amount") rows_to_fill (groupby_median "amount" rows_to_fill).
Proof.
  assert (Hc : "amount" ≠ "location_region") by discriminate.
  assert (Hperm : [(CStr "B", num 30); (CStr "A", num 10)]
                  ≡ₚ groupby_median "amount" rows_to_fill).
  { replace (groupby_median "amount" rows_to_fill)
      with [(CStr "A", num 10); (CStr "B", num 30)] by compute_done.
    apply perm_swap. }
  split; [exact Hc|]. split; [exact Hperm|].
  exact (fill_order_irrelevant "amount" rows_to_fill _ Hc Hperm).
Defined.

Lemma risk_stage_keeps_readable_witness :
  risk_stage decimal_literal df_regions = Ok df_regions_imputed
  ∧ has_col "risk_score" df_regions = true
  ∧ rows df_regions !! 1
    = Some (row_of [("location_region", CStr "A"); ("risk_score", CStr "20")])
  ∧ ∃ r', rows df_regions_imputed !! 1 = Some r'
          ∧ (∀ c, c ≠ "risk_score" →
                  r' !! c
                  = row_of [("location_region", CStr "A"); ("risk_score", CStr "20")]
                    !! c)
          ∧ ∀ q, to_numeric decimal_literal
                   (at_col "risk_score"
                      (row_of [("location_region", CStr "A");
                               ("risk_score", CStr "20")])) = CNum q
                 → r' !! "risk_score" = Some (CNum q).
Proof.
  assert (Hstage : risk_stage decimal_literal df_regions = Ok df_regions_imputed)
    by compute_done.
  split; [exact Hstage|]. split; [reflexivity|]. split; [reflexivity|].
  exact (risk_stage_keeps_readable decimal_literal df_regions df_regions_imputed
           1 _ Hstage eq_refl eq_refl).
Defined.

Lemma amount_stage_keeps_readable_witness :
  amount_stage decimal_literal df_unreadable = Ok df_unreadable_imputed
  ∧ has_col "amount" df_unreadable = true
  ∧ rows df_unreadable !! 0
    = Some (row_of [("location_region", CStr "A"); ("risk_score", CStr "10");
                    ("amount", CStr "10")])
  ∧ ∃ r', rows df_unreadable_imputed !! 0 = Some r'
          ∧ (∀ c, c ≠ "amount" →
                  r' !! c
                  = row_of [("location_region", CStr "A"); ("risk_score", CStr "10");
                            ("amount", CStr "10")] !! c)
          ∧ ∀ q, to_numeric decimal_literal
                   (at_col "amount"
                      (row_of [("location_region", CStr "A");
                               ("risk_score", CStr "10");
                               ("amount", CStr "10")])) = CNum q
                 → r' !! "amount" = Some (CNum q).
Proof.
  assert (Hstage : amount_stage decimal_literal df_unreadable
                   = Ok df_unreadable_imputed) by compute_done.
  split; [exact Hstage|]. split; [reflexivity|]. split; [reflexivity|].
  exact (amount_stage_keeps_readable decimal_literal df_unreadable
           df_unreadable_imputed 0 _ Hstage eq_refl eq_refl).
Defined.

(** ** The regions *)

Lemma region_stage_rows_witness :
  has_col "location_region" df_places = true
  ∧ let lowered :=
      λ r : row, lower (astype_str show_number (at_col "location_region" r)) in
    rows (if region_rebinds (region_lower show_number df_places)
          then region_filter (region_lower show_number df_places)
          else region_lower show_number df_places)
    = (λ r : row, <["location_region" := CStr (lowered r)]> r)
      <$> filter (λ r, lowered r ∉ invalid_regions) (rows df_places).
Proof.
  split; [reflexivity|].
  exact (region_stage_rows show_number df_places eq_refl).
Defined.

Lemma validate_cleaned_regions_witness :
  clean decimal_literal show_number decimal_literal df_places = Ok df_places_cleaned
  ∧ has_col "location_region" df_places = true
  ∧ rows df_places_cleaned ≠ []
  ∧ ∃ issues vals,
      invalid_categories
        (validate_data_quality decimal_literal show_number df_places_cleaned)
      = Some issues
      ∧ ("location_region", vals) ∈ issues
      ∧ ∀ r, r ∈ rows df_places_cleaned →
             ∃ s, r !! "location_region" = Some (CStr s) ∧ s ∈ vals.
Proof.
  assert (Hclean : clean decimal_literal show_number decimal_literal df_places
                   = Ok df_places_cleaned) by compute_done.
  assert (Hrows : rows df_places_cleaned ≠ []) by discriminate.
  split; [exact Hclean|]. split; [reflexivity|]. split; [exact Hrows|].
  exact (validate_cleaned_regions decimal_literal show_number decimal_literal
           df_places df_places_cleaned Hclean eq_refl Hrows).
Defined.

(** ** The consistency checks *)

Definition df_sessions : DataFrame :=
  mkDataFrame ["amount"; "session_duration"]
    [ row_of [("amount", CStr "10"); ("session_duration", CStr "long")];
      row_of [("amount", CStr "20"); ("session_duration", CStr "45")] ].

Definition df_sessions_cleaned : DataFrame :=
  mkDataFrame ["amount"; "session_duration"]
    [ row_of [("amount", num 10); ("session_duration", CStr "long")];
      row_of [("amount", num 20); ("session_duration", CStr "45")] ].

Lemma post_processing_checks_tally_witness :
  post_processing_checks df_scores_cleaned = Ok (mkTally 0 1)
  ∧ total_checks (mkTally 0 1)
    = (if has_col "risk_score" df_scores_cleaned && has_col "anomaly" df_scores_cleaned
       then 1 else 0)
      + (if has_col "amount" df_scores_cleaned && has_col "age_group" df_scores_cleaned
         then 1 else 0)
      + (if has_col "amount" df_scores_cleaned then 1 else 0)
      + (if has_col "session_duration" df_scores_cleaned then 1 else 0)
  ∧ checks_passed (mkTally 0 1) ≤ total_checks (mkTally 0 1) ≤ 4.
Proof.
  assert (Hchecks : post_processing_checks df_scores_cleaned = Ok (mkTally 0 1))
    by compute_done.
  split; [exact Hchecks|].
  exact (post_processing_checks_tally df_scores_cleaned (mkTally 0 1) Hchecks).
Defined.

Lemma post_processing_checks_raise_witness :
  post_processing_checks df_scores = Raise TypeError
  ∧ TypeError = TypeError
  ∧ ∃ col r s, col ∈ ["risk_score"; "amount"; "session_duration"]
               ∧ has_col col df_scores = true ∧ r ∈ rows df_scores
               ∧ at_col col r = CStr s.
Proof.
  assert (Hchecks : post_processing_checks df_scores = Raise TypeError)
    by compute_done.
  split; [exact Hchecks|].
  exact (post_processing_checks_raise df_scores TypeError Hchecks).
Defined.

Lemma checks_after_cleaning_witness :
  clean decimal_literal show_number decimal_literal df_sessions
  = Ok df_sessions_cleaned
  ∧ post_processing_checks df_sessions_cleaned = Raise TypeError
  ∧ TypeError = TypeError
  ∧ has_col "session_duration" df_sessions_cleaned = true
  ∧ ∃ r s, r ∈ rows df_sessions_cleaned ∧ at_col "session_duration" r = CStr s.
Proof.
  assert (Hclean : clean decimal_literal show_number decimal_literal df_sessions
                   = Ok df_sessions_cleaned) by compute_done.
  assert (Hchecks : post_processing_checks df_sessions_cleaned = Raise TypeError)
    by compute_done.
  split; [exact Hclean|]. split; [exact Hchecks|].
  exact (checks_after_cleaning decimal_literal show_number decimal_literal
           df_sessions df_sessions_cleaned TypeError Hclean Hchecks).
Defined.

(** ** The run and the script *)

Definition source_files : gmap string string :=
  {[ source_path := "amount,session_duration" ]}.

Lemma pipeline_text_session_witness :
  read_csv (λ _, Ok df_sessions) source_files source_path = Ok df_sessions
  ∧ clean decimal_literal show_number decimal_literal df_sessions
    = Ok df_sessions_cleaned
  ∧ has_col "session_duration" df_sessions_cleaned = true
  ∧ row_of [("amount", num 10); ("session_duration", CStr "long")]
    ∈ rows df_sessions_cleaned
  ∧ at_col "session_duration"
      (row_of [("amount", num 10); ("session_duration", CStr "long")])
    = CStr "long"
  ∧ run_enhanced_data_pipeline decimal_literal show_number decimal_literal
      (λ _, Ok df_sessions) unit (λ _, ()) (λ _, Ok ()) source_files source_path
    = (None, None, None).
Proof.
  assert (Hread : read_csv (λ _, Ok df_sessions) source_files source_path
                  = Ok df_sessions) by reflexivity.
  assert (Hclean : clean decimal_literal show_number decimal_literal df_sessions
                   = Ok df_sessions_cleaned) by compute_done.
  assert (Hr : row_of [("amount", num 10); ("session_duration", CStr "long")]
               ∈ rows df_sessions_cleaned) by compute_done.
  split; [exact Hread|]. split; [exact Hclean|]. split; [reflexivity|].
  split; [exact Hr|]. split; [reflexivity|].
  exact (pipeline_text_session decimal_literal show_number decimal_literal
           (λ _, Ok df_sessions) unit (λ _, ()) (λ _, Ok ()) source_files source_path
           df_sessions df_sessions_cleaned _ "long" Hread Hclean eq_refl Hr eq_refl).
Defined.

Definition df_header_only : DataFrame :=
  mkDataFrame ["amount"; "session_duration"] [].

Lemma pipeline_header_only_witness :
  read_csv (λ _, Ok df_header_only) source_files source_path = Ok df_header_only
  ∧ rows df_header_only = []
  ∧ run_enhanced_data_pipeline decimal_literal show_number decimal_literal
      (λ _, Ok df_header_only) unit (λ _, ()) (λ _, Ok ()) source_files source_path
    = (None, None, None)
  ∧ save_df_clean (λ _, "")
      (run_enhanced_data_pipeline decimal_literal show_number decimal_literal
         (λ _, Ok df_header_only) unit (λ _, ()) (λ _, Ok ()) source_files
         source_path).1.1
      source_files
    = source_files.
Proof.
  assert (Hread : read_csv (λ _, Ok df_header_only) source_files source_path
                  = Ok df_header_only) by reflexivity.
  split; [exact Hread|]. split; [reflexivity|].
  exact (pipeline_header_only decimal_literal show_number decimal_literal
           (λ _, Ok df_header_only) (λ _, "") unit (λ _, ()) (λ _, Ok ())
           source_files source_path df_header_only Hread eq_refl).
Defined.

Lemma pipeline_returns_witness :
  run_enhanced_data_pipeline decimal_literal show_number decimal_literal
    (λ _, Ok df_scores) unit (λ _, ()) (λ _, Ok ()) source_files source_path
  = (Some df_scores_cleaned, None, None)
  ∧ ∃ text df c,
      source_files !! source_path = Some text
      ∧ (λ _ : string, Ok df_scores) text = Ok df ∧ rows df ≠ []
      ∧ clean decimal_literal show_number decimal_literal df = Ok df_scores_cleaned
      ∧ post_processing_checks df_scores_cleaned = Ok c
      ∧ None = tabela1 unit (λ _, ()) df_scores_cleaned
      ∧ None = tabela2 df_scores_cleaned.
Proof.
  assert (Hrun : run_enhanced_data_pipeline decimal_literal show_number
                   decimal_literal (λ _, Ok df_scores) unit (λ _, ()) (λ _, Ok ())
                   source_files source_path
                 = (Some df_scores_cleaned, None, None)) by compute_done.
  split; [exact Hrun|].
  exact (pipeline_returns decimal_literal show_number decimal_literal
           (λ _, Ok df_scores) unit (λ _, ()) (λ _, Ok ()) source_files source_path
           df_scores_cleaned None None Hrun).
Defined.

Lemma main_files_witness :
  source_path ≠ output_path
  ∧ main decimal_literal show_number decimal_literal (λ _, Ok df_scores)
      (λ _, "risk_score,anomaly") unit (λ _, ()) (λ _, Ok ()) source_files
    !! source_path
    = source_files !! source_path
  ∧ (main decimal_literal show_number decimal_literal (λ _, Ok df_scores)
       (λ _, "risk_score,anomaly") unit (λ _, ()) (λ _, Ok ()) source_files
     = source_files
     ∨ ∃ text df df',
         source_files !! source_path = Some text
         ∧ (λ _ : string, Ok df_scores) text = Ok df
         ∧ clean decimal_literal show_number decimal_literal df = Ok df'
         ∧ main decimal_literal show_number decimal_literal (λ _, Ok df_scores)
             (λ _, "risk_score,anomaly") unit (λ _, ()) (λ _, Ok ()) source_files
           = <[output_path := (λ _ : DataFrame, "risk_score,anomaly") df']>
               source_files).
Proof.
  assert (Hp : source_path ≠ output_path) by discriminate.
  split; [exact Hp|].
  exact (main_files decimal_literal show_number decimal_literal (λ _, Ok df_scores)
           (λ _, "risk_score,anomaly") unit (λ _, ()) (λ _, Ok ()) source_files
           source_path Hp).
Defined.

(** ** The report of the top sale addresses *)

Definition df_sales_report : DataFrame :=
  mkDataFrame report_columns
    [ row_of [("receiving_address", CStr "b"); ("amount", num 30);
              ("timestamp", num 1)];
      row_of [("receiving_address", CStr "a"); ("amount", num 30);
              ("timestamp", num 2)];
      row_of [("receiving_address", CStr "c"); ("amount", num 20);
              ("timestamp", num 3)] ].

Lemma tabela2_shape_witness :
  tabela2 df_sales = Some df_sales_report
  ∧ columns df_sales_report = report_columns
  ∧ length (rows df_sales_report) ≤ 3
  ∧ NoDup (at_col "receiving_address" <$> rows df_sales_report)
  ∧ ∀ r, r ∈ rows df_sales_report →
      (∀ c, c ∉ report_columns → r !! c = None)
      ∧ ∃ r0, r0 ∈ rows df_sales
              ∧ at_col "transaction_type" r0 = CStr "sale"
              ∧ r = select_columns report_columns r0.
Proof.
  assert (Hreport : tabela2 df_sales = Some df_sales_report) by compute_done.
  split; [exact Hreport|].
  exact (tabela2_shape df_sales df_sales_report Hreport).
Defined.
